(** * Petstore API tests: the validation core

    A shallow embedding of [src/utils/contractValidator.ts] (class
    [ContractValidator]), of [src/utils/validators.ts] and of
    [src/utils/schemaValidator.ts] (the two [SchemaValidator] classes), and
    the properties of the specification that concern them.

    Layout: the JavaScript values and built-ins the validators use, the
    embedding of each class, then the theorems. *)

From Stdlib Require Import String Ascii List ZArith QArith Bool Lia Arith.
From Stdlib Require Import DecimalString.
Import ListNotations.

Local Open Scope list_scope.
Local Open Scope string_scope.

Set Implicit Arguments.

(* ================================================================== *)
(** ** Outcomes of a call

    A call returns a value or throws.  The recursive checker is defined
    with a recursion budget, so an evaluation has a third outcome; the
    budget the public entry point passes is always sufficient (lemma
    [validateResponseAgainstSchema_total]). *)

Inductive exn : Type :=
| Error (message : string)      (* new Error(message) *)
| TypeError.                    (* raised by the engine itself *)

Inductive outcome (A : Type) : Type :=
| Return (a : A)
| Throw (e : exn)
| OutOfFuel.

Arguments Return {A} a.
Arguments Throw {A} e.
Arguments OutOfFuel {A}.

Definition bind {A B : Type} (m : outcome A) (k : A -> outcome B) : outcome B :=
  match m with
  | Return a => k a
  | Throw e => Throw e
  | OutOfFuel => OutOfFuel
  end.

Notation "x <- m ;; k" := (bind m (fun x => k))
  (at level 61, m at next level, right associativity).
Notation "' pat <- m ;; k" := (bind m (fun x => match x with pat => k end))
  (at level 61, pat pattern, m at next level, right associativity).

(* ================================================================== *)
(** ** Strings

    A JavaScript string is modelled by the Rocq [string] of its UTF-8
    bytes (a string with an unpaired surrogate has none and is outside
    the model); template literals are concatenations.  What depends on
    the code units of a string outside ASCII (its case mappings, its
    length and its characters) is left to the engine, see [Engine]. *)

Definition lower_char (c : ascii) : ascii :=
  let n := nat_of_ascii c in
  if (65 <=? n)%nat && (n <=? 90)%nat then ascii_of_nat (n + 32) else c.

Definition upper_char (c : ascii) : ascii :=
  let n := nat_of_ascii c in
  if (97 <=? n)%nat && (n <=? 122)%nat then ascii_of_nat (n - 32) else c.

Fixpoint map_string (f : ascii -> ascii) (s : string) : string :=
  match s with
  | EmptyString => EmptyString
  | String c rest => String (f c) (map_string f rest)
  end.

Fixpoint is_ascii (s : string) : bool :=
  match s with
  | EmptyString => true
  | String c rest => (nat_of_ascii c <? 128)%nat && is_ascii rest
  end.

(** The one-character strings of an ASCII string. *)
Fixpoint ascii_units (s : string) : list string :=
  match s with
  | EmptyString => []
  | String c rest => String c EmptyString :: ascii_units rest
  end.

(** [s.split(sep)] for a one-character separator: never an empty array. *)
Fixpoint split (sep : ascii) (s : string) : list string :=
  match s with
  | EmptyString => [EmptyString]
  | String c rest =>
      if Ascii.eqb c sep then EmptyString :: split sep rest
      else match split sep rest with
           | seg :: segs => String c seg :: segs
           | [] => [String c EmptyString]
           end
  end.

(** [s.split('/').pop()]: the array is never empty, so [pop] yields its
    last element. *)
Definition split_pop (s : string) : string := last (split "/" s) EmptyString.

(** Decimal rendering of an array index, as in [`${index}`]. *)
Definition string_of_nat (n : nat) : string :=
  NilEmpty.string_of_uint (Nat.to_uint n).

(** [JSON.stringify] of a string: quoted, with the escapes of the
    standard ([QuoteJSONString]). *)
Definition dquote : ascii := "034"%char.
Definition bslash : ascii := "092"%char.

Definition hex_digit (n : nat) : ascii :=
  if (n <? 10)%nat then ascii_of_nat (48 + n) else ascii_of_nat (87 + n).

Definition escape_char (c : ascii) : string :=
  let n := nat_of_ascii c in
  if (n =? 34)%nat then String bslash (String dquote EmptyString)
  else if (n =? 92)%nat then String bslash (String bslash EmptyString)
  else if (n =? 8)%nat then String bslash "b"
  else if (n =? 12)%nat then String bslash "f"
  else if (n =? 10)%nat then String bslash "n"
  else if (n =? 13)%nat then String bslash "r"
  else if (n =? 9)%nat then String bslash "t"
  else if (n <? 32)%nat then
    String bslash "u00"
      ++ String (hex_digit (n / 16)) (String (hex_digit (n mod 16)) EmptyString)
  else String c EmptyString.

Fixpoint escape_string (s : string) : string :=
  match s with
  | EmptyString => EmptyString
  | String c rest => escape_char c ++ escape_string rest
  end.

Definition quote_json (s : string) : string :=
  String dquote (escape_string s) ++ String dquote EmptyString.

(* ================================================================== *)
(** ** Values

    The values the validators handle: parsed JSON documents, [undefined]
    (what reading an absent property yields), and the built-in objects
    that a read of an inherited member yields: [Object.prototype],
    [Array.prototype] and the built-in functions, each named by where it
    is found ([Object.prototype.toString]).  A container holds parsed
    values; a built-in object is only ever the result of a read.

    A number is modelled by the exact rational value of the double.  An
    object is the list of its own properties in the engine's enumeration
    order, which is the order [Object.entries] yields; a key is looked
    up at its first entry (parsed documents have no repeated key). *)

Inductive builtin : Type :=
| ObjectPrototype
| ArrayPrototype
| NativeFunction (name : string).

#[warnings="-register-all"]
Inductive value : Type :=
| JUndefined
| JNull
| JBool (b : bool)
| JNumber (n : Q)
| JString (s : string)
| JArray (elements : list value)
| JObject (properties : list (string * value))
| JBuiltin (b : builtin).

(** What a member of a built-in function, or an inherited member of a
    string, a number or a boolean, can be: a primitive or a built-in
    object. *)
Inductive atom : Type :=
| AUndefined
| ANull
| ABool (b : bool)
| ANumber (n : Q)
| AString (s : string)
| ABuiltin (b : builtin).

Definition value_of_atom (a : atom) : value :=
  match a with
  | AUndefined => JUndefined
  | ANull => JNull
  | ABool b => JBool b
  | ANumber n => JNumber n
  | AString s => JString s
  | ABuiltin b => JBuiltin b
  end.

(** *** The engine

    What differs between versions of the engine, or is fixed by tables
    too large to write out, is a parameter of the embedding:
    - [float_toString]: [Number::toString] of a number that is not an
      integer of magnitude below 2^53 (shortest round-trip digits,
      exponent notation);
    - [nonascii_toLowerCase], [nonascii_toUpperCase], [code_units]: the
      case mappings and the code units of a string that is not ASCII;
    - [Array_prototype_methods]: the names of the methods of
      [Array.prototype], which grow with the versions of the language;
    - [primitive_member]: what a string, a number or a boolean inherits
      from the prototype of its wrapper (the validators read from such a
      value only the keywords of a schema);
    - [function_own], [Function_prototype_member]: the own properties
      of a built-in function and what it inherits;
    - [function_toString]: the text of a built-in function. *)
Record Engine : Type := {
  float_toString : Q -> string;
  nonascii_toLowerCase : string -> string;
  nonascii_toUpperCase : string -> string;
  code_units : string -> list string;
  Array_prototype_methods : list string;
  primitive_member : value -> string -> atom;
  function_own : string -> string -> option atom;
  Function_prototype_member : string -> option atom;
  function_toString : string -> string
}.

(** [String.prototype.toLowerCase] and [toUpperCase]. *)
Definition toLowerCase (engine : Engine) (s : string) : string :=
  if is_ascii s then map_string lower_char s else nonascii_toLowerCase engine s.

Definition toUpperCase (engine : Engine) (s : string) : string :=
  if is_ascii s then map_string upper_char s else nonascii_toUpperCase engine s.

(** The code units of a string, as one-unit strings. *)
Definition units (engine : Engine) (s : string) : list string :=
  if is_ascii s then ascii_units s else code_units engine s.

Definition chars (engine : Engine) (s : string) : list value :=
  map JString (units engine s).

Fixpoint assoc {A : Type} (k : string) (l : list (string * A)) : option A :=
  match l with
  | [] => None
  | (k', a) :: rest => if String.eqb k k' then Some a else assoc k rest
  end.

(** The length of the longest chain of reads that stays in objects: the
    recursion budget of the checker.  An array inherits from
    [Array.prototype], which inherits from [Object.prototype]. *)
Fixpoint depth (v : value) : nat :=
  match v with
  | JArray l => S (Nat.max 1 (list_max (map depth l)))
  | JObject o => S (list_max (map (fun kv => depth (snd kv)) o))
  | JBuiltin ObjectPrototype => 0
  | JBuiltin ArrayPrototype => 1
  | JBuiltin (NativeFunction _) => 2
  | _ => 0
  end.

(** [ToBoolean]. *)
Definition truthy (v : value) : bool :=
  match v with
  | JUndefined | JNull => false
  | JBool b => b
  | JNumber n => negb (Qnum n =? 0)%Z
  | JString s => negb (String.eqb s EmptyString)
  | JArray _ | JObject _ | JBuiltin _ => true
  end.

Definition typeof (v : value) : string :=
  match v with
  | JUndefined => "undefined"
  | JNull => "object"
  | JBool _ => "boolean"
  | JNumber _ => "number"
  | JString _ => "string"
  | JArray _ | JObject _ => "object"
  | JBuiltin (NativeFunction _) => "function"
  | JBuiltin _ => "object"
  end.

(** [Array.prototype] is itself an array, an empty one. *)
Definition Array_isArray (v : value) : bool :=
  match v with
  | JArray _ | JBuiltin ArrayPrototype => true
  | _ => false
  end.

(** The elements [forEach] visits. *)
Definition elements_of (v : value) : list value :=
  match v with
  | JArray l => l
  | _ => []
  end.

Definition Number_isInteger (n : Q) : bool :=
  (Qnum n mod Zpos (Qden n) =? 0)%Z.

Definition integer_value (n : Q) : Z := (Qnum n / Zpos (Qden n))%Z.

Definition number_of_nat (n : nat) : Q := inject_Z (Z.of_nat n).

(** The index an array-index key denotes, if it is one below [len]. *)
Definition array_index (len : nat) (k : string) : option nat :=
  find (fun i => String.eqb (string_of_nat i) k) (seq 0 len).

(** The own properties of an array or of a string: [length] and the
    indices. *)
Definition indexed_property (l : list value) (k : string) : option value :=
  if String.eqb k "length" then Some (JNumber (number_of_nat (length l)))
  else match array_index (length l) k with
       | Some i => nth_error l i
       | None => None
       end.

(** *** The built-in prototypes

    The own string-keyed members of [Object.prototype] are its methods
    and the accessor [__proto__], which yields the prototype of the
    object it is read from.  Those of [Array.prototype] are [length] and
    its methods. *)
Definition Object_prototype_methods : list string :=
  ["constructor"; "__defineGetter__"; "__defineSetter__"; "hasOwnProperty";
   "__lookupGetter__"; "__lookupSetter__"; "isPrototypeOf";
   "propertyIsEnumerable"; "toString"; "valueOf"; "toLocaleString"].

Definition method_of (owner : string) (methods : list string) (k : string)
    : option value :=
  if existsb (String.eqb k) methods
  then Some (JBuiltin (NativeFunction (owner ++ "." ++ k)))
  else None.

(** The member [k] of [Object.prototype], read from an object whose
    prototype is [proto]. *)
Definition Object_prototype_member (proto : value) (k : string) : option value :=
  if String.eqb k "__proto__" then Some proto
  else method_of "Object.prototype" Object_prototype_methods k.

Definition Array_prototype_member (engine : Engine) (k : string) : option value :=
  if String.eqb k "length" then Some (JNumber 0)
  else method_of "Array.prototype" (Array_prototype_methods engine) k.

(** The own property [k] of a value that is neither [null] nor
    [undefined]. *)
Definition own_property (engine : Engine) (v : value) (k : string) : option value :=
  match v with
  | JObject o => assoc k o
  | JArray l => indexed_property l k
  | JString s => indexed_property (chars engine s) k
  | JBuiltin ObjectPrototype => Object_prototype_member JNull k
  | JBuiltin ArrayPrototype => Array_prototype_member engine k
  | JBuiltin (NativeFunction f) => option_map value_of_atom (function_own engine f k)
  | _ => None
  end.

(** What a lookup finds: nothing, a value, or an accessor that raises
    a [TypeError]. *)
Inductive lookup : Type :=
| Absent
| Found (x : value)
| Raises.

Definition found (o : option value) : lookup :=
  match o with
  | Some x => Found x
  | None => Absent
  end.

(** The accessors [caller] and [arguments] of [Function.prototype],
    which raise when read from a built-in function. *)
Definition raising (k : string) : bool :=
  String.eqb k "caller" || String.eqb k "arguments".

(** What a value without own property [k] inherits at [k]. *)
Definition inherited (engine : Engine) (v : value) (k : string) : lookup :=
  match v with
  | JObject _ => found (Object_prototype_member (JBuiltin ObjectPrototype) k)
  | JArray _ =>
      match Array_prototype_member engine k with
      | Some x => Found x
      | None => found (Object_prototype_member (JBuiltin ArrayPrototype) k)
      end
  | JBuiltin ObjectPrototype => Absent
  | JBuiltin ArrayPrototype =>
      found (Object_prototype_member (JBuiltin ObjectPrototype) k)
  | JBuiltin (NativeFunction _) =>
      if raising k then Raises
      else found (option_map value_of_atom (Function_prototype_member engine k))
  | JString _ | JNumber _ | JBool _ =>
      Found (value_of_atom (primitive_member engine v k))
  | JUndefined | JNull => Absent
  end.

(** The lookup of [k] in a value and along its prototype chain. *)
Definition member (engine : Engine) (v : value) (k : string) : lookup :=
  match own_property engine v k with
  | Some x => Found x
  | None => inherited engine v k
  end.

(** What reading [k] from a value yields when the read does not raise. *)
Definition field (engine : Engine) (v : value) (k : string) : value :=
  match member engine v k with
  | Found x => x
  | _ => JUndefined
  end.

(** [v[k]] and [v.k]. *)
Definition js_get (engine : Engine) (v : value) (k : string) : outcome value :=
  match v with
  | JUndefined | JNull => Throw TypeError
  | _ =>
      match member engine v k with
      | Raises => Throw TypeError
      | _ => Return (field engine v k)
      end
  end.

(** [typeof v === 'object' && v !== null]. *)
Definition is_object (v : value) : bool :=
  String.eqb (typeof v) "object"
  && negb (match v with JNull => true | _ => false end).

(** [k in v], for an object, an array or a built-in object [v]. *)
Definition has_property (engine : Engine) (v : value) (k : string) : bool :=
  match member engine v k with
  | Absent => false
  | _ => true
  end.

(** [k in v]: a [TypeError] unless [v] is an object. *)
Definition js_in (engine : Engine) (k : string) (v : value) : outcome bool :=
  match v with
  | JObject _ | JArray _ | JBuiltin _ => Return (has_property engine v k)
  | _ => Throw TypeError
  end.

Definition indexed (l : list value) : list (string * value) :=
  combine (map string_of_nat (seq 0 (length l))) l.

(** [Object.entries(v)] for a truthy [v]: the own enumerable
    properties, of which the built-in objects have none. *)
Definition Object_entries (engine : Engine) (v : value) : list (string * value) :=
  match v with
  | JObject o => o
  | JArray l => indexed l
  | JString s => indexed (chars engine s)
  | _ => []
  end.

Definition builtin_eqb (a b : builtin) : bool :=
  match a, b with
  | ObjectPrototype, ObjectPrototype => true
  | ArrayPrototype, ArrayPrototype => true
  | NativeFunction f, NativeFunction g => String.eqb f g
  | _, _ => false
  end.

(** [SameValueZero], the comparison of [Array.prototype.includes].  Two
    objects or arrays are the same only when they are one object; the
    response and the specification are separate documents, so an element
    of a schema's [enum] is never the same object as a response value. *)
Definition SameValueZero (a b : value) : bool :=
  match a, b with
  | JUndefined, JUndefined => true
  | JNull, JNull => true
  | JBool x, JBool y => Bool.eqb x y
  | JNumber x, JNumber y => Qeq_bool x y
  | JString x, JString y => String.eqb x y
  | JBuiltin x, JBuiltin y => builtin_eqb x y
  | _, _ => false
  end.

Definition includes (l : list value) (v : value) : bool :=
  existsb (fun e => SameValueZero e v) l.

(** [v === s] for a string [s]. *)
Definition strict_eq_string (v : value) (s : string) : bool :=
  match v with
  | JString t => String.eqb t s
  | _ => false
  end.

(* ================================================================== *)
(** ** Rendering values as text *)

(** [Number::toString]: an integer of magnitude below 2^53 is printed
    with all its digits. *)
Definition Number_toString (engine : Engine) (n : Q) : string :=
  if Number_isInteger n && (Z.abs (integer_value n) <? 2 ^ 53)%Z
  then NilEmpty.string_of_int (Z.to_int (integer_value n))
  else float_toString engine n.

(** [ToString] raises a [TypeError] on an object that has a property
    [toString] of its own (in a parsed document it is not a function, and
    the inherited [valueOf] yields the object itself), and on an array
    that holds such an object. *)
Fixpoint convertible (v : value) : bool :=
  match v with
  | JObject o => match assoc "toString" o with Some _ => false | None => true end
  | JArray l => forallb convertible l
  | _ => true
  end.

(** The text [ToString] yields when it does not raise. *)
Fixpoint js_toString (engine : Engine) (v : value) : string :=
  match v with
  | JUndefined => "undefined"
  | JNull => "null"
  | JBool true => "true"
  | JBool false => "false"
  | JNumber n => Number_toString engine n
  | JString s => s
  | JArray l =>
      String.concat ","
        (map (fun e => match e with
                       | JUndefined | JNull => EmptyString
                       | _ => js_toString engine e
                       end) l)
  | JObject _ => "[object Object]"
  | JBuiltin ObjectPrototype => "[object Object]"
  | JBuiltin ArrayPrototype => EmptyString
  | JBuiltin (NativeFunction f) => function_toString engine f
  end.

(** [ToString]: what a template literal does to [${v}], and what a
    property key undergoes. *)
Definition ToString (engine : Engine) (v : value) : outcome string :=
  if convertible v then Return (js_toString engine v) else Throw TypeError.

(** The text of [Array.prototype.join]: [null] and [undefined] render
    as nothing. *)
Definition join (engine : Engine) (l : list value) (sep : string) : string :=
  String.concat sep
    (map (fun e => match e with
                   | JUndefined | JNull => EmptyString
                   | _ => js_toString engine e
                   end) l).

(** [l.join(sep)]. *)
Definition Array_join (engine : Engine) (l : list value) (sep : string)
    : outcome string :=
  if forallb convertible l then Return (join engine l sep) else Throw TypeError.

(** [JSON.stringify(v)]; [None] is its [undefined] result. *)
Fixpoint JSON_stringify (engine : Engine) (v : value) : option string :=
  match v with
  | JUndefined => None
  | JNull => Some "null"
  | JBool true => Some "true"
  | JBool false => Some "false"
  | JNumber n => Some (Number_toString engine n)
  | JString s => Some (quote_json s)
  | JArray l =>
      Some ("[" ++ String.concat ","
                     (map (fun e => match JSON_stringify engine e with
                                    | Some s => s
                                    | None => "null"
                                    end) l) ++ "]")
  | JObject o =>
      Some ("{" ++ String.concat ","
                     (flat_map (fun kv => match JSON_stringify engine (snd kv) with
                                          | Some s => [quote_json (fst kv) ++ ":" ++ s]
                                          | None => []
                                          end) o) ++ "}")
  | JBuiltin ObjectPrototype => Some "{}"
  | JBuiltin ArrayPrototype => Some "[]"
  | JBuiltin (NativeFunction _) => None
  end.

(** [`${JSON.stringify(v)}`]. *)
Definition stringified (engine : Engine) (v : value) : string :=
  match JSON_stringify engine v with
  | Some s => s
  | None => "undefined"
  end.

(* ================================================================== *)
(** ** [src/utils/contractValidator.ts] *)

Record operation : Type := { responses : list (string * value) }.

Record OpenAPISpec : Type := {
  swagger : option string;
  openapi : option string;
  info : string * string;                                (* title, version *)
  paths : list (string * list (string * operation));
  definitions : option (list (string * value))
}.

(** The objects [spec.paths[path][method]], [spec.paths[path]] and
    [spec.paths] of the parsed document. *)
Definition operation_object (op : operation) : value :=
  JObject [("responses", JObject (responses op))].

Definition entry_object (entry : list (string * operation)) : value :=
  JObject (map (fun mo => (fst mo, operation_object (snd mo))) entry).

Definition paths_object (spec : OpenAPISpec) : value :=
  JObject (map (fun pe => (fst pe, entry_object (snd pe))) (paths spec)).

Record ValidationResult : Type := {
  valid : bool;
  errors : list string;
  warnings : list string
}.

(** The [options] argument, [{ strictRequired?: boolean }]. *)
Record Options : Type := { strictRequired : option bool }.

(** The default [options = {}]. *)
Definition default_options : Options := {| strictRequired := None |}.

(** [options.strictRequired !== false]. *)
Definition strict_of (options : Options) : bool :=
  match options.(strictRequired) with
  | Some false => false
  | _ => true
  end.

(** [array.push(x)], [array.push(...xs)] and [array.length === 0]. *)
Definition push (l : list string) (x : string) : list string := (l ++ [x])%list.
Definition push_all (l xs : list string) : list string := (l ++ xs)%list.
Definition is_empty (l : list string) : bool :=
  match l with [] => true | _ :: _ => false end.

Definition validateEndpointExists (engine : Engine) (spec : OpenAPISpec)
    (path : string) (method : option string) : outcome ValidationResult :=
  let method := match method with Some m => m | None => "get" end in
  let errs := [] in
  let warns := [] in
  entry <- js_get engine (paths_object spec) path ;;
  if negb (truthy entry) then
    let errs := push errs ("Endpoint '" ++ path ++ "' not found in OpenAPI spec") in
    Return {| valid := false; errors := errs; warnings := warns |}
  else
    op <- js_get engine entry (toLowerCase engine method) ;;
    if negb (truthy op) then
      let errs :=
        push errs ("Method '" ++ toUpperCase engine method
                       ++ "' not found for endpoint '" ++ path ++ "'") in
      Return {| valid := false; errors := errs; warnings := warns |}
    else Return {| valid := true; errors := errs; warnings := warns |}.

(** [definitions[schemaName]]. *)
Definition definition_of (engine : Engine) (defs : list (string * value))
    (schemaName : string) : value :=
  field engine (JObject defs) schemaName.

Definition validateSchemaExists (engine : Engine) (spec : OpenAPISpec)
    (schemaName : string) : outcome ValidationResult :=
  let errs := [] in
  let warns := [] in
  let missing :=
    match definitions spec with
    | None => true
    | Some defs => negb (truthy (definition_of engine defs schemaName))
    end in
  if missing then
    let errs :=
      push errs ("Schema '" ++ schemaName ++ "' not found in OpenAPI spec definitions") in
    Return {| valid := false; errors := errs; warnings := warns |}
  else Return {| valid := true; errors := errs; warnings := warns |}.

Definition getSchema (engine : Engine) (spec : OpenAPISpec) (schemaName : string)
    : outcome value :=
  match definitions spec with
  | None => Throw (Error "No definitions found in OpenAPI spec")
  | Some defs => Return (definition_of engine defs schemaName)
  end.

Definition getJsonType (v : value) : string :=
  match v with
  | JNull => "null"
  | _ =>
      if Array_isArray v then "array"
      else match v with
           | JNumber n => if Number_isInteger n then "integer" else "number"
           | _ => typeof v
           end
  end.

(** [ref.split('/').pop()]; a [$ref] that is not a string has no [split]. *)
Definition ref_name (ref : value) : outcome string :=
  match ref with
  | JString s => Return (split_pop s)
  | _ => Throw TypeError
  end.

Definition getEndpointPaths (spec : OpenAPISpec) : list string :=
  map fst (paths spec).

Definition getSchemaNames (spec : OpenAPISpec) : list string :=
  match definitions spec with
  | Some defs => map fst defs
  | None => []
  end.

Section Checker.

Variable engine : Engine.

(** The recursive call [this.validateResponseAgainstSchema]. *)
Variable self : value -> string -> Options -> outcome ValidationResult.

(** The callback of [value.forEach] in [validateFieldType]; [items] is
    [fieldSchema.items], [errs] the array it pushes to. *)
Definition validateItem (fieldName : string) (items : value) (item : value)
    (index : nat) (errs : list string) : outcome (list string) :=
  ref <- js_get engine items "$ref" ;;
  if truthy ref then
    refSchemaName <- ref_name ref ;;
    itemValidation <- self item refSchemaName default_options ;;
    Return (push_all errs
              (map (fun err => fieldName ++ "[" ++ string_of_nat index ++ "]: " ++ err)
                   (itemValidation.(errors))))
  else
    type <- js_get engine items "type" ;;
    if truthy type then
      let itemType := getJsonType item in
      if negb (strict_eq_string type itemType) then
        expected <- ToString engine type ;;
        Return (push errs
                  (fieldName ++ "[" ++ string_of_nat index ++ "] has type '" ++ itemType
                     ++ "' but schema expects '" ++ expected ++ "'"))
      else Return errs
    else Return errs.

Fixpoint forEach (fieldName : string) (items : value) (l : list value)
    (index : nat) (errs : list string) : outcome (list string) :=
  match l with
  | [] => Return errs
  | item :: rest =>
      errs <- validateItem fieldName items item index errs ;;
      forEach fieldName items rest (S index) errs
  end.

(** [validateFieldType], its recursive call being [self]. *)
Definition validateFieldType_body (fieldName : string) (v : value)
    (fieldSchema : value) : outcome ValidationResult :=
  let errs := [] in
  let warns := [] in
  ref <- js_get engine fieldSchema "$ref" ;;
  early <-
    (if truthy ref then
       refSchemaName <- ref_name ref ;;
       if is_object v then
         refValidation <- self v refSchemaName default_options ;;
         Return (Some refValidation)
       else Return None
     else Return None) ;;
  match early with
  | Some refValidation => Return refValidation
  | None =>
      type <- js_get engine fieldSchema "type" ;;
      errs <-
        (if truthy type then
           let expectedType := type in
           let actualType := getJsonType v in
           errs <-
             (if negb (strict_eq_string expectedType actualType) then
                expected <- ToString engine expectedType ;;
                Return (push errs
                          ("Field '" ++ fieldName ++ "' has type '" ++ actualType
                             ++ "' but schema expects '" ++ expected
                             ++ "' (value: " ++ stringified engine v ++ ")"))
              else Return errs) ;;
           enum <- js_get engine fieldSchema "enum" ;;
           errs <-
             (* fieldSchema.enum && Array.isArray(fieldSchema.enum) *)
             (if Array_isArray enum then
                if negb (includes (elements_of enum) v) then
                  shown <- ToString engine v ;;
                  listed <- Array_join engine (elements_of enum) ", " ;;
                  Return (push errs
                            ("Field '" ++ fieldName ++ "' has value '" ++ shown
                               ++ "' which is not in allowed enum values: ["
                               ++ listed ++ "]"))
                else Return errs
              else Return errs) ;;
           items <- js_get engine fieldSchema "items" ;;
           if strict_eq_string expectedType "array" && truthy items && Array_isArray v
           then forEach fieldName items (elements_of v) 0 errs
           else Return errs
         else Return errs) ;;
      Return {| valid := is_empty errs; errors := errs; warnings := warns |}
  end.

(** The loop [for (const requiredField of schema.required)].  The key
    of [requiredField in response] is [ToString] of the entry, as is
    its text in the message. *)
Fixpoint checkRequired (response : value) (strict : bool) (required : list value)
    (errs warns : list string) : outcome (list string * list string) :=
  match required with
  | [] => Return (errs, warns)
  | requiredField :: rest =>
      key <- ToString engine requiredField ;;
      present <- js_in engine key response ;;
      if negb present then
        let msg := "Required field '" ++ key ++ "' is missing from response" in
        if strict
        then checkRequired response strict rest (push errs msg) warns
        else checkRequired response strict rest errs (push warns msg)
      else checkRequired response strict rest errs warns
  end.

(** The loop over [Object.entries(schema.properties)]. *)
Fixpoint checkProperties (response : value) (entries : list (string * value))
    (errs warns : list string) : outcome (list string * list string) :=
  match entries with
  | [] => Return (errs, warns)
  | (fieldName, fieldSchema) :: rest =>
      present <- js_in engine fieldName response ;;
      if present then
        fieldValue <- js_get engine response fieldName ;;
        validationType <- validateFieldType_body fieldName fieldValue fieldSchema ;;
        checkProperties response rest
          (push_all errs (validationType.(errors)))
          (push_all warns (validationType.(warnings)))
      else checkProperties response rest errs warns
  end.

(** [validateResponseAgainstSchema], its recursive call (through
    [validateFieldType]) being [self]. *)
Definition validateResponseAgainstSchema_body (spec : OpenAPISpec)
    (response : value) (schemaName : string) (options : Options)
    : outcome ValidationResult :=
  let errs := [] in
  let warns := [] in
  let strict := strict_of options in
  schema <- getSchema engine spec schemaName ;;
  if negb (truthy schema) then
    let errs := push errs ("Schema '" ++ schemaName ++ "' not found") in
    Return {| valid := false; errors := errs; warnings := warns |}
  else
    required <- js_get engine schema "required" ;;
    '(errs, warns) <-
      (* schema.required && Array.isArray(schema.required): an array is truthy *)
      (if Array_isArray required
       then checkRequired response strict (elements_of required) errs warns
       else Return (errs, warns)) ;;
    properties <- js_get engine schema "properties" ;;
    '(errs, warns) <-
      (if truthy properties
       then checkProperties response (Object_entries engine properties) errs warns
       else Return (errs, warns)) ;;
    Return {| valid := is_empty errs; errors := errs; warnings := warns |}.

End Checker.

(** The recursion of [validateResponseAgainstSchema] through
    [validateFieldType] always descends into the response (a property's
    value, an array's element), so a budget above the response's depth
    is never used up. *)
Fixpoint validateResponseAgainstSchema_fuel (engine : Engine)
    (fuel : nat) (spec : OpenAPISpec) (response : value) (schemaName : string)
    (options : Options) : outcome ValidationResult :=
  match fuel with
  | O => OutOfFuel
  | S fuel' =>
      validateResponseAgainstSchema_body engine
        (validateResponseAgainstSchema_fuel engine fuel' spec)
        spec response schemaName options
  end.

Definition validateResponseAgainstSchema (engine : Engine)
    (spec : OpenAPISpec) (response : value) (schemaName : string)
    (options : Options) : outcome ValidationResult :=
  validateResponseAgainstSchema_fuel engine (S (depth response))
    spec response schemaName options.

Definition validateFieldType (engine : Engine) (spec : OpenAPISpec)
    (fieldName : string) (v : value) (fieldSchema : value)
    : outcome ValidationResult :=
  validateFieldType_body engine
    (validateResponseAgainstSchema engine spec) fieldName v fieldSchema.

(** The message of the required-field pass. *)
Definition required_message (name : string) : string :=
  "Required field '" ++ name ++ "' is missing from response".

(* ================================================================== *)
(** ** Ajv, as the schema validators use it

    Ajv is an external library.  A compiled validator applied to the data
    gives a boolean and leaves its failures in its [errors] property
    ([null] or an array); [compile] throws on a schema it rejects. *)

Inductive completion (E A : Type) : Type :=
| Normal (a : A)
| Abrupt (e : E).

Arguments Normal {E A} a.
Arguments Abrupt {E A} e.

Module Ajv.

Record ErrorObject : Type := {
  keyword : string;
  instancePath : string;
  schemaPath : string;
  params : value;
  message : option string
}.

Definition ValidateFunction : Type := value -> bool * option (list ErrorObject).

Definition Compile : Type := value -> completion exn ValidateFunction.

(** [`${err.message}`]. *)
Definition message_text (err : ErrorObject) : string :=
  match message err with
  | Some m => m
  | None => "undefined"
  end.

End Ajv.

(** *** [src/utils/validators.ts] *)
Module Validators.

Record Result : Type := { valid : bool; errors : list string }.

Section SchemaValidator.

(** [ajv.compile] of the module's instance, [new Ajv({ allErrors: true })]. *)
Variable compile : Ajv.Compile.

Definition validate (data : value) (schema : value) : completion exn Result :=
  match compile schema with
  | Abrupt e => Abrupt e
  | Normal validate =>
      match validate data with
      | (false, Some errs) =>
          Normal {| valid := false;
                    errors := map (fun err => Ajv.instancePath err ++ " "
                                                ++ Ajv.message_text err) errs |}
      | _ => Normal {| valid := true; errors := [] |}
      end
  end.

End SchemaValidator.

End Validators.

(** *** [src/utils/schemaValidator.ts] *)
Module SchemaValidator.

(** What this module's functions throw: its own [SchemaValidationError]
    (the failures and the data), or whatever [compile] threw. *)
Inductive thrown : Type :=
| SchemaValidationError (errors : list Ajv.ErrorObject) (data : value)
| Other (e : exn).

Record Result : Type := {
  valid : bool;
  errors : list string;
  data : option value
}.

Section SchemaValidator.

(** [this.getAjv().compile]: the instance built once with [allErrors],
    [verbose], [strict: false], [validateFormats] and [addFormats]. *)
Variable compile : Ajv.Compile.

Definition validateSchema (schema : value) (data : value) : completion thrown value :=
  match compile schema with
  | Abrupt e => Abrupt (Other e)
  | Normal validate =>
      match validate data with
      | (false, Some errs) => Abrupt (SchemaValidationError errs data)
      | _ => Normal data
      end
  end.

(** [err.instancePath || 'root']. *)
Definition path_or_root (err : Ajv.ErrorObject) : string :=
  if String.eqb (Ajv.instancePath err) EmptyString then "root"
  else Ajv.instancePath err.

Definition validate (schema : value) (data : value) : completion thrown Result :=
  match validateSchema schema data with
  | Normal validatedData =>
      Normal {| valid := true; errors := []; data := Some validatedData |}
  | Abrupt (SchemaValidationError errs _) =>
      Normal {| valid := false;
                errors := map (fun err => path_or_root err ++ ": "
                                            ++ Ajv.message_text err) errs;
                data := None |}
  | Abrupt error => Abrupt error
  end.

End SchemaValidator.

End SchemaValidator.

(* ================================================================== *)
(** ** The rest of the three modules *)

Definition newline : string := String "010"%char EmptyString.

(** [formatValidationErrors]: the [lines] array, then its [join].  The
    markers are the source's, as their UTF-8 bytes. *)
Definition formatValidationErrors_lines (result : ValidationResult) : list string :=
  let lines := [] in
  let lines :=
    if negb (is_empty (errors result)) then
      push_all (push lines "Validation Errors:")
        (map (fun err => "  ❌ " ++ err) (errors result))
    else lines in
  let lines :=
    if negb (is_empty (warnings result)) then
      push_all (push lines "Warnings:")
        (map (fun warn => "  ⚠️  " ++ warn) (warnings result))
    else lines in
  lines.

Definition formatValidationErrors (result : ValidationResult) : string :=
  String.concat newline (formatValidationErrors_lines result).

(** *** [ResponseValidator] of [src/utils/validators.ts] *)
Module ResponseValidator.

Definition assertStatusCode (engine : Engine) (actual expected : Q)
    : completion exn unit :=
  if negb (Qeq_bool actual expected) then
    Abrupt (Error ("Expected status code " ++ Number_toString engine expected
                     ++ ", but got " ++ Number_toString engine actual))
  else Normal tt.

(** [Object.prototype.hasOwnProperty.call(obj, property)] converts [obj]
    to an object first, which [null] and [undefined] refuse. *)
Definition assertHasProperty (engine : Engine) (obj : value) (property : string)
    : completion exn unit :=
  match obj with
  | JUndefined | JNull => Abrupt TypeError
  | _ =>
      match own_property engine obj property with
      | Some _ => Normal tt
      | None =>
          Abrupt (Error ("Expected object to have property "
                           ++ String dquote (property ++ String dquote EmptyString)))
      end
  end.

Definition assertType (v : value) (expectedType : string) : completion exn unit :=
  let actualType := typeof v in
  if negb (String.eqb actualType expectedType) then
    Abrupt (Error ("Expected type " ++ String dquote expectedType
                     ++ String dquote (", but got "
                     ++ String dquote (actualType ++ String dquote EmptyString))))
  else Normal tt.

End ResponseValidator.

(** *** The rest of [src/utils/schemaValidator.ts] *)

Section Schema_validation_error.

Variable engine : Engine.

(** [JSON.stringify(v, null, 2)], [indent] being the current
    indentation. *)
Fixpoint JSON_stringify_indented (indent : string) (v : value) : option string :=
  match v with
  | JUndefined => None
  | JNull => Some "null"
  | JBool true => Some "true"
  | JBool false => Some "false"
  | JNumber n => Some (Number_toString engine n)
  | JString s => Some (quote_json s)
  | JArray l =>
      match l with
      | [] => Some "[]"
      | _ :: _ =>
          Some ("[" ++ newline ++ indent ++ "  "
                  ++ String.concat ("," ++ newline ++ indent ++ "  ")
                       (map (fun e =>
                               match JSON_stringify_indented (indent ++ "  ") e with
                               | Some s => s
                               | None => "null"
                               end) l)
                  ++ newline ++ indent ++ "]")
      end
  | JObject o =>
      match flat_map (fun kv =>
                        match JSON_stringify_indented (indent ++ "  ") (snd kv) with
                        | Some s => [quote_json (fst kv) ++ ": " ++ s]
                        | None => []
                        end) o with
      | [] => Some "{}"
      | partial =>
          Some ("{" ++ newline ++ indent ++ "  "
                  ++ String.concat ("," ++ newline ++ indent ++ "  ") partial
                  ++ newline ++ indent ++ "}")
      end
  | JBuiltin ObjectPrototype => Some "{}"
  | JBuiltin ArrayPrototype => Some "[]"
  | JBuiltin (NativeFunction _) => None
  end.

(** The line of one failure in the message of a [SchemaValidationError]. *)
Definition failure_line (err : Ajv.ErrorObject) : string :=
  let path := SchemaValidator.path_or_root err in
  let message :=
    match Ajv.message err with
    | Some m => if String.eqb m EmptyString then "validation failed" else m
    | None => "validation failed"
    end in
  let params := JSON_stringify engine (Ajv.params err) in
  "  - " ++ path ++ ": " ++ message ++ " "
    ++ match params with
       | Some p => if String.eqb p "{}" then EmptyString else p
       | None => "undefined"
       end.

(** The [message] the constructor of [SchemaValidationError] passes to
    [super]. *)
Definition SchemaValidationError_message (errs : list Ajv.ErrorObject) (data : value)
    : string :=
  let errorMessages := String.concat newline (map failure_line errs) in
  "Schema validation failed:" ++ newline ++ errorMessages ++ newline ++ newline
    ++ "Data: "
    ++ match JSON_stringify_indented EmptyString data with
       | Some s => s
       | None => "undefined"
       end.

Variable compile : Ajv.Compile.

(** [SchemaValidator.assertValid]; [context] is the optional label. *)
Definition assertValid (schema data : value) (context : option string)
    : completion SchemaValidator.thrown value :=
  match SchemaValidator.validateSchema compile schema data with
  | Normal validated => Normal validated
  | Abrupt (SchemaValidator.SchemaValidationError errs d) =>
      let contextMsg :=
        match context with
        | Some c => if String.eqb c EmptyString then EmptyString else " (" ++ c ++ ")"
        | None => EmptyString
        end in
      Abrupt (SchemaValidator.Other
                (Error ("Schema validation failed" ++ contextMsg ++ ": "
                          ++ SchemaValidationError_message errs d)))
  | Abrupt error => Abrupt error
  end.

End Schema_validation_error.

(* ================================================================== *)
(** ** Sample documents

    An engine for the examples, whose [Array.prototype] has the methods
    of ECMAScript 2023.  The examples render no number outside the safe
    integers and no built-in function, and hold no string outside ASCII;
    the built-in functions have no own property of the names they read,
    and they read no member that a string, a number, a boolean or a
    function inherits: those parameters are left empty. *)

Definition an_engine : Engine :=
  {| float_toString := fun _ => EmptyString;
     nonascii_toLowerCase := fun s => s;
     nonascii_toUpperCase := fun s => s;
     code_units := fun _ => [];
     Array_prototype_methods :=
       ["at"; "concat"; "constructor"; "copyWithin"; "entries"; "every"; "fill";
        "filter"; "find"; "findIndex"; "findLast"; "findLastIndex"; "flat";
        "flatMap"; "forEach"; "includes"; "indexOf"; "join"; "keys";
        "lastIndexOf"; "map"; "pop"; "push"; "reduce"; "reduceRight"; "reverse";
        "shift"; "slice"; "some"; "sort"; "splice"; "toLocaleString";
        "toReversed"; "toSorted"; "toSpliced"; "toString"; "unshift"; "values";
        "with"];
     primitive_member := fun _ _ => AUndefined;
     function_own := fun _ _ => None;
     Function_prototype_member := fun _ => None;
     function_toString := fun _ => EmptyString |}.

(** An excerpt in the shape of the Petstore specification the tests
    load, and the responses the examples validate. *)

Definition int (z : Z) : value := JNumber (inject_Z z).

Definition schema_ref (name : string) : value :=
  JObject [("$ref", JString ("#/definitions/" ++ name))].

Definition Category_schema : value :=
  JObject [("type", JString "object");
           ("properties",
            JObject [("id", JObject [("type", JString "integer")]);
                     ("name", JObject [("type", JString "string")])])].

Definition Tag_members : list (string * value) :=
  [("type", JString "object");
   ("required", JArray [JString "name"]);
   ("properties",
    JObject [("id", JObject [("type", JString "integer")]);
             ("name", JObject [("type", JString "string")])])].

Definition Tag_schema : value := JObject Tag_members.

Definition status_schema : value :=
  JObject [("type", JString "string");
           ("enum", JArray [JString "available"; JString "pending"; JString "sold"])].

Definition tags_schema : value :=
  JObject [("type", JString "array"); ("items", schema_ref "Tag")].

Definition photoUrls_schema : value :=
  JObject [("type", JString "array");
           ("items", JObject [("type", JString "string")])].

Definition Pet_properties : list (string * value) :=
  [("id", JObject [("type", JString "integer")]);
   ("category", schema_ref "Category");
   ("name", JObject [("type", JString "string")]);
   ("photoUrls", photoUrls_schema);
   ("tags", tags_schema);
   ("status", status_schema)].

Definition Pet_members : list (string * value) :=
  [("type", JString "object");
   ("required", JArray [JString "name"; JString "photoUrls"]);
   ("properties", JObject Pet_properties)].

Definition Pet_schema : value := JObject Pet_members.

Definition an_operation : operation :=
  {| responses := [("200", JObject [("description", JString "successful operation")])] |}.

Definition petstore_with (defs : option (list (string * value))) : OpenAPISpec :=
  {| swagger := Some "2.0";
     openapi := None;
     info := ("Swagger Petstore", "1.0.7");
     paths := [("/pet", [("post", an_operation); ("put", an_operation)]);
               ("/pet/{petId}", [("get", an_operation); ("delete", an_operation)]);
               ("/pet/findByStatus", [("get", an_operation)])];
     definitions := defs |}.

Definition petstore_definitions : list (string * value) :=
  [("Category", Category_schema); ("Tag", Tag_schema); ("Pet", Pet_schema)].

Definition petstore : OpenAPISpec := petstore_with (Some petstore_definitions).

(** A response whose only tag has no name, and what the checker returns
    for it when asked not to be strict. *)
Definition nameless_tag_response : value :=
  JObject [("tags", JArray [JObject [("id", int 1)]])].

Definition nameless_tag_result : ValidationResult :=
  {| valid := false;
     errors := ["tags[0]: Required field 'name' is missing from response"];
     warnings := ["Required field 'name' is missing from response";
                  "Required field 'photoUrls' is missing from response"] |}.

(** The invalid response of the test "should detect contract violations
    with helpful diffs". *)
Definition invalidResponse : value :=
  JObject [("id", JString "not-a-number");
           ("name", int 123);
           ("photoUrls", JString "not-an-array");
           ("status", JString "invalid-status")].

(** The results the three result-returning operations of a validator
    can return. *)
Definition returned_by (engine : Engine) (spec : OpenAPISpec)
    (r : ValidationResult) : Prop :=
  (exists path method, validateEndpointExists engine spec path method = Return r)
  \/ (exists schemaName, validateSchemaExists engine spec schemaName = Return r)
  \/ (exists response schemaName options,
        validateResponseAgainstSchema engine spec response schemaName options
        = Return r).

(** The [method] parameter with its default. *)
Definition method_or_get (method : option string) : string :=
  match method with Some m => m | None => "get" end.

(** Two evaluations agree when they have the same outcome and the budget
    sufficed. *)
Definition agree {A : Type} (x y : outcome A) : Prop := x = y /\ x <> OutOfFuel.

(** What the checker returns for [invalidResponse], as the contract
    testing guide prints it. *)
Definition invalidResponse_result : ValidationResult :=
  {| valid := false;
     errors :=
       ["Field 'id' has type 'string' but schema expects 'integer' (value: "
          ++ quote_json "not-a-number" ++ ")";
        "Field 'name' has type 'integer' but schema expects 'string' (value: 123)";
        "Field 'photoUrls' has type 'string' but schema expects 'array' (value: "
          ++ quote_json "not-an-array" ++ ")";
        "Field 'status' has value 'invalid-status' which is not in allowed enum values: [available, pending, sold]"];
     warnings := [] |}.

(** A failure record as Ajv reports it for [{ id: "not-a-number" }]
    against a schema whose [id] is an integer, and an instance of
    [compile] whose validators report it. *)
Definition id_not_integer : Ajv.ErrorObject :=
  {| Ajv.keyword := "type";
     Ajv.instancePath := "/id";
     Ajv.schemaPath := "#/properties/id/type";
     Ajv.params := JObject [("type", JString "integer")];
     Ajv.message := Some "must be integer" |}.

Definition rejecting : Ajv.Compile :=
  fun _ => Normal (fun _ => (false, Some [id_not_integer])).

(** An instance of [compile] that rejects every schema. *)
Definition strict_compile : Ajv.Compile :=
  fun _ => Abrupt (Error "schema is invalid").

Definition id_schema : value :=
  JObject [("type", JString "object");
           ("properties", JObject [("id", JObject [("type", JString "integer")])])].

(** The names under which every object inherits a member from
    [Object.prototype]. *)
Definition inherited_name (k : string) : bool :=
  String.eqb k "__proto__" || existsb (String.eqb k) Object_prototype_methods.

(** The keys of the entries of [required]: [ToString] of each. *)
Fixpoint required_keys (engine : Engine) (names : list value) : outcome (list string) :=
  match names with
  | [] => Return []
  | name :: rest =>
      key <- ToString engine name ;;
      keys <- required_keys engine rest ;;
      Return (key :: keys)
  end.

(** The messages of the required-field pass: one for each key that is
    not in the response, in order. *)
Definition missing_required (engine : Engine) (response : value)
    (keys : list string) : list string :=
  map required_message
      (filter (fun k => negb (has_property engine response k)) keys).

(** A schema that lists a required field twice. *)
Definition Twice_schema : value :=
  JObject [("type", JString "object");
           ("required", JArray [JString "name"; JString "name"])].

(** The messages of the field-type check, as the specification words
    them: [expected] is the text of the declared type, [shown] that of
    the value, [listed] that of the allowed values. *)
Definition type_message (engine : Engine) (fieldName : string) (v : value)
    (expected : string) : string :=
  "Field '" ++ fieldName ++ "' has type '" ++ getJsonType v
    ++ "' but schema expects '" ++ expected
    ++ "' (value: " ++ stringified engine v ++ ")".

Definition enum_message (fieldName shown listed : string) : string :=
  "Field '" ++ fieldName ++ "' has value '" ++ shown
    ++ "' which is not in allowed enum values: [" ++ listed ++ "]".

Definition item_type_message (fieldName : string) (index : nat) (item : value)
    (expected : string) : string :=
  fieldName ++ "[" ++ string_of_nat index ++ "] has type '" ++ getJsonType item
    ++ "' but schema expects '" ++ expected ++ "'".

Definition item_prefix (fieldName : string) (index : nat) (err : string) : string :=
  fieldName ++ "[" ++ string_of_nat index ++ "]: " ++ err.

(** What the type check and the enum check of a field emit. *)
Definition type_errors (engine : Engine) (fieldName : string)
    (v expected : value) : outcome (list string) :=
  if strict_eq_string expected (getJsonType v) then Return []
  else text <- ToString engine expected ;;
       Return [type_message engine fieldName v text].

Definition enum_errors (engine : Engine) (fieldName : string)
    (v enum : value) : outcome (list string) :=
  if Array_isArray enum then
    if includes (elements_of enum) v then Return []
    else shown <- ToString engine v ;;
         listed <- Array_join engine (elements_of enum) ", " ;;
         Return [enum_message fieldName shown listed]
  else Return [].

(** What the array-items pass emits for elements checked against
    [items.type], whose text is [expected], from index [start] on. *)
Fixpoint item_type_errors (fieldName : string) (type : value) (expected : string)
    (l : list value) (start : nat) : list string :=
  match l with
  | [] => []
  | item :: rest =>
      ((if strict_eq_string type (getJsonType item) then []
        else [item_type_message fieldName start item expected])
       ++ item_type_errors fieldName type expected rest (S start))%list
  end.

(** The array-items pass over elements checked against [items.type]:
    the text of the type is needed, and computed, at the first element
    that differs from it. *)
Definition item_type_pass (engine : Engine) (fieldName : string) (type : value)
    (l : list value) (start : nat) : outcome (list string) :=
  if forallb (fun item => strict_eq_string type (getJsonType item)) l then Return []
  else expected <- ToString engine type ;;
       Return (item_type_errors fieldName type expected l start).

(** What it emits for elements validated against [items.$ref], given
    the results of their validations. *)
Fixpoint item_ref_errors (fieldName : string) (results : list ValidationResult)
    (start : nat) : list string :=
  match results with
  | [] => []
  | r :: rest =>
      (map (item_prefix fieldName start) (errors r)
       ++ item_ref_errors fieldName rest (S start))%list
  end.

(** The result of a field check that emitted [errs]. *)
Definition field_result (errs : list string) : ValidationResult :=
  {| valid := is_empty errs; errors := errs; warnings := [] |}.

(** Field schemas that carry a [$ref] next to a declared type. *)
Definition ref_and_type : value :=
  JObject [("$ref", JString "#/definitions/Category"); ("type", JString "string")].

Definition ref_and_items : value :=
  JObject [("$ref", JString "#/definitions/Category");
           ("type", JString "array");
           ("items", JObject [("type", JString "string")])].

Definition ref_and_enum : value :=
  JObject [("$ref", JString "#/definitions/Category");
           ("type", JString "string");
           ("enum", JArray [JString "available"])].

(** The two passes of the checker over a schema found in the
    definitions, each from empty arrays. *)
Definition required_pass (engine : Engine) (response schema : value)
    (options : Options) : outcome (list string * list string) :=
  if Array_isArray (field engine schema "required")
  then checkRequired engine response (strict_of options)
         (elements_of (field engine schema "required")) [] []
  else Return ([], []).

Definition property_pass (engine : Engine) (spec : OpenAPISpec)
    (response schema : value) : outcome (list string * list string) :=
  if truthy (field engine schema "properties")
  then checkProperties engine
         (validateResponseAgainstSchema engine spec) response
         (Object_entries engine (field engine schema "properties")) [] []
  else Return ([], []).

(** The members of a schema the checker reads, and the response keys it
    looks at because of them. *)
Definition required_names (engine : Engine) (schema : value) : list value :=
  if Array_isArray (field engine schema "required")
  then elements_of (field engine schema "required")
  else [].

Definition property_entries (engine : Engine) (schema : value)
    : list (string * value) :=
  if truthy (field engine schema "properties")
  then Object_entries engine (field engine schema "properties")
  else [].

Definition mentioned_keys (engine : Engine) (schema : value) : list string :=
  (map (js_toString engine) (required_names engine schema)
   ++ map fst (property_entries engine schema))%list.

(** The result for a name the definitions lack. *)
Definition schema_not_found (schemaName : string) : ValidationResult :=
  {| valid := false;
     errors := ["Schema '" ++ schemaName ++ "' not found"];
     warnings := [] |}.

(** A call that throws nothing but a [TypeError]. *)
Definition only_TypeError {A : Type} (o : outcome A) : Prop :=
  forall msg, o <> Throw (Error msg).

Fixpoint has_slash (s : string) : bool :=
  match s with
  | EmptyString => false
  | String c rest => Ascii.eqb c "/" || has_slash rest
  end.

(** A definition that refers to itself, and a list of two nodes. *)
Definition Node_members : list (string * value) :=
  [("type", JString "object");
   ("required", JArray [JString "id"]);
   ("properties",
    JObject [("id", JObject [("type", JString "integer")]);
             ("next", schema_ref "Node")])].

Definition linked : OpenAPISpec := petstore_with (Some [("Node", JObject Node_members)]).

Definition two_nodes : value :=
  JObject [("id", int 1); ("next", JObject [("id", JString "two")])].

(** The messages of the required-field pass, whichever array receives
    them. *)
Fixpoint required_messages (engine : Engine) (response : value)
    (required : list value) : outcome (list string) :=
  match required with
  | [] => Return []
  | requiredField :: rest =>
      key <- ToString engine requiredField ;;
      present <- js_in engine key response ;;
      msgs <- required_messages engine response rest ;;
      Return (if present then msgs else required_message key :: msgs)
  end.

(** A result with its warnings counted as errors. *)
Definition strict_view (r : ValidationResult) : ValidationResult :=
  {| valid := is_empty (warnings r ++ errors r)%list;
     errors := (warnings r ++ errors r)%list;
     warnings := [] |}.

(** A pet that conforms. *)
Definition sold_pet : value :=
  JObject [("name", JString "Rex"); ("photoUrls", JArray []); ("status", JString "sold")].

(** The label [assertValid] puts after its phrase: [ (<context>)] for a
    context that is given and not empty. *)
Definition context_label (context : option string) : string :=
  match context with
  | Some c => if String.eqb c EmptyString then EmptyString else " (" ++ c ++ ")"
  | None => EmptyString
  end.

(* ================================================================== *)
(** * Properties *)

Unset Implicit Arguments.

(** ** The outcome monad *)

Lemma bind_Return {A B : Type} (m : outcome A) (k : A -> outcome B) (b : B) :
  bind m k = Return b -> exists a, m = Return a /\ k a = Return b.
Proof.
  destruct m as [a | e | ]; simpl; intros H; try discriminate.
  exists a; split; [reflexivity | exact H].
Qed.

Lemma agree_Return {A : Type} (a : A) : agree (Return a) (Return a).
Proof. split; [reflexivity | discriminate]. Qed.

Lemma agree_Throw {A : Type} (e : exn) : agree (@Throw A e) (Throw e).
Proof. split; [reflexivity | discriminate]. Qed.

Lemma agree_bind {A B : Type} (m1 m2 : outcome A) (k1 k2 : A -> outcome B) :
  agree m1 m2 -> (forall a, m1 = Return a -> agree (k1 a) (k2 a)) ->
  agree (bind m1 k1) (bind m2 k2).
Proof.
  intros [Heq Hfuel] Hk; subst m2.
  destruct m1 as [a | e | ]; simpl.
  - apply Hk; reflexivity.
  - apply agree_Throw.
  - contradiction Hfuel; reflexivity.
Qed.

Lemma agree_js_get (engine : Engine) (v : value) (k : string) :
  agree (js_get engine v k) (js_get engine v k).
Proof.
  split; [reflexivity |].
  unfold js_get; destruct v; try discriminate; destruct (member engine _ k); discriminate.
Qed.

Lemma agree_js_in (engine : Engine) (k : string) (v : value) :
  agree (js_in engine k v) (js_in engine k v).
Proof. split; [reflexivity | destruct v; discriminate]. Qed.

Lemma agree_ref_name (r : value) : agree (ref_name r) (ref_name r).
Proof. split; [reflexivity | destruct r; discriminate]. Qed.

Lemma agree_ToString (engine : Engine) (v : value) :
  agree (ToString engine v) (ToString engine v).
Proof. split; [reflexivity | unfold ToString; destruct (convertible v); discriminate]. Qed.

Lemma agree_Array_join (engine : Engine) (l : list value) (sep : string) :
  agree (Array_join engine l sep) (Array_join engine l sep).
Proof.
  split; [reflexivity | unfold Array_join; destruct (forallb convertible l); discriminate].
Qed.

Lemma agree_getSchema (engine : Engine) (spec : OpenAPISpec) (n : string) :
  agree (getSchema engine spec n) (getSchema engine spec n).
Proof. split; [reflexivity | unfold getSchema; destruct (definitions spec); discriminate]. Qed.

(* ================================================================== *)
(** ** Lookups *)

(** A read of a value that is neither [null] nor [undefined] yields
    [field], unless the value is a built-in function and the key one of
    its raising accessors. *)
Lemma js_get_quiet (engine : Engine) (v : value) (k : string) :
  v <> JUndefined -> v <> JNull -> raising k = false ->
  js_get engine v k = Return (field engine v k).
Proof.
  intros Hu Hn Hk; unfold js_get.
  assert (Hm : member engine v k <> Raises).
  { unfold member; destruct (own_property engine v k); [discriminate |].
    destruct v as [ | | b | n | s | l | o | [ | | f]]; cbn [inherited];
      try discriminate.
    - destruct (Array_prototype_member engine k); [discriminate |].
      unfold found; destruct (Object_prototype_member _ k); discriminate.
    - unfold found; destruct (Object_prototype_member _ k); discriminate.
    - unfold found; destruct (Object_prototype_member _ k); discriminate.
    - rewrite Hk; unfold found.
      destruct (option_map _ _); discriminate. }
  destruct v; try contradiction; try reflexivity;
    destruct (member engine _ k); try reflexivity; contradiction.
Qed.

Lemma truthy_js_get (engine : Engine) (v : value) (k : string) :
  truthy v = true -> raising k = false ->
  js_get engine v k = Return (field engine v k).
Proof.
  intros Ht Hk; apply js_get_quiet; [| | exact Hk]; intros ->; discriminate Ht.
Qed.

Lemma js_get_Return (engine : Engine) (v : value) (k : string) (x : value) :
  js_get engine v k = Return x -> x = field engine v k.
Proof.
  unfold js_get; destruct v; try discriminate;
    destruct (member engine _ k); intros H; try discriminate;
    injection H as <-; reflexivity.
Qed.

(** A value that has been read from can be read at every key that does
    not raise. *)
Lemma js_get_field (engine : Engine) (v : value) (k : string) (x : value) :
  js_get engine v k = Return x ->
  x = field engine v k
  /\ forall k', raising k' = false -> js_get engine v k' = Return (field engine v k').
Proof.
  intros H; split; [apply (js_get_Return _ _ _ _ H) |].
  intros k' Hk'; apply js_get_quiet; [| | exact Hk']; intros ->; discriminate H.
Qed.

Lemma js_get_object (engine : Engine) (o : list (string * value)) (k : string) :
  js_get engine (JObject o) k = Return (field engine (JObject o) k).
Proof.
  unfold js_get, field, member; cbn [own_property inherited].
  destruct (assoc k o); [reflexivity |].
  unfold found; destruct (Object_prototype_member _ k); reflexivity.
Qed.

Lemma field_own (engine : Engine) (o : list (string * value)) (k : string) (x : value) :
  assoc k o = Some x -> field engine (JObject o) k = x.
Proof. intros H; unfold field, member; cbn [own_property]; rewrite H; reflexivity. Qed.

Lemma truthy_JString (s : string) : s <> EmptyString -> truthy (JString s) = true.
Proof.
  intros Hs; simpl; destruct (String.eqb_spec s EmptyString); [contradiction | reflexivity].
Qed.

Lemma js_in_has_property (engine : Engine) (k : string) (response : value) (b : bool) :
  js_in engine k response = Return b ->
  forall k', js_in engine k' response = Return (has_property engine response k').
Proof. destruct response; simpl; intros H k'; try discriminate; reflexivity. Qed.

Lemma own_has_property (engine : Engine) (v : value) (k : string) :
  own_property engine v k <> None -> has_property engine v k = true.
Proof.
  unfold has_property, member; destruct (own_property engine v k);
    [reflexivity | intros H; contradiction H; reflexivity].
Qed.

(** What an object inherits is truthy. *)
Lemma method_of_truthy (owner : string) (methods : list string) (k : string) (x : value) :
  method_of owner methods k = Some x -> truthy x = true /\ is_object x = false.
Proof.
  unfold method_of; destruct (existsb _ methods); intros H; [| discriminate].
  injection H as <-; split; reflexivity.
Qed.

(** The member [k] of an object: its own, or the one it inherits under
    an inherited name. *)
Lemma field_object (engine : Engine) (o : list (string * value)) (k : string) :
  (forall x, assoc k o = Some x -> field engine (JObject o) k = x)
  /\ (assoc k o = None ->
      truthy (field engine (JObject o) k) = inherited_name k
      /\ has_property engine (JObject o) k = inherited_name k).
Proof.
  split; [intros x; apply field_own |].
  intros H; unfold field, has_property, member; cbn [own_property inherited];
    rewrite H.
  unfold inherited_name, Object_prototype_member, method_of.
  destruct (String.eqb k "__proto__"); [split; reflexivity |].
  destruct (existsb (String.eqb k) Object_prototype_methods); split; reflexivity.
Qed.

(* ================================================================== *)
(** ** Depth of the values a lookup yields *)

Lemma list_max_In (n : nat) (l : list nat) : In n l -> (n <= list_max l)%nat.
Proof.
  intros Hin.
  assert (H : Forall (fun k => (k <= list_max l)%nat) l)
    by (apply list_max_le; apply Nat.le_refl).
  rewrite Forall_forall in H; auto.
Qed.

Lemma depth_element (l : list value) (x : value) :
  In x l -> (depth x < depth (JArray l))%nat.
Proof.
  intros Hin; cbn [depth].
  pose proof (list_max_In (depth x) (map depth l) (in_map depth l x Hin)); lia.
Qed.

Lemma depth_assoc (o : list (string * value)) (k : string) (x : value) :
  assoc k o = Some x -> (depth x < depth (JObject o))%nat.
Proof.
  intros H; simpl; apply Nat.lt_succ_r.
  induction o as [| [k' a] rest IH]; simpl in *; [discriminate |].
  destruct (String.eqb k k').
  - injection H as ->. apply Nat.le_max_l.
  - etransitivity; [apply IH, H | apply Nat.le_max_r].
Qed.

Lemma depth_indexed (l : list value) (k : string) (x : value) :
  indexed_property l k = Some x -> is_object x = true -> In x l.
Proof.
  unfold indexed_property; destruct (String.eqb k "length").
  - intros H; injection H as <-; discriminate.
  - destruct (array_index (length l) k) as [i |]; [| discriminate].
    intros H _; apply (nth_error_In _ _ H).
Qed.

Lemma depth_Object_prototype_member (proto : value) (k : string) (x : value) :
  Object_prototype_member proto k = Some x -> is_object x = true -> x = proto.
Proof.
  unfold Object_prototype_member; destruct (String.eqb k "__proto__").
  - intros H _; injection H as <-; reflexivity.
  - intros H Hobj; apply method_of_truthy in H as [_ H]; congruence.
Qed.

Lemma depth_Array_prototype_member (engine : Engine) (k : string) (x : value) :
  Array_prototype_member engine k = Some x -> is_object x = false.
Proof.
  unfold Array_prototype_member; destruct (String.eqb k "length").
  - intros H; injection H as <-; reflexivity.
  - intros H; apply method_of_truthy in H as [_ H]; exact H.
Qed.

Lemma depth_atom (a : atom) :
  is_object (value_of_atom a) = true -> (depth (value_of_atom a) < 2)%nat.
Proof. destruct a as [ | | b | n | s | [ | | f]]; simpl; intros H; try discriminate; lia. Qed.

(** A read that yields an object yields one that lies deeper. *)
Lemma depth_js_get (engine : Engine) (response : value) (k : string) (x : value) :
  js_in engine k response = Return true -> js_get engine response k = Return x ->
  is_object x = true ->
  (depth x < depth response)%nat.
Proof.
  intros Hin Hget Hobj; apply js_get_Return in Hget; subst x.
  unfold field, member in *.
  destruct response as [ | | b | n | s | l | o | [ | | f]]; try discriminate Hin;
    cbn [own_property inherited] in *.
  - destruct (indexed_property l k) as [y |] eqn:Hy.
    + apply depth_element, (depth_indexed _ _ _ Hy Hobj).
    + destruct (Array_prototype_member engine k) as [y |] eqn:Ha.
      * rewrite (depth_Array_prototype_member _ _ _ Ha) in Hobj; discriminate.
      * destruct (Object_prototype_member (JBuiltin ArrayPrototype) k) as [y |] eqn:Ho;
          cbn [found] in *; [| discriminate].
        rewrite (depth_Object_prototype_member _ _ _ Ho Hobj); cbn [depth]; lia.
  - destruct (assoc k o) as [y |] eqn:Hy.
    + apply depth_assoc with (k := k), Hy.
    + destruct (Object_prototype_member (JBuiltin ObjectPrototype) k) as [y |] eqn:Ho;
        cbn [found] in *; [| discriminate].
      rewrite (depth_Object_prototype_member _ _ _ Ho Hobj); cbn [depth]; lia.
  - destruct (Object_prototype_member JNull k) as [y |] eqn:Ho; [| discriminate].
    rewrite (depth_Object_prototype_member _ _ _ Ho Hobj) in Hobj; discriminate.
  - destruct (Array_prototype_member engine k) as [y |] eqn:Ha.
    + rewrite (depth_Array_prototype_member _ _ _ Ha) in Hobj; discriminate.
    + destruct (Object_prototype_member (JBuiltin ObjectPrototype) k) as [y |] eqn:Ho;
        cbn [found] in *; [| discriminate].
      rewrite (depth_Object_prototype_member _ _ _ Ho Hobj); cbn [depth]; lia.
  - destruct (function_own engine f k) as [a |]; cbn [option_map] in *.
    + apply depth_atom, Hobj.
    + destruct (raising k); [discriminate |].
      destruct (Function_prototype_member engine k) as [a |]; cbn [option_map found] in *;
        [apply depth_atom, Hobj | discriminate].
Qed.

Lemma is_object_array (v : value) : Array_isArray v = true -> is_object v = true.
Proof. destruct v as [ | | b | n | s | l | o | [ | | f]]; try discriminate; reflexivity. Qed.

Lemma depth_elements_of (v x : value) :
  In x (elements_of v) -> (depth x < depth v)%nat.
Proof.
  destruct v; cbn [elements_of]; try contradiction; apply depth_element.
Qed.

(** ** The budget is sufficient

    The body of the checker calls [self] only on values strictly inside
    the response, so two [self] that agree there give bodies that agree. *)

Section Budget.

Variable engine : Engine.
Variables self1 self2 : value -> string -> Options -> outcome ValidationResult.

Lemma validateItem_agree (fieldName : string) (items item : value)
    (index : nat) (errs : list string) :
  (forall n o, agree (self1 item n o) (self2 item n o)) ->
  agree (validateItem engine self1 fieldName items item index errs)
        (validateItem engine self2 fieldName items item index errs).
Proof.
  intros Hself; unfold validateItem.
  apply agree_bind; [apply agree_js_get | intros r _].
  destruct (truthy r).
  - apply agree_bind; [apply agree_ref_name | intros nm _].
    apply agree_bind; [apply Hself | intros iv _; apply agree_Return].
  - apply agree_bind; [apply agree_js_get | intros t _].
    destruct (truthy t); [| apply agree_Return].
    destruct (negb _); [| apply agree_Return].
    apply agree_bind; [apply agree_ToString | intros e _; apply agree_Return].
Qed.

Lemma forEach_agree (fieldName : string) (items : value) (l : list value) :
  (forall item, In item l -> forall n o, agree (self1 item n o) (self2 item n o)) ->
  forall (index : nat) (errs : list string),
    agree (forEach engine self1 fieldName items l index errs)
          (forEach engine self2 fieldName items l index errs).
Proof.
  induction l as [| item rest IH]; intros Hself index errs; simpl.
  - apply agree_Return.
  - apply agree_bind.
    + apply validateItem_agree; intros n o; apply Hself; left; reflexivity.
    + intros errs' _; apply IH; intros x Hx; apply Hself; right; exact Hx.
Qed.

Lemma validateFieldType_agree (fieldName : string) (v fieldSchema : value) :
  (is_object v = true ->
   forall x, (depth x <= depth v)%nat ->
             forall n o, agree (self1 x n o) (self2 x n o)) ->
  agree (validateFieldType_body engine self1 fieldName v fieldSchema)
        (validateFieldType_body engine self2 fieldName v fieldSchema).
Proof.
  intros Hself; unfold validateFieldType_body.
  apply agree_bind; [apply agree_js_get | intros r _].
  apply agree_bind.
  { destruct (truthy r); [| apply agree_Return].
    apply agree_bind; [apply agree_ref_name | intros nm _].
    destruct (is_object v) eqn:Hobj; [| apply agree_Return].
    apply agree_bind; [apply (Hself eq_refl), Nat.le_refl | intros rv _; apply agree_Return]. }
  intros [rv |] _; [apply agree_Return |].
  apply agree_bind; [apply agree_js_get | intros t _].
  apply agree_bind; [| intros errs _; apply agree_Return].
  destruct (truthy t); [| apply agree_Return].
  apply agree_bind.
  { destruct (negb _); [| apply agree_Return].
    apply agree_bind; [apply agree_ToString | intros e _; apply agree_Return]. }
  intros errs _.
  apply agree_bind; [apply agree_js_get | intros en _].
  apply agree_bind.
  { destruct (Array_isArray en); [| apply agree_Return].
    destruct (negb _); [| apply agree_Return].
    apply agree_bind; [apply agree_ToString | intros shown _].
    apply agree_bind; [apply agree_Array_join | intros listed _; apply agree_Return]. }
  intros errs' _.
  apply agree_bind; [apply agree_js_get | intros it _].
  destruct (Array_isArray v) eqn:Harr;
    [| rewrite andb_false_r; apply agree_Return].
  destruct (_ && _); [| apply agree_Return].
  apply forEach_agree; intros item Hin n o.
  apply (Hself (is_object_array _ Harr)), Nat.lt_le_incl, depth_elements_of, Hin.
Qed.

Lemma checkRequired_agree (response : value) (strict : bool) (required : list value) :
  forall errs warns,
    agree (checkRequired engine response strict required errs warns)
          (checkRequired engine response strict required errs warns).
Proof.
  induction required as [| f rest IH]; intros errs warns; simpl.
  - apply agree_Return.
  - apply agree_bind; [apply agree_ToString | intros key _].
    apply agree_bind; [apply agree_js_in | intros present _].
    destruct (negb present); [destruct strict |]; apply IH.
Qed.

Lemma checkProperties_agree (response : value) (entries : list (string * value)) :
  (forall x, (depth x < depth response)%nat ->
             forall n o, agree (self1 x n o) (self2 x n o)) ->
  forall errs warns,
    agree (checkProperties engine self1 response entries errs warns)
          (checkProperties engine self2 response entries errs warns).
Proof.
  intros Hself.
  induction entries as [| [fieldName fieldSchema] rest IH]; intros errs warns; simpl.
  - apply agree_Return.
  - apply agree_bind; [apply agree_js_in | intros present Hin].
    destruct present; [| apply IH].
    apply agree_bind; [apply agree_js_get | intros fv Hget].
    apply agree_bind; [| intros vt _; apply IH].
    apply validateFieldType_agree; intros Hobj x Hx.
    apply Hself. eapply Nat.le_lt_trans; [exact Hx |].
    eapply depth_js_get; eassumption.
Qed.

Lemma validateResponseAgainstSchema_body_agree (spec : OpenAPISpec)
    (response : value) (schemaName : string) (options : Options) :
  (forall x, (depth x < depth response)%nat ->
             forall n o, agree (self1 x n o) (self2 x n o)) ->
  agree (validateResponseAgainstSchema_body engine self1 spec
           response schemaName options)
        (validateResponseAgainstSchema_body engine self2 spec
           response schemaName options).
Proof.
  intros Hself; unfold validateResponseAgainstSchema_body.
  apply agree_bind; [apply agree_getSchema | intros schema _].
  destruct (negb (truthy schema)); [apply agree_Return |].
  apply agree_bind; [apply agree_js_get | intros required _].
  apply agree_bind.
  { destruct (Array_isArray required); [apply checkRequired_agree | apply agree_Return]. }
  intros [errs warns] _.
  apply agree_bind; [apply agree_js_get | intros properties _].
  apply agree_bind; [| intros [errs' warns'] _; apply agree_Return].
  destruct (truthy properties); [| apply agree_Return].
  apply checkProperties_agree, Hself.
Qed.

End Budget.

Section Checker_equations.

Variable engine : Engine.
Variable spec : OpenAPISpec.

Lemma validateResponseAgainstSchema_fuel_agree (n : nat) :
  forall (m : nat) (response : value) (schemaName : string) (options : Options),
    (depth response < n)%nat -> (depth response < m)%nat ->
    agree (validateResponseAgainstSchema_fuel engine n spec
             response schemaName options)
          (validateResponseAgainstSchema_fuel engine m spec
             response schemaName options).
Proof.
  induction n as [| n IH]; intros m response schemaName options Hn Hm; [lia |].
  destruct m as [| m]; [lia |]; simpl.
  apply validateResponseAgainstSchema_body_agree.
  intros x Hx nm o; apply IH; lia.
Qed.

(** The checker is total: it returns or throws. *)
Lemma validateResponseAgainstSchema_total (response : value)
    (schemaName : string) (options : Options) :
  validateResponseAgainstSchema engine spec response schemaName options
    <> OutOfFuel.
Proof.
  unfold validateResponseAgainstSchema.
  apply (validateResponseAgainstSchema_fuel_agree (S (depth response))
           (S (depth response))); apply Nat.lt_succ_diag_r.
Qed.

(** The checker satisfies the recursive equation of the source: its
    body, with the checker itself as [this.validateResponseAgainstSchema]. *)
Lemma validateResponseAgainstSchema_eq (response : value)
    (schemaName : string) (options : Options) :
  validateResponseAgainstSchema engine spec response schemaName options
  = validateResponseAgainstSchema_body engine
      (validateResponseAgainstSchema engine spec)
      spec response schemaName options.
Proof.
  unfold validateResponseAgainstSchema at 1; simpl.
  apply validateResponseAgainstSchema_body_agree.
  intros x Hx nm o; unfold validateResponseAgainstSchema.
  apply validateResponseAgainstSchema_fuel_agree; [exact Hx | apply Nat.lt_succ_diag_r].
Qed.

Lemma validateFieldType_total (fieldName : string) (v fieldSchema : value) :
  validateFieldType engine spec fieldName v fieldSchema <> OutOfFuel.
Proof.
  unfold validateFieldType.
  apply (validateFieldType_agree engine
           (validateResponseAgainstSchema engine spec)
           (validateResponseAgainstSchema engine spec)).
  intros _ x _ n o; split; [reflexivity | apply validateResponseAgainstSchema_total].
Qed.

End Checker_equations.

(* ================================================================== *)
(** ** The result invariant *)

Lemma is_empty_iff (l : list string) : is_empty l = true <-> l = [].
Proof. destruct l; simpl; split; intros H; try reflexivity; discriminate. Qed.

Lemma validateEndpointExists_valid (engine : Engine) (spec : OpenAPISpec)
    (path : string) (method : option string) (r : ValidationResult) :
  validateEndpointExists engine spec path method = Return r ->
  valid r = is_empty (errors r) /\ warnings r = [].
Proof.
  unfold validateEndpointExists; intros H.
  apply bind_Return in H as (entry & _ & H).
  destruct (negb (truthy entry)); [injection H as <-; split; reflexivity |].
  apply bind_Return in H as (op & _ & H).
  destruct (negb (truthy op)); injection H as <-; split; reflexivity.
Qed.

Lemma validateSchemaExists_valid (engine : Engine) (spec : OpenAPISpec)
    (schemaName : string) (r : ValidationResult) :
  validateSchemaExists engine spec schemaName = Return r ->
  valid r = is_empty (errors r) /\ warnings r = [].
Proof.
  unfold validateSchemaExists.
  destruct (match definitions spec with
            | None => true
            | Some defs => negb (truthy (definition_of engine defs schemaName))
            end); intros H; injection H as <-; split; reflexivity.
Qed.

Lemma validateResponseAgainstSchema_body_valid (engine : Engine)
    (self : value -> string -> Options -> outcome ValidationResult)
    (spec : OpenAPISpec) (response : value) (schemaName : string)
    (options : Options) (r : ValidationResult) :
  validateResponseAgainstSchema_body engine self spec response schemaName options
  = Return r ->
  valid r = is_empty (errors r).
Proof.
  unfold validateResponseAgainstSchema_body; intros H.
  apply bind_Return in H as (schema & _ & H).
  destruct (negb (truthy schema)).
  - injection H as <-; reflexivity.
  - apply bind_Return in H as (required & _ & H).
    apply bind_Return in H as ([errs warns] & _ & H).
    apply bind_Return in H as (properties & _ & H).
    apply bind_Return in H as ([errs' warns'] & _ & H).
    injection H as <-; reflexivity.
Qed.

(** C1. Whatever [validateEndpointExists], [validateSchemaExists] or
    [validateResponseAgainstSchema] returns has [valid] true exactly when
    [errors] is empty; [valid] is a function of [errors] alone, so the
    warnings have no part in it. *)
Theorem valid_iff_errors_empty (engine : Engine) (spec : OpenAPISpec)
    (r : ValidationResult) :
  returned_by engine spec r ->
  (valid r = true <-> errors r = []) /\ valid r = is_empty (errors r).
Proof.
  intros H.
  assert (Hv : valid r = is_empty (errors r)).
  { destruct H as [(path & method & H) | [(schemaName & H) | (response & schemaName & options & H)]].
    - eapply validateEndpointExists_valid, H.
    - eapply validateSchemaExists_valid, H.
    - rewrite validateResponseAgainstSchema_eq in H.
      eapply validateResponseAgainstSchema_body_valid, H. }
  split; [rewrite Hv; apply is_empty_iff | exact Hv].
Qed.

Lemma valid_iff_errors_empty_witness :
  returned_by an_engine petstore invalidResponse_result
  /\ (valid invalidResponse_result = true <-> errors invalidResponse_result = [])
  /\ valid invalidResponse_result = is_empty (errors invalidResponse_result).
Proof.
  assert (H : returned_by an_engine petstore invalidResponse_result).
  { right; right; exists invalidResponse, "Pet", default_options.
    vm_compute; reflexivity. }
  split; [exact H | apply (valid_iff_errors_empty an_engine petstore _ H)].
Defined.

(* ================================================================== *)
(** ** Endpoints *)

Lemma assoc_map {A B : Type} (f : A -> B) (k : string) (l : list (string * A)) :
  assoc k (map (fun kv => (fst kv, f (snd kv))) l) = option_map f (assoc k l).
Proof.
  induction l as [| [k' a] rest IH]; cbn [map assoc fst snd]; [reflexivity |].
  destruct (String.eqb k k'); [reflexivity | exact IH].
Qed.

(** The two reads of [validateEndpointExists] on a path of the
    document. *)
Lemma entry_of_own_path (engine : Engine) (spec : OpenAPISpec) (path : string)
    (entry : list (string * operation)) :
  assoc path (paths spec) = Some entry ->
  js_get engine (paths_object spec) path = Return (entry_object entry).
Proof.
  intros H; unfold paths_object; rewrite js_get_object.
  rewrite (field_own engine _ path (entry_object entry)); [reflexivity |].
  rewrite (assoc_map entry_object), H; reflexivity.
Qed.

Lemma entry_of_absent_path (engine : Engine) (spec : OpenAPISpec) (path : string) :
  assoc path (paths spec) = None ->
  exists entry,
    js_get engine (paths_object spec) path = Return entry
    /\ truthy entry = inherited_name path.
Proof.
  intros H; unfold paths_object; rewrite js_get_object.
  eexists; split; [reflexivity |].
  apply field_object; rewrite (assoc_map entry_object), H; reflexivity.
Qed.

Lemma operation_of_entry (engine : Engine) (entry : list (string * operation))
    (m : string) :
  js_get engine (entry_object entry) m = Return (field engine (entry_object entry) m)
  /\ (truthy (field engine (entry_object entry) m) = true <->
      (exists op, assoc m entry = Some op) \/ inherited_name m = true).
Proof.
  unfold entry_object; split; [apply js_get_object |].
  destruct (assoc m entry) as [op |] eqn:Hop.
  - rewrite (field_own engine _ m (operation_object op))
      by (rewrite (assoc_map operation_object), Hop; reflexivity).
    split; [intros _; left; exists op; reflexivity | reflexivity].
  - destruct (proj2 (field_object engine
                       (map (fun mo => (fst mo, operation_object (snd mo))) entry) m))
      as [-> _]; [rewrite (assoc_map operation_object), Hop; reflexivity |].
    split; [intros H; right; exact H |].
    intros [(op & H) | H]; [discriminate H | exact H].
Qed.

(** C8, as the code has it.  The result is valid exactly when
    [paths[path]] and then [paths[path][method]], the method in lower
    case, are found; both reads see the members that every object
    inherits.  So for a path and a method that are not names of such
    members, the result is valid exactly when [paths] has the path and
    that entry has the method; on a path of [paths], a method is also
    found when it is an inherited name.  For a path that is neither in
    [paths] nor inherited the single error is [Endpoint '<path>' not
    found in OpenAPI spec]; for a path of [paths] without the method it is
    [Method '<METHOD>' not found for endpoint '<path>'], the method in
    upper case.  A result that is not valid carries one error. *)
Theorem validateEndpointExists_spec (engine : Engine) (spec : OpenAPISpec)
    (path : string) (method : option string) :
  (inherited_name path = false ->
   inherited_name (toLowerCase engine (method_or_get method)) = false ->
   exists r,
     validateEndpointExists engine spec path method = Return r
     /\ (valid r = true <->
         exists entry op,
           assoc path (paths spec) = Some entry
           /\ assoc (toLowerCase engine (method_or_get method)) entry = Some op))
  /\ (forall entry, assoc path (paths spec) = Some entry ->
      exists r,
        validateEndpointExists engine spec path method = Return r
        /\ (valid r = true <->
            (exists op, assoc (toLowerCase engine (method_or_get method)) entry = Some op)
            \/ inherited_name (toLowerCase engine (method_or_get method)) = true)
        /\ (valid r = false ->
            errors r = ["Method '" ++ toUpperCase engine (method_or_get method)
                          ++ "' not found for endpoint '" ++ path ++ "'"]))
  /\ (assoc path (paths spec) = None -> inherited_name path = false ->
      validateEndpointExists engine spec path method
      = Return {| valid := false;
                  errors := ["Endpoint '" ++ path ++ "' not found in OpenAPI spec"];
                  warnings := [] |})
  /\ (forall r, validateEndpointExists engine spec path method = Return r ->
      valid r = false -> length (errors r) = 1%nat).
Proof.
  assert (Hown : forall entry, assoc path (paths spec) = Some entry ->
            exists r,
              validateEndpointExists engine spec path method = Return r
              /\ (valid r = true <->
                  (exists op, assoc (toLowerCase engine (method_or_get method)) entry
                              = Some op)
                  \/ inherited_name (toLowerCase engine (method_or_get method)) = true)
              /\ (valid r = false ->
                  errors r = ["Method '" ++ toUpperCase engine (method_or_get method)
                                ++ "' not found for endpoint '" ++ path ++ "'"])).
  { intros entry Hentry.
    unfold validateEndpointExists; fold (method_or_get method).
    rewrite (entry_of_own_path engine spec path entry Hentry); cbn [bind].
    replace (truthy (entry_object entry)) with true by reflexivity; cbn [negb].
    destruct (operation_of_entry engine entry (toLowerCase engine (method_or_get method)))
      as [-> Hfound]; cbn [bind].
    destruct (truthy (field engine (entry_object entry)
                        (toLowerCase engine (method_or_get method))));
      cbn [negb]; eexists; (split; [reflexivity |]); cbn [valid errors]; split.
    - split; [intros _; apply Hfound; reflexivity | reflexivity].
    - discriminate.
    - split; [discriminate | intros H; apply Hfound, H].
    - reflexivity. }
  assert (Habsent : assoc path (paths spec) = None -> inherited_name path = false ->
            validateEndpointExists engine spec path method
            = Return {| valid := false;
                        errors := ["Endpoint '" ++ path ++ "' not found in OpenAPI spec"];
                        warnings := [] |}).
  { intros Hnone Hpath.
    unfold validateEndpointExists.
    destruct (entry_of_absent_path engine spec path Hnone) as (entry & -> & Htruthy).
    cbn [bind]; rewrite Htruthy, Hpath; reflexivity. }
  split; [| split; [exact Hown | split; [exact Habsent |]]].
  - intros Hpath Hmethod.
    destruct (assoc path (paths spec)) as [entry |] eqn:Hentry.
    + destruct (Hown entry eq_refl) as (r & Hr & Hvalid & _).
      exists r; split; [exact Hr |]. rewrite Hvalid; split.
      * intros [(op & Hop) | H]; [exists entry, op; auto | congruence].
      * intros (entry' & op & He & Hop); injection He as <-; left; exists op; exact Hop.
    + eexists; split; [apply (Habsent eq_refl Hpath) |]; cbn [valid].
      split; [discriminate | intros (entry & op & He & _); discriminate He].
  - intros r H Hv; unfold validateEndpointExists in H.
    apply bind_Return in H as (entry & _ & H).
    destruct (negb (truthy entry)); [injection H as <-; reflexivity |].
    apply bind_Return in H as (op & _ & H).
    destruct (negb (truthy op)); injection H as <-; [reflexivity | discriminate Hv].
Qed.

Lemma validateEndpointExists_spec_witness :
  assoc "/pet" (paths petstore) = Some [("post", an_operation); ("put", an_operation)]
  /\ exists r,
       validateEndpointExists an_engine petstore "/pet" (Some "PATCH") = Return r
       /\ errors r = ["Method 'PATCH' not found for endpoint '/pet'"].
Proof.
  split; [reflexivity |].
  destruct (proj1 (proj2 (validateEndpointExists_spec an_engine petstore "/pet"
                            (Some "PATCH")))
              [("post", an_operation); ("put", an_operation)] eq_refl)
    as (r & Hr & Hvalid & Herr).
  exists r; split; [exact Hr |].
  apply Herr.
  destruct (valid r) eqn:E; [| reflexivity].
  destruct (proj1 Hvalid eq_refl) as [(op & Hop) | H]; discriminate.
Defined.

(** The message for an absent path is longer than [Endpoint '<path>' not
    found]; and a method that is the name of an inherited member is found
    on every path of the document, which has no such method. *)
Lemma validateEndpointExists_counterexample :
  (validateEndpointExists an_engine petstore "/missing" None
   = Return {| valid := false;
               errors := ["Endpoint '/missing' not found in OpenAPI spec"];
               warnings := [] |}
   /\ ["Endpoint '/missing' not found in OpenAPI spec"]
      <> ["Endpoint '" ++ "/missing" ++ "' not found"])
  /\ (assoc "constructor" [("post", an_operation); ("put", an_operation)] = None
      /\ validateEndpointExists an_engine petstore "/pet" (Some "constructor")
         = Return {| valid := true; errors := []; warnings := [] |}).
Proof. split; split; first [reflexivity | discriminate]. Qed.

(* ================================================================== *)
(** ** The schema validators *)

(** C2. [SchemaValidator.validate] of [schemaValidator.ts] returns a
    result with [valid] true exactly when [validateSchema] returns
    instead of throwing, whatever Ajv does. *)
Theorem validate_valid_iff_validateSchema_returns (compile : Ajv.Compile)
    (schema data : value) :
  (exists r, SchemaValidator.validate compile schema data = Normal r
             /\ SchemaValidator.valid r = true)
  <-> (exists d, SchemaValidator.validateSchema compile schema data = Normal d).
Proof.
  unfold SchemaValidator.validate.
  destruct (SchemaValidator.validateSchema compile schema data) as [d | [errs d | e]].
  - split; [intros _; exists d; reflexivity |].
    intros _; eexists; split; reflexivity.
  - split; [| intros (d' & H); discriminate].
    intros (r & H & Hv); injection H as <-; discriminate.
  - split; [| intros (d' & H); discriminate].
    intros (r & H & _); discriminate.
Qed.

(** C9, as the code has it: the two [SchemaValidator.validate] render a
    failure differently.  That of [validators.ts] gives the instance path,
    a space and the message; that of [schemaValidator.ts] gives the
    instance path (or [root] when it is empty), a colon and a space, and
    the message.  Both render every failure Ajv reported, in order. *)
Theorem validate_error_strings (compile : Ajv.Compile) (schema data : value) :
  (forall r, Validators.validate compile data schema = Normal r ->
             Validators.valid r = false ->
             exists f errs,
               compile schema = Normal f /\ f data = (false, Some errs)
               /\ Validators.errors r
                  = map (fun err => Ajv.instancePath err ++ " " ++ Ajv.message_text err)
                        errs)
  /\ (forall r, SchemaValidator.validate compile schema data = Normal r ->
                SchemaValidator.valid r = false ->
                exists f errs,
                  compile schema = Normal f /\ f data = (false, Some errs)
                  /\ SchemaValidator.errors r
                     = map (fun err => SchemaValidator.path_or_root err ++ ": "
                                         ++ Ajv.message_text err) errs).
Proof.
  split; intros r H Hv.
  - unfold Validators.validate in H.
    destruct (compile schema) as [f | e]; [| discriminate].
    destruct (f data) as [[|] [errs |]] eqn:Hf;
      injection H as <-; try discriminate Hv.
    exists f, errs; auto.
  - unfold SchemaValidator.validate, SchemaValidator.validateSchema in H.
    destruct (compile schema) as [f | e]; [| discriminate].
    destruct (f data) as [[|] [errs |]] eqn:Hf;
      injection H as <-; try discriminate Hv.
    exists f, errs; auto.
Qed.

Lemma validate_error_strings_witness :
  (Validators.validate rejecting (JObject [("id", JString "not-a-number")]) id_schema
   = Normal {| Validators.valid := false;
               Validators.errors := ["/id must be integer"] |})
  /\ (exists f errs,
        rejecting id_schema = Normal f
        /\ f (JObject [("id", JString "not-a-number")]) = (false, Some errs)
        /\ ["/id must be integer"]
           = map (fun err => Ajv.instancePath err ++ " " ++ Ajv.message_text err) errs).
Proof.
  split; [reflexivity |].
  apply (proj1 (validate_error_strings rejecting id_schema
                  (JObject [("id", JString "not-a-number")]))
               {| Validators.valid := false;
                  Validators.errors := ["/id must be integer"] |});
    reflexivity.
Defined.

(** The validator of [schemaValidator.ts] does not produce
    [<instancePath> <message>]. *)
Lemma validate_error_strings_counterexample :
  SchemaValidator.validate rejecting id_schema (JObject [("id", JString "not-a-number")])
  = Normal {| SchemaValidator.valid := false;
              SchemaValidator.errors := ["/id: must be integer"];
              SchemaValidator.data := None |}
  /\ ["/id: must be integer"]
     <> [Ajv.instancePath id_not_integer ++ " " ++ Ajv.message_text id_not_integer].
Proof. split; [reflexivity | discriminate]. Qed.

(* ================================================================== *)
(** ** What raises and what does not *)

Lemma validateEndpointExists_returns (engine : Engine) (spec : OpenAPISpec)
    (path : string) (method : option string) :
  assoc path (paths spec) <> None \/ inherited_name path = false ->
  exists r, validateEndpointExists engine spec path method = Return r.
Proof.
  intros H.
  destruct (assoc path (paths spec)) as [entry |] eqn:Hentry.
  - unfold validateEndpointExists.
    rewrite (entry_of_own_path engine spec path entry Hentry); cbn [bind].
    replace (truthy (entry_object entry)) with true by reflexivity; cbn [negb].
    rewrite (proj1 (operation_of_entry engine entry _)); cbn [bind].
    destruct (negb _); eexists; reflexivity.
  - destruct H as [H | H]; [contradiction H; reflexivity |].
    unfold validateEndpointExists.
    destruct (entry_of_absent_path engine spec path Hentry) as (entry & -> & Htruthy).
    cbn [bind]; rewrite Htruthy, H; eexists; reflexivity.
Qed.

Lemma definition_of_absent (engine : Engine) (defs : list (string * value))
    (schemaName : string) :
  assoc schemaName defs = None -> inherited_name schemaName = false ->
  truthy (definition_of engine defs schemaName) = false.
Proof.
  intros Hnone Hname; unfold definition_of.
  rewrite (proj1 (proj2 (field_object engine defs schemaName) Hnone)); exact Hname.
Qed.

Lemma checker_unknown_schema (engine : Engine) (spec : OpenAPISpec)
    (defs : list (string * value)) (response : value) (schemaName : string)
    (options : Options) :
  definitions spec = Some defs ->
  truthy (definition_of engine defs schemaName) = false ->
  validateResponseAgainstSchema engine spec response schemaName options
  = Return (schema_not_found schemaName).
Proof.
  intros Hd Hs; rewrite validateResponseAgainstSchema_eq.
  unfold validateResponseAgainstSchema_body, getSchema; rewrite Hd; cbn [bind].
  rewrite Hs; reflexivity.
Qed.

(** C3, as the code has it.  [validateSchemaExists] never raises, and
    neither does [validateEndpointExists] on a path that is in [paths] or
    is not the name of an inherited member.  The checker raises
    [Error('No definitions found in OpenAPI spec')], through [getSchema],
    on a specification without a definitions section; a name for which
    [definitions[name]] is falsy, as is every name that the definitions
    neither hold nor inherit, is reported in the result.  Each
    [SchemaValidator.validate] returns a result when Ajv compiles the
    schema and lets the error of [compile] through when it does not. *)
Theorem raising_behaviour (engine : Engine) (spec : OpenAPISpec) :
  (forall path method,
     assoc path (paths spec) <> None \/ inherited_name path = false ->
     exists r, validateEndpointExists engine spec path method = Return r)
  /\ (forall schemaName, exists r, validateSchemaExists engine spec schemaName = Return r)
  /\ (forall response schemaName options,
        definitions spec = None ->
        validateResponseAgainstSchema engine spec response schemaName options
        = Throw (Error "No definitions found in OpenAPI spec"))
  /\ (forall response schemaName options defs,
        definitions spec = Some defs ->
        truthy (definition_of engine defs schemaName) = false
        \/ (assoc schemaName defs = None /\ inherited_name schemaName = false) ->
        validateResponseAgainstSchema engine spec response schemaName options
        = Return {| valid := false;
                    errors := ["Schema '" ++ schemaName ++ "' not found"];
                    warnings := [] |})
  /\ (forall (compile : Ajv.Compile) schema data,
        (forall e, compile schema = Abrupt e ->
           Validators.validate compile data schema = Abrupt e
           /\ SchemaValidator.validate compile schema data
              = Abrupt (SchemaValidator.Other e))
        /\ (forall f, compile schema = Normal f ->
              (exists r, Validators.validate compile data schema = Normal r)
              /\ (exists r, SchemaValidator.validate compile schema data = Normal r))).
Proof.
  split; [| split; [| split; [| split]]].
  - intros path method; apply validateEndpointExists_returns.
  - intros schemaName; unfold validateSchemaExists.
    destruct (match definitions spec with
              | None => true
              | Some defs => negb (truthy (definition_of engine defs schemaName))
              end); eexists; reflexivity.
  - intros response schemaName options Hd.
    rewrite validateResponseAgainstSchema_eq.
    unfold validateResponseAgainstSchema_body, getSchema; rewrite Hd; reflexivity.
  - intros response schemaName options defs Hd Hn.
    apply (checker_unknown_schema engine spec defs response schemaName options Hd).
    destruct Hn as [Hn | [Hnone Hname]];
      [exact Hn | apply definition_of_absent; assumption].
  - intros compile schema data; split.
    + intros e He.
      unfold Validators.validate, SchemaValidator.validate,
        SchemaValidator.validateSchema; rewrite He; split; reflexivity.
    + intros f Hf.
      unfold Validators.validate, SchemaValidator.validate,
        SchemaValidator.validateSchema; rewrite Hf.
      destruct (f data) as [[|] [errs |]]; split; eexists; reflexivity.
Qed.

Lemma raising_behaviour_witness :
  definitions (petstore_with None) = None
  /\ validateResponseAgainstSchema an_engine (petstore_with None)
       (JObject [("name", JString "doggie")]) "Pet" default_options
     = Throw (Error "No definitions found in OpenAPI spec").
Proof.
  split; [reflexivity |].
  apply (proj1 (proj2 (proj2 (raising_behaviour an_engine (petstore_with None))))).
  reflexivity.
Defined.

(** On a specification without definitions the checker raises and
    returns no result; and [validateEndpointExists] raises when the path
    names an inherited function and the method one of its raising
    accessors. *)
Lemma raising_behaviour_counterexample :
  (validateResponseAgainstSchema an_engine (petstore_with None) invalidResponse "Pet"
     default_options
   = Throw (Error "No definitions found in OpenAPI spec")
   /\ forall r : ValidationResult,
        validateResponseAgainstSchema an_engine (petstore_with None) invalidResponse "Pet"
          default_options
        <> Return r)
  /\ validateEndpointExists an_engine petstore "constructor" (Some "caller")
     = Throw TypeError.
Proof. split; [split; [reflexivity | intros r; discriminate] | reflexivity]. Qed.

(* ================================================================== *)
(** ** The required-field pass *)

Lemma length_append (a b : string) :
  String.length (a ++ b) = (String.length a + String.length b)%nat.
Proof. induction a as [| c a IH]; simpl; [reflexivity | rewrite IH; reflexivity]. Qed.

Lemma append_inj_l (p a b : string) : p ++ a = p ++ b -> a = b.
Proof.
  induction p as [| c p IH]; simpl; intros H; [exact H |].
  injection H as H; apply IH, H.
Qed.

Lemma append_inj_r (s a : string) : forall b, a ++ s = b ++ s -> a = b.
Proof.
  induction a as [| c a IH]; intros [| c' b] H; simpl in H.
  - reflexivity.
  - apply (f_equal String.length) in H; simpl in H; rewrite length_append in H; lia.
  - apply (f_equal String.length) in H; simpl in H; rewrite length_append in H; lia.
  - injection H as -> H; f_equal; apply IH, H.
Qed.

Lemma required_message_inj (a b : string) :
  required_message a = required_message b -> a = b.
Proof.
  unfold required_message; intros H.
  apply append_inj_l in H; apply append_inj_r in H; exact H.
Qed.

(** The pass emits one message for each occurrence of an absent name. *)
Lemma count_missing_required (engine : Engine) (response : value)
    (keys : list string) (f : string) :
  has_property engine response f = false ->
  count_occ string_dec (missing_required engine response keys) (required_message f)
  = count_occ string_dec keys f.
Proof.
  intros Hf; unfold missing_required.
  induction keys as [| n rest IH]; [reflexivity |].
  cbn [filter]. destruct (string_dec n f) as [-> | Hn].
  - rewrite Hf; cbn [negb map].
    rewrite !count_occ_cons_eq by reflexivity. rewrite IH; reflexivity.
  - rewrite (count_occ_cons_neq _ _ Hn).
    destruct (negb (has_property engine response n)); cbn [map]; [| exact IH].
    rewrite count_occ_cons_neq; [exact IH |].
    intros He; apply Hn, required_message_inj, He.
Qed.

Lemma checkRequired_messages (engine : Engine) (response : value)
    (strict : bool) (names : list value) :
  (forall k, js_in engine k response = Return (has_property engine response k)) ->
  forall keys,
    required_keys engine names = Return keys ->
    forall errs warns,
      checkRequired engine response strict names errs warns
      = Return ((errs ++ if strict then missing_required engine response keys
                         else [])%list,
                (warns ++ if strict then []
                          else missing_required engine response keys)%list).
Proof.
  intros Hin; unfold missing_required.
  induction names as [| n rest IH]; intros keys Hkeys errs warns;
    cbn [checkRequired required_keys] in *.
  - injection Hkeys as <-; destruct strict; cbn [filter map]; rewrite !app_nil_r;
      reflexivity.
  - destruct (ToString engine n) as [key | e |]; cbn [bind] in *; try discriminate.
    destruct (required_keys engine rest) as [keys' | e |]; cbn [bind] in *;
      try discriminate.
    injection Hkeys as <-; cbn [filter].
    rewrite Hin; cbn [bind].
    destruct (negb (has_property engine response key)).
    + destruct strict; rewrite (IH keys' eq_refl); unfold push, required_message;
        cbn [map]; rewrite <- app_assoc; reflexivity.
    + apply (IH keys' eq_refl).
Qed.

(** The per-property pass only appends to the two arrays. *)
Lemma checkProperties_appends (engine : Engine)
    (self : value -> string -> Options -> outcome ValidationResult)
    (response : value) (entries : list (string * value)) :
  forall errs warns,
    checkProperties engine self response entries errs warns
    = '(fieldErrs, fieldWarns) <-
        checkProperties engine self response entries [] [] ;;
      Return ((errs ++ fieldErrs)%list, (warns ++ fieldWarns)%list).
Proof.
  induction entries as [| [fieldName fieldSchema] rest IH]; intros errs warns;
    cbn [checkProperties].
  - cbn [bind]; rewrite !app_nil_r; reflexivity.
  - destruct (js_in engine fieldName response) as [[|] | e |]; cbn [bind];
      try reflexivity; [| apply IH].
    destruct (js_get engine response fieldName) as [fv | e |]; cbn [bind]; try reflexivity.
    destruct (validateFieldType_body engine self fieldName fv fieldSchema)
      as [vt | e |]; cbn [bind]; try reflexivity.
    rewrite (IH (push_all errs (errors vt))), (IH (push_all [] (errors vt))).
    destruct (checkProperties engine self response rest [] [])
      as [[fe fw] | e |]; cbn [bind]; try reflexivity.
    unfold push_all; cbn [app]; rewrite <- !app_assoc; reflexivity.
Qed.

(** What the checker does with a schema that is an object: the
    required-field pass, then the per-property pass, whose messages
    follow those of the first. *)
Lemma checker_equation (engine : Engine) (spec : OpenAPISpec)
    (defs : list (string * value)) (schemaName : string)
    (schema : list (string * value)) (response : value) (options : Options) :
  definitions spec = Some defs ->
  assoc schemaName defs = Some (JObject schema) ->
  validateResponseAgainstSchema engine spec response schemaName options
  = '(reqErrs, reqWarns) <-
      required_pass engine response (JObject schema) options ;;
    '(fieldErrs, fieldWarns) <-
      property_pass engine spec response (JObject schema) ;;
    Return {| valid := is_empty (reqErrs ++ fieldErrs)%list;
              errors := (reqErrs ++ fieldErrs)%list;
              warnings := (reqWarns ++ fieldWarns)%list |}.
Proof.
  intros Hd Hs.
  rewrite validateResponseAgainstSchema_eq.
  unfold validateResponseAgainstSchema_body, getSchema, definition_of,
    required_pass, property_pass.
  rewrite Hd, (field_own engine defs schemaName _ Hs); cbn [bind truthy negb].
  rewrite !js_get_object; cbn [bind].
  destruct (if Array_isArray (field engine (JObject schema) "required")
            then checkRequired engine response (strict_of options)
                   (elements_of (field engine (JObject schema) "required")) [] []
            else Return ([], [])) as [[reqErrs reqWarns] | e |]; cbn [bind];
    try reflexivity.
  destruct (truthy (field engine (JObject schema) "properties")).
  - rewrite checkProperties_appends.
    destruct (checkProperties _ _ _ _ [] []) as [[fe fw] | e |]; reflexivity.
  - cbn [bind]; rewrite !app_nil_r; reflexivity.
Qed.

Lemma checker_result_shape (engine : Engine) (spec : OpenAPISpec)
    (defs : list (string * value)) (schemaName : string)
    (schema : list (string * value)) (response : value) (options : Options)
    (r : ValidationResult) :
  definitions spec = Some defs ->
  assoc schemaName defs = Some (JObject schema) ->
  validateResponseAgainstSchema engine spec response schemaName options
  = Return r ->
  exists reqErrs reqWarns fieldErrs fieldWarns,
    required_pass engine response (JObject schema) options
    = Return (reqErrs, reqWarns)
    /\ property_pass engine spec response (JObject schema)
       = Return (fieldErrs, fieldWarns)
    /\ errors r = (reqErrs ++ fieldErrs)%list
    /\ warnings r = (reqWarns ++ fieldWarns)%list.
Proof.
  intros Hd Hs H.
  rewrite (checker_equation _ _ _ _ _ _ _ Hd Hs) in H.
  apply bind_Return in H as ([reqErrs reqWarns] & Hreq & H).
  apply bind_Return in H as ([fe fw] & Hfields & H).
  injection H as <-; exists reqErrs, reqWarns, fe, fw; auto.
Qed.

(** The required-field pass over an object or an array. *)
Lemma required_pass_messages (engine : Engine) (response : value)
    (schema : list (string * value)) (names : list value) (keys : list string)
    (options : Options) (k : string) (b : bool) :
  assoc "required" schema = Some (JArray names) ->
  required_keys engine names = Return keys ->
  js_in engine k response = Return b ->
  required_pass engine response (JObject schema) options
  = Return (if strict_of options
            then missing_required engine response keys else [],
            if strict_of options
            then [] else missing_required engine response keys).
Proof.
  intros Hreq Hkeys Hin; unfold required_pass.
  rewrite (field_own engine schema "required" _ Hreq); cbn [Array_isArray elements_of].
  rewrite (checkRequired_messages engine response _ names
             (js_in_has_property _ _ _ _ Hin) keys Hkeys).
  reflexivity.
Qed.

Lemma In_missing_required (engine : Engine) (response : value)
    (keys : list string) (f : string) :
  In f keys ->
  has_property engine response f = false ->
  In (required_message f) (missing_required engine response keys).
Proof.
  intros Hf Hhas; unfold missing_required.
  apply in_map, filter_In; split; [exact Hf | rewrite Hhas; reflexivity].
Qed.

(** C4, as the code has it.  For a schema whose [required] holds an
    entry of key [f] and an object or array response that has no member
    [f], own or inherited, the required-field pass emits the message for
    [f] once for each occurrence of [f] among the keys of [required]
    (once when it is listed once).  The messages of the pass go to
    [errors] when [strictRequired] is not [false] and to [warnings] when
    it is, ahead of what the per-property pass adds; the call returns
    when that pass does, with [valid] true exactly when [errors] is
    empty. *)
Theorem required_field_routing (engine : Engine) (spec : OpenAPISpec)
    (defs : list (string * value)) (schemaName : string)
    (schema : list (string * value)) (names : list value) (keys : list string)
    (response : value) (options : Options) (f : string) :
  definitions spec = Some defs ->
  assoc schemaName defs = Some (JObject schema) ->
  assoc "required" schema = Some (JArray names) ->
  required_keys engine names = Return keys ->
  In f keys ->
  js_in engine f response = Return false ->
  count_occ string_dec (missing_required engine response keys) (required_message f)
  = count_occ string_dec keys f
  /\ (1 <= count_occ string_dec keys f)%nat
  /\ validateResponseAgainstSchema engine spec response schemaName options
     = ('(fieldErrs, fieldWarns) <-
          property_pass engine spec response (JObject schema) ;;
        let errs :=
          ((if strict_of options
            then missing_required engine response keys else [])
           ++ fieldErrs)%list in
        Return {| valid := is_empty errs;
                  errors := errs;
                  warnings :=
                    ((if strict_of options
                      then [] else missing_required engine response keys)
                     ++ fieldWarns)%list |})
  /\ (strict_of options = false <-> strictRequired options = Some false)
  /\ (forall r,
        validateResponseAgainstSchema engine spec response schemaName options
        = Return r ->
        (valid r = true <-> errors r = [])).
Proof.
  intros Hd Hs Hreq Hkeys Hf Hin.
  assert (Hhas : has_property engine response f = false).
  { rewrite (js_in_has_property _ _ _ _ Hin f) in Hin; injection Hin as Hin; exact Hin. }
  split; [apply count_missing_required, Hhas |].
  split; [apply (count_occ_In string_dec), Hf |].
  split; [| split].
  - rewrite (checker_equation _ _ _ _ _ _ _ Hd Hs).
    rewrite (required_pass_messages _ _ _ _ _ _ _ _ Hreq Hkeys Hin); reflexivity.
  - unfold strict_of; destruct (strictRequired options) as [[|] |];
      split; intros E; try reflexivity; discriminate E.
  - intros r H; rewrite validateResponseAgainstSchema_eq in H.
    rewrite (validateResponseAgainstSchema_body_valid _ _ _ _ _ _ _ H).
    apply is_empty_iff.
Qed.

Lemma required_field_routing_witness :
  js_in an_engine "name" (JObject [("id", int 1)]) = Return false
  /\ count_occ string_dec
       (missing_required an_engine (JObject [("id", int 1)]) ["name"; "photoUrls"])
       (required_message "name") = 1%nat
  /\ validateResponseAgainstSchema an_engine petstore (JObject [("id", int 1)]) "Pet"
       {| strictRequired := Some false |}
     = Return {| valid := true;
                 errors := [];
                 warnings := [required_message "name"; required_message "photoUrls"] |}.
Proof.
  split; [reflexivity |].
  pose proof (required_field_routing an_engine petstore petstore_definitions
                "Pet" Pet_members [JString "name"; JString "photoUrls"]
                ["name"; "photoUrls"]
                (JObject [("id", int 1)]) {| strictRequired := Some false |} "name"
                eq_refl eq_refl eq_refl eq_refl (or_introl eq_refl) eq_refl) as H.
  split; [rewrite (proj1 H); reflexivity |].
  rewrite (proj1 (proj2 (proj2 H))); reflexivity.
Defined.

(** A value that is not an object lacks the field and gets no message:
    the call raises.  A field listed twice in [required] and absent from
    the response gets two messages.  A field that every object inherits
    is never missing. *)
Lemma required_field_routing_counterexample :
  validateResponseAgainstSchema an_engine petstore (JString "Rex") "Pet" default_options
  = Throw TypeError
  /\ (validateResponseAgainstSchema an_engine
        (petstore_with (Some [("Twice", Twice_schema)])) (JObject []) "Twice"
        default_options
      = Return {| valid := false;
                  errors := [required_message "name"; required_message "name"];
                  warnings := [] |}
      /\ count_occ string_dec [required_message "name"; required_message "name"]
           (required_message "name") = 2%nat)
  /\ validateResponseAgainstSchema an_engine
       (petstore_with (Some [("T", JObject [("required", JArray [JString "toString"])])]))
       (JObject []) "T" default_options
     = Return {| valid := true; errors := []; warnings := [] |}.
Proof. repeat split; reflexivity. Qed.

(* ================================================================== *)
(** ** The field-type check *)

Section Field_check.

Variable engine : Engine.
Variable self : value -> string -> Options -> outcome ValidationResult.

Lemma validateItem_appends (fieldName : string) (items item : value) (index : nat)
    (errs : list string) :
  validateItem engine self fieldName items item index errs
  = es <- validateItem engine self fieldName items item index [] ;;
    Return (errs ++ es)%list.
Proof.
  unfold validateItem.
  destruct (js_get engine items "$ref") as [r | e |]; cbn [bind]; try reflexivity.
  destruct (truthy r).
  - destruct (ref_name r) as [nm | e |]; cbn [bind]; try reflexivity.
    destruct (self item nm default_options) as [iv | e |]; cbn [bind]; reflexivity.
  - destruct (js_get engine items "type") as [t | e |]; cbn [bind]; try reflexivity.
    destruct (truthy t); [| cbn [bind]; rewrite app_nil_r; reflexivity].
    destruct (negb _); cbn [bind]; [| rewrite app_nil_r; reflexivity].
    destruct (ToString engine t); reflexivity.
Qed.

Lemma forEach_appends (fieldName : string) (items : value) (l : list value) :
  forall (index : nat) (errs : list string),
    forEach engine self fieldName items l index errs
    = es <- forEach engine self fieldName items l index [] ;;
      Return (errs ++ es)%list.
Proof.
  induction l as [| item rest IH]; intros index errs; cbn [forEach].
  - cbn [bind]; rewrite app_nil_r; reflexivity.
  - rewrite validateItem_appends.
    destruct (validateItem engine self fieldName items item index [])
      as [es | e |]; cbn [bind]; try reflexivity.
    rewrite (IH (S index) (errs ++ es)%list), (IH (S index) es).
    destruct (forEach engine self fieldName items rest (S index) [])
      as [es' | e |]; cbn [bind]; try reflexivity.
    rewrite <- app_assoc; reflexivity.
Qed.

(** An element checked against [items.type]. *)
Lemma validateItem_type (fieldName : string) (items item : value) (index : nat) :
  truthy items = true ->
  truthy (field engine items "$ref") = false ->
  truthy (field engine items "type") = true ->
  validateItem engine self fieldName items item index []
  = if strict_eq_string (field engine items "type") (getJsonType item) then Return []
    else expected <- ToString engine (field engine items "type") ;;
         Return [item_type_message fieldName index item expected].
Proof.
  intros Hitems Href Htype; unfold validateItem.
  rewrite !(fun k Hk => truthy_js_get engine items k Hitems Hk) by reflexivity.
  cbn [bind]; rewrite Href; cbn [bind]; rewrite Htype.
  destruct (strict_eq_string (field engine items "type") (getJsonType item));
    reflexivity.
Qed.

(** Elements checked against [items.type]. *)
Lemma forEach_types (fieldName : string) (items : value) (l : list value) :
  truthy items = true ->
  truthy (field engine items "$ref") = false ->
  truthy (field engine items "type") = true ->
  forall index,
    forEach engine self fieldName items l index []
    = item_type_pass engine fieldName (field engine items "type") l index.
Proof.
  intros Hitems Href Htype; unfold item_type_pass.
  induction l as [| item rest IH]; intros index; cbn [forEach forallb item_type_errors];
    [reflexivity |].
  rewrite (validateItem_type fieldName items item index Hitems Href Htype).
  destruct (strict_eq_string (field engine items "type") (getJsonType item));
    cbn [andb bind].
  - rewrite IH.
    destruct (forallb _ rest); [reflexivity |].
    destruct (ToString engine (field engine items "type")); reflexivity.
  - destruct (ToString engine (field engine items "type")) as [expected | e |] eqn:Hto;
      cbn [bind]; try reflexivity.
    rewrite forEach_appends, IH.
    destruct (forallb _ rest) eqn:Hall; cbn [bind].
    + assert (Hnone : forall start,
                 item_type_errors fieldName (field engine items "type") expected rest start
                 = []).
      { clear IH; induction rest as [| x rest' IHr]; intros start; [reflexivity |].
        cbn [forallb] in Hall; apply andb_prop in Hall as [Hx Hrest'].
        cbn [item_type_errors]; rewrite Hx, (IHr Hrest'); reflexivity. }
      rewrite Hnone; reflexivity.
    + reflexivity.
Qed.

(** Elements validated against [items.$ref]. *)
Lemma forEach_refs (fieldName : string) (items : value) (s : string)
    (l : list value) :
  truthy items = true ->
  field engine items "$ref" = JString s -> s <> EmptyString ->
  forall index es,
    forEach engine self fieldName items l index [] = Return es ->
    exists results,
      Forall2 (fun item r => self item (split_pop s) default_options = Return r)
              l results
      /\ es = item_ref_errors fieldName results index.
Proof.
  intros Hitems Href Hs.
  induction l as [| item rest IH]; intros index es H; cbn [forEach] in H.
  - injection H as <-; exists []; split; [constructor | reflexivity].
  - unfold validateItem in H.
    rewrite (truthy_js_get engine items "$ref" Hitems eq_refl), Href in H;
      cbn [bind] in H.
    rewrite (truthy_JString s Hs) in H; cbn [ref_name bind] in H.
    destruct (self item (split_pop s) default_options) as [iv | e |] eqn:Hiv;
      cbn [bind] in H; try discriminate.
    rewrite forEach_appends in H.
    destruct (forEach engine self fieldName items rest (S index) [])
      as [es' | e |] eqn:Hrest; cbn [bind] in H; try discriminate.
    injection H as <-.
    destruct (IH _ _ Hrest) as (results & Hall & ->).
    exists (iv :: results); split; [constructor; assumption | reflexivity].
Qed.

(** An [items.$ref] that is truthy and not a string. *)
Lemma forEach_bad_ref (fieldName : string) (items : value) (l : list value) :
  truthy items = true ->
  truthy (field engine items "$ref") = true ->
  (forall s, field engine items "$ref" <> JString s) ->
  l <> [] ->
  forall index errs, forEach engine self fieldName items l index errs = Throw TypeError.
Proof.
  intros Hitems Href Hnot Hl index errs.
  destruct l as [| item rest]; [contradiction Hl; reflexivity |].
  cbn [forEach]; unfold validateItem.
  rewrite (truthy_js_get engine items "$ref" Hitems eq_refl); cbn [bind].
  rewrite Href.
  destruct (field engine items "$ref") as [ | | b | n | s | l' | o | b'];
    try reflexivity.
  contradiction (Hnot s); reflexivity.
Qed.

(** The check of a field whose [$ref] branch does not return: the type
    check, then the enum check, then the array-items pass. *)
Lemma validateFieldType_typed (fieldName : string) (v fieldSchema ref : value) :
  js_get engine fieldSchema "$ref" = Return ref ->
  truthy ref = false \/ (exists s, ref = JString s /\ is_object v = false) ->
  truthy (field engine fieldSchema "type") = true ->
  validateFieldType_body engine self fieldName v fieldSchema
  = typeErrs <- type_errors engine fieldName v (field engine fieldSchema "type") ;;
    enumErrs <- enum_errors engine fieldName v (field engine fieldSchema "enum") ;;
    errs <-
      (if strict_eq_string (field engine fieldSchema "type") "array"
          && truthy (field engine fieldSchema "items") && Array_isArray v
       then forEach engine self fieldName (field engine fieldSchema "items")
              (elements_of v) 0 (typeErrs ++ enumErrs)%list
       else Return (typeErrs ++ enumErrs)%list) ;;
    Return (field_result errs).
Proof.
  intros Href Hno Htype.
  destruct (js_get_field _ _ _ _ Href) as [-> Hget].
  unfold validateFieldType_body.
  rewrite (Hget "$ref" eq_refl), (Hget "type" eq_refl), (Hget "enum" eq_refl),
    (Hget "items" eq_refl); cbn [bind].
  assert (Hearly :
            (if truthy (field engine fieldSchema "$ref")
             then refSchemaName <- ref_name (field engine fieldSchema "$ref") ;;
                  (if is_object v
                   then refValidation <- self v refSchemaName default_options ;;
                        Return (Some refValidation)
                   else Return None)
             else Return None) = Return None).
  { destruct Hno as [-> | (s & -> & ->)]; [reflexivity |].
    destruct (truthy (JString s)); reflexivity. }
  rewrite Hearly; cbn [bind]; rewrite Htype.
  unfold type_errors, enum_errors, type_message, enum_message, push.
  destruct (strict_eq_string (field engine fieldSchema "type") (getJsonType v));
    cbn [negb bind];
    [| destruct (ToString engine (field engine fieldSchema "type")) as [text | e |];
       cbn [bind app]; try reflexivity];
    (destruct (Array_isArray (field engine fieldSchema "enum")); cbn [bind app];
     [destruct (includes (elements_of (field engine fieldSchema "enum")) v);
      cbn [negb bind app];
      [| destruct (ToString engine v) as [shown | e |]; cbn [bind app];
         try reflexivity;
         destruct (Array_join engine (elements_of (field engine fieldSchema "enum")) ", ")
           as [listed | e |]; cbn [bind app]; try reflexivity] |]);
    destruct (strict_eq_string (field engine fieldSchema "type") "array"
              && truthy (field engine fieldSchema "items") && Array_isArray v);
    reflexivity.
Qed.

(** The [$ref] branch: the result of the nested call, made with the
    default options. *)
Lemma validateFieldType_ref (fieldName : string) (v fieldSchema : value) (s : string) :
  js_get engine fieldSchema "$ref" = Return (JString s) -> s <> EmptyString ->
  is_object v = true ->
  validateFieldType_body engine self fieldName v fieldSchema
  = self v (split_pop s) default_options.
Proof.
  intros Href Hs Hobj.
  unfold validateFieldType_body; rewrite Href; cbn [bind].
  rewrite (truthy_JString s Hs); cbn [ref_name bind]; rewrite Hobj.
  destruct (self v (split_pop s) default_options); reflexivity.
Qed.

(** A [$ref] that is truthy and not a string. *)
Lemma validateFieldType_bad_ref (fieldName : string) (v fieldSchema ref : value) :
  js_get engine fieldSchema "$ref" = Return ref ->
  truthy ref = true -> (forall s, ref <> JString s) ->
  validateFieldType_body engine self fieldName v fieldSchema = Throw TypeError.
Proof.
  intros Href Htruthy Hnot.
  unfold validateFieldType_body; rewrite Href; cbn [bind]; rewrite Htruthy.
  destruct ref as [ | | b | n | s | l' | o | b']; try reflexivity.
  contradiction (Hnot s); reflexivity.
Qed.

End Field_check.

(* ================================================================== *)
(** ** Runtime types and the type check *)

Lemma Number_isInteger_spec (n : Q) :
  Number_isInteger n = true <-> exists z, n == inject_Z z.
Proof.
  unfold Number_isInteger; rewrite Z.eqb_eq; split.
  - intros H; exists (Qnum n / Zpos (Qden n))%Z.
    unfold Qeq; simpl.
    rewrite Z.mul_1_r, Z.mul_comm; apply Z.div_exact; [discriminate | exact H].
  - intros (z & Hz); unfold Qeq in Hz; simpl in Hz.
    rewrite Z.mul_1_r in Hz; rewrite Hz; apply Z.mod_mul; discriminate.
Qed.

Lemma getJsonType_array (v : value) : Array_isArray v = true -> getJsonType v = "array".
Proof. destruct v as [ | | b | n | s | l | o | [ | | f]]; try discriminate; reflexivity. Qed.

(** A mismatch of the declared type leaves the array-items pass out:
    it runs for the declared type [array] on arrays. *)
Lemma mismatch_skips_items (type items v : value) :
  strict_eq_string type (getJsonType v) = false ->
  strict_eq_string type "array" && truthy items && Array_isArray v = false.
Proof.
  intros Hmis; destruct (Array_isArray v) eqn:Harr; [| apply andb_false_r].
  rewrite (getJsonType_array v Harr) in Hmis; rewrite Hmis; reflexivity.
Qed.

(** C6, as the code has it.  [getJsonType] gives [null] for [null],
    [array] for every array, [integer] for a number without fractional
    part and [number] for any other number.  For a field whose [$ref]
    branch does not return (no truthy [$ref], or a [$ref] that is a
    string and a value that is not an object or an array) and whose
    declared type differs from the runtime type of the value, the check
    returns with the mismatch message first, followed only by what the
    enum check emits; it raises when the declared type, or what the enum
    check has to print, has no text.  A [$ref] that is truthy and not a
    string makes the check raise. *)
Theorem type_check_message (engine : Engine) (spec : OpenAPISpec)
    (fieldName : string) (v fieldSchema ref : value) :
  getJsonType JNull = "null"
  /\ (forall l, getJsonType (JArray l) = "array")
  /\ (forall n, (exists z, n == inject_Z z) -> getJsonType (JNumber n) = "integer")
  /\ (forall n, ~ (exists z, n == inject_Z z) -> getJsonType (JNumber n) = "number")
  /\ (js_get engine fieldSchema "$ref" = Return ref ->
      truthy ref = false \/ (exists s, ref = JString s /\ is_object v = false) ->
      truthy (field engine fieldSchema "type") = true ->
      strict_eq_string (field engine fieldSchema "type") (getJsonType v) = false ->
      validateFieldType engine spec fieldName v fieldSchema
      = (expected <- ToString engine (field engine fieldSchema "type") ;;
         enumErrs <- enum_errors engine fieldName v (field engine fieldSchema "enum") ;;
         Return {| valid := false;
                   errors := type_message engine fieldName v expected :: enumErrs;
                   warnings := [] |}))
  /\ (js_get engine fieldSchema "$ref" = Return ref ->
      truthy ref = true -> (forall s, ref <> JString s) ->
      validateFieldType engine spec fieldName v fieldSchema = Throw TypeError).
Proof.
  split; [reflexivity |]. split; [reflexivity |].
  split; [| split; [| split]].
  - intros n Hn; apply Number_isInteger_spec in Hn; simpl; rewrite Hn; reflexivity.
  - intros n Hn; simpl.
    destruct (Number_isInteger n) eqn:E; [| reflexivity].
    contradiction Hn; apply Number_isInteger_spec, E.
  - intros Href Hno Htype Hmis.
    unfold validateFieldType.
    rewrite (validateFieldType_typed _ _ _ _ _ _ Href Hno Htype).
    rewrite (mismatch_skips_items _ _ _ Hmis).
    unfold type_errors; rewrite Hmis.
    destruct (ToString engine (field engine fieldSchema "type")) as [expected | e |];
      reflexivity.
  - intros Href Htruthy Hnot; unfold validateFieldType.
    apply (validateFieldType_bad_ref engine _ fieldName v fieldSchema ref Href Htruthy Hnot).
Qed.

Lemma type_check_message_witness :
  js_get an_engine (JObject [("type", JString "integer")]) "$ref" = Return JUndefined
  /\ validateFieldType an_engine petstore "id" (JString "not-a-number")
       (JObject [("type", JString "integer")])
     = Return {| valid := false;
                 errors := ["Field 'id' has type 'string' but schema expects 'integer' (value: "
                              ++ quote_json "not-a-number" ++ ")"];
                 warnings := [] |}.
Proof.
  split; [reflexivity |].
  rewrite (proj1 (proj2 (proj2 (proj2 (proj2
             (type_check_message an_engine petstore "id" (JString "not-a-number")
                (JObject [("type", JString "integer")]) JUndefined)))))
             eq_refl (or_introl eq_refl) eq_refl eq_refl).
  reflexivity.
Defined.

(** A field schema with a [$ref] and a declared type [string], and an
    object value: the types differ and no message is emitted. *)
Lemma type_check_message_counterexample :
  truthy (field an_engine ref_and_type "type") = true
  /\ strict_eq_string (field an_engine ref_and_type "type")
       (getJsonType (JObject [("id", int 1)]))
     = false
  /\ validateFieldType an_engine petstore "category" (JObject [("id", int 1)]) ref_and_type
     = Return {| valid := true; errors := []; warnings := [] |}.
Proof. repeat split; reflexivity. Qed.

(* ================================================================== *)
(** ** The enum check *)

Lemma join_strings (engine : Engine) (names : list string) (sep : string) :
  Array_join engine (map JString names) sep = Return (String.concat sep names).
Proof.
  unfold Array_join, join.
  assert (Hall : forallb convertible (map JString names) = true)
    by (induction names as [| n rest IH]; [reflexivity | exact IH]).
  rewrite Hall, map_map; cbn [js_toString].
  rewrite map_id; reflexivity.
Qed.

(** C7, as the code has it.  The enum check is made under a declared
    type only: without one the field check is its [$ref] branch or the
    empty result.  Under a declared type it is made when the [$ref]
    branch does not return (no truthy [$ref], or a [$ref] that is a
    string and a value that is not an object or an array), whether or not
    the type check passed: a value outside the enum gets the enum message
    next after what the type check emitted, and only messages of the
    array-items pass follow.  When the [$ref] branch returns, the result
    is that of the nested call and no enum check is made.  The message
    lists the allowed values as [join(', ')] renders them, which for
    strings is their text. *)
Theorem enum_check (engine : Engine) (spec : OpenAPISpec)
    (fieldName : string) (v fieldSchema ref : value) :
  js_get engine fieldSchema "$ref" = Return ref ->
  (truthy (field engine fieldSchema "type") = false ->
   validateFieldType engine spec fieldName v fieldSchema
   = if truthy ref then
       refSchemaName <- ref_name ref ;;
       if is_object v
       then validateResponseAgainstSchema engine spec v refSchemaName
              default_options
       else Return (field_result [])
     else Return (field_result []))
  /\ (truthy (field engine fieldSchema "type") = true ->
      truthy ref = false \/ (exists s, ref = JString s /\ is_object v = false) ->
      forall allowed,
        field engine fieldSchema "enum" = JArray allowed -> includes allowed v = false ->
        (forall r,
           validateFieldType engine spec fieldName v fieldSchema = Return r ->
           exists typeErrs shown listed itemErrs,
             type_errors engine fieldName v (field engine fieldSchema "type")
             = Return typeErrs
             /\ ToString engine v = Return shown
             /\ Array_join engine allowed ", " = Return listed
             /\ errors r
                = (typeErrs ++ enum_message fieldName shown listed :: itemErrs)%list)
        /\ (Array_isArray v = false ->
            validateFieldType engine spec fieldName v fieldSchema
            = (typeErrs <- type_errors engine fieldName v
                             (field engine fieldSchema "type") ;;
               shown <- ToString engine v ;;
               listed <- Array_join engine allowed ", " ;;
               Return (field_result
                         (typeErrs ++ [enum_message fieldName shown listed])%list))))
  /\ (forall s, ref = JString s -> s <> EmptyString -> is_object v = true ->
      validateFieldType engine spec fieldName v fieldSchema
      = validateResponseAgainstSchema engine spec v (split_pop s) default_options)
  /\ (forall names,
        Array_join engine (map JString names) ", " = Return (String.concat ", " names)).
Proof.
  intros Href; split; [| split; [| split]].
  - intros Htype.
    destruct (js_get_field _ _ _ _ Href) as [-> Hget].
    unfold validateFieldType, validateFieldType_body.
    rewrite (Hget "$ref" eq_refl), (Hget "type" eq_refl); cbn [bind].
    destruct (truthy (field engine fieldSchema "$ref")).
    + destruct (ref_name (field engine fieldSchema "$ref")) as [nm | e |]; cbn [bind];
        try reflexivity.
      destruct (is_object v); cbn [bind]; [| rewrite Htype; reflexivity].
      destruct (validateResponseAgainstSchema engine spec v nm default_options);
        reflexivity.
    + cbn [bind]; rewrite Htype; reflexivity.
  - intros Htype Hno allowed Henum Hout.
    unfold validateFieldType.
    rewrite (validateFieldType_typed _ _ _ _ _ _ Href Hno Htype).
    unfold enum_errors; rewrite Henum; cbn [Array_isArray elements_of]; rewrite Hout.
    split.
    + intros r H.
      apply bind_Return in H as (typeErrs & Htypes & H).
      apply bind_Return in H as (enumErrs & Henums & H).
      apply bind_Return in Henums as (shown & Hshown & Henums).
      apply bind_Return in Henums as (listed & Hlisted & Henums).
      injection Henums as <-.
      apply bind_Return in H as (errs & H & Hr).
      injection Hr as <-; cbn [errors field_result].
      exists typeErrs, shown, listed.
      destruct (_ && _).
      * rewrite forEach_appends in H.
        apply bind_Return in H as (es & _ & H); injection H as <-.
        exists es; rewrite <- app_assoc; auto.
      * injection H as <-; exists []; auto.
    + intros Harr; rewrite Harr, andb_false_r.
      destruct (type_errors engine fieldName v (field engine fieldSchema "type"))
        as [typeErrs | e |]; cbn [bind]; try reflexivity.
      destruct (ToString engine v) as [shown | e |]; cbn [bind]; try reflexivity.
      destruct (Array_join engine allowed ", "); reflexivity.
  - intros s -> Hs Hobj; unfold validateFieldType.
    apply (validateFieldType_ref engine _ fieldName v fieldSchema s Href Hs Hobj).
  - intros names; apply join_strings.
Qed.

Lemma enum_check_witness :
  js_get an_engine status_schema "$ref" = Return JUndefined
  /\ validateFieldType an_engine petstore "status" (JString "invalid-status") status_schema
     = Return (field_result
                 ["Field 'status' has value 'invalid-status' which is not in allowed enum values: [available, pending, sold]"]).
Proof.
  split; [reflexivity |].
  rewrite (proj2 (proj1 (proj2 (enum_check an_engine petstore "status"
                                  (JString "invalid-status") status_schema JUndefined
                                  eq_refl))
                   eq_refl (or_introl eq_refl)
                   [JString "available"; JString "pending"; JString "sold"]
                   eq_refl eq_refl) eq_refl).
  reflexivity.
Defined.

(** A field schema with a [$ref], a declared type and an enum, and an
    object value outside the enum: the [$ref] branch returns and no enum
    message is emitted. *)
Lemma enum_check_counterexample :
  truthy (field an_engine ref_and_enum "type") = true
  /\ field an_engine ref_and_enum "enum" = JArray [JString "available"]
  /\ includes [JString "available"] (JObject [("id", int 1)]) = false
  /\ validateFieldType an_engine petstore "category" (JObject [("id", int 1)]) ref_and_enum
     = Return {| valid := true; errors := []; warnings := [] |}.
Proof. repeat split; reflexivity. Qed.

(* ================================================================== *)
(** ** The array-items pass *)

(** The check of an array against a field schema of type [array] with
    [items], the field having no truthy [$ref] of its own. *)
Lemma validateFieldType_array (engine : Engine)
    (self : value -> string -> Options -> outcome ValidationResult)
    (fieldName : string) (fieldSchema ref : value) (elements : list value) :
  js_get engine fieldSchema "$ref" = Return ref ->
  truthy ref = false ->
  field engine fieldSchema "type" = JString "array" ->
  truthy (field engine fieldSchema "items") = true ->
  validateFieldType_body engine self fieldName (JArray elements) fieldSchema
  = enumErrs <- enum_errors engine fieldName (JArray elements)
                  (field engine fieldSchema "enum") ;;
    es <- forEach engine self fieldName (field engine fieldSchema "items")
            elements 0 [] ;;
    Return (field_result (enumErrs ++ es)%list).
Proof.
  intros Href Hno Htype Hitems.
  rewrite (validateFieldType_typed _ _ _ _ _ _ Href (or_introl Hno));
    [| rewrite Htype; reflexivity].
  rewrite Htype, Hitems.
  unfold type_errors; cbn [strict_eq_string getJsonType Array_isArray String.eqb
                             Ascii.eqb Bool.eqb andb app bind elements_of].
  destruct (enum_errors engine fieldName (JArray elements)
              (field engine fieldSchema "enum")) as [enumErrs | e |]; cbn [bind];
    try reflexivity.
  rewrite forEach_appends.
  destruct (forEach engine self fieldName (field engine fieldSchema "items")
              elements 0 []); reflexivity.
Qed.

(** C5, as the code has it.  For a field without a truthy [$ref] of its
    own, declared of type [array], with [items] declared, and an array
    value: when [items.$ref] is a non-empty string, every element is
    validated against the definition it names, with the default options,
    and the field's errors are what the enum check emits followed by each
    element's errors prefixed with the field name and the index; when
    [items.$ref] is falsy and [items] has a type, they are followed by one
    message for each element whose runtime type differs from it; when
    [items.$ref] is truthy and not a string, the check raises as soon as
    the array has an element. *)
Theorem array_items_check (engine : Engine) (spec : OpenAPISpec)
    (fieldName : string) (fieldSchema ref : value) (elements : list value) :
  js_get engine fieldSchema "$ref" = Return ref ->
  truthy ref = false ->
  field engine fieldSchema "type" = JString "array" ->
  truthy (field engine fieldSchema "items") = true ->
  (forall s r,
     field engine (field engine fieldSchema "items") "$ref" = JString s ->
     s <> EmptyString ->
     validateFieldType engine spec fieldName (JArray elements) fieldSchema
     = Return r ->
     exists enumErrs results,
       enum_errors engine fieldName (JArray elements) (field engine fieldSchema "enum")
       = Return enumErrs
       /\ Forall2 (fun item result =>
                     validateResponseAgainstSchema engine spec item (split_pop s)
                       default_options = Return result)
                  elements results
       /\ errors r = (enumErrs ++ item_ref_errors fieldName results 0)%list)
  /\ (truthy (field engine (field engine fieldSchema "items") "$ref") = false ->
      truthy (field engine (field engine fieldSchema "items") "type") = true ->
      validateFieldType engine spec fieldName (JArray elements) fieldSchema
      = (enumErrs <- enum_errors engine fieldName (JArray elements)
                       (field engine fieldSchema "enum") ;;
         itemErrs <- item_type_pass engine fieldName
                       (field engine (field engine fieldSchema "items") "type")
                       elements 0 ;;
         Return (field_result (enumErrs ++ itemErrs)%list)))
  /\ (truthy (field engine (field engine fieldSchema "items") "$ref") = true ->
      (forall s, field engine (field engine fieldSchema "items") "$ref" <> JString s) ->
      elements <> [] ->
      validateFieldType engine spec fieldName (JArray elements) fieldSchema
      = (enumErrs <- enum_errors engine fieldName (JArray elements)
                       (field engine fieldSchema "enum") ;;
         Throw TypeError)).
Proof.
  intros Href Hno Htype Hitems.
  pose proof (validateFieldType_array engine
                (validateResponseAgainstSchema engine spec)
                fieldName fieldSchema ref elements Href Hno Htype Hitems) as Heq.
  fold (validateFieldType engine spec fieldName (JArray elements) fieldSchema)
    in Heq.
  split; [| split].
  - intros s r Hs Hne H; rewrite Heq in H.
    apply bind_Return in H as (enumErrs & Henum & H).
    apply bind_Return in H as (es & H & Hr); injection Hr as <-.
    destruct (forEach_refs engine _ fieldName _ s elements Hitems Hs Hne 0 es H)
      as (results & Hall & ->).
    exists enumErrs, results; auto.
  - intros Hr Ht; rewrite Heq.
    rewrite (forEach_types engine _ fieldName _ elements Hitems Hr Ht).
    reflexivity.
  - intros Hr Hnot Hne; rewrite Heq.
    rewrite (forEach_bad_ref engine _ fieldName _ elements Hitems Hr Hnot Hne).
    reflexivity.
Qed.

Lemma array_items_check_witness :
  js_get an_engine tags_schema "$ref" = Return JUndefined
  /\ validateFieldType an_engine petstore "tags" (JArray [JObject [("id", int 1)]])
       tags_schema
     = Return (field_result ["tags[0]: Required field 'name' is missing from response"])
  /\ exists enumErrs results,
       enum_errors an_engine "tags" (JArray [JObject [("id", int 1)]])
         (field an_engine tags_schema "enum") = Return enumErrs
       /\ Forall2 (fun item result =>
                     validateResponseAgainstSchema an_engine petstore item
                       (split_pop "#/definitions/Tag") default_options = Return result)
                  [JObject [("id", int 1)]] results
       /\ ["tags[0]: Required field 'name' is missing from response"]
          = (enumErrs ++ item_ref_errors "tags" results 0)%list.
Proof.
  split; [reflexivity |]. split; [reflexivity |].
  apply (proj1 (array_items_check an_engine petstore "tags" tags_schema JUndefined
                  [JObject [("id", int 1)]] eq_refl eq_refl eq_refl eq_refl)
               "#/definitions/Tag"
               (field_result ["tags[0]: Required field 'name' is missing from response"])).
  - reflexivity.
  - discriminate.
  - reflexivity.
Defined.

(** A field schema with a [$ref], the type [array] and [items] of type
    [string], and the array [[1]]: the element is not checked. *)
Lemma array_items_check_counterexample :
  field an_engine ref_and_items "type" = JString "array"
  /\ truthy (field an_engine ref_and_items "items") = true
  /\ item_type_pass an_engine "photoUrls"
       (field an_engine (field an_engine ref_and_items "items") "type") [int 1] 0
     = Return ["photoUrls[0] has type 'integer' but schema expects 'string'"]
  /\ validateFieldType an_engine petstore "photoUrls" (JArray [int 1]) ref_and_items
     = Return {| valid := true; errors := []; warnings := [] |}.
Proof. repeat split; reflexivity. Qed.

(* ================================================================== *)
(** ** Options in the nested calls *)

Lemma checkProperties_In (engine : Engine)
    (self : value -> string -> Options -> outcome ValidationResult)
    (response : value) (fieldName : string) (fieldSchema fieldValue : value)
    (entries : list (string * value)) :
  In (fieldName, fieldSchema) entries ->
  js_in engine fieldName response = Return true ->
  js_get engine response fieldName = Return fieldValue ->
  forall fieldErrs fieldWarns,
    checkProperties engine self response entries [] []
    = Return (fieldErrs, fieldWarns) ->
    exists r,
      validateFieldType_body engine self fieldName fieldValue fieldSchema
      = Return r
      /\ incl (errors r) fieldErrs.
Proof.
  intros Hin Hpresent Hget.
  induction entries as [| [k s] rest IH]; intros fe fw H; [contradiction |].
  cbn [checkProperties] in H.
  apply bind_Return in H as (present & Hp & H).
  destruct Hin as [Heq | Hin].
  - injection Heq as -> ->.
    rewrite Hpresent in Hp; injection Hp as <-.
    rewrite Hget in H; cbn [bind] in H.
    apply bind_Return in H as (vt & Hvt & H).
    exists vt; split; [exact Hvt |].
    rewrite checkProperties_appends in H.
    apply bind_Return in H as ([fe' fw'] & _ & H); injection H as <- <-.
    unfold push_all; cbn [app]; apply incl_appl, incl_refl.
  - destruct present.
    + apply bind_Return in H as (fv & _ & H).
      apply bind_Return in H as (vt & _ & H).
      rewrite checkProperties_appends in H.
      apply bind_Return in H as ([fe' fw'] & Hrest & H); injection H as <- <-.
      destruct (IH Hin _ _ Hrest) as (r & Hr & Hincl).
      exists r; split; [exact Hr | apply incl_appr, Hincl].
    + apply (IH Hin _ _ H).
Qed.

Lemma item_ref_errors_In (fieldName : string) (results : list ValidationResult) :
  forall (start i : nat) (r : ValidationResult) (err : string),
    nth_error results i = Some r -> In err (errors r) ->
    In (item_prefix fieldName (start + i) err) (item_ref_errors fieldName results start).
Proof.
  induction results as [| r0 rest IH]; intros start i r err Hnth Herr.
  - destruct i; discriminate.
  - cbn [item_ref_errors]; apply in_or_app.
    destruct i as [| i]; simpl in Hnth.
    + injection Hnth as ->; left; rewrite Nat.add_0_r; apply in_map, Herr.
    + right; rewrite <- Nat.add_succ_comm; apply (IH (S start) i r err Hnth Herr).
Qed.

Lemma Forall2_nth_error {A B : Type} (R : A -> B -> Prop) (l : list A) (l' : list B) :
  Forall2 R l l' ->
  forall i a, nth_error l i = Some a -> exists b, nth_error l' i = Some b /\ R a b.
Proof.
  induction 1 as [| x y l l' Hxy _ IH]; intros i a Hnth.
  - destruct i; discriminate.
  - destruct i as [| i]; simpl in *.
    + injection Hnth as <-; exists y; auto.
    + apply IH, Hnth.
Qed.

(** A required-field pass that returns has converted every entry of
    [required] to its key. *)
Lemma checkRequired_keys (engine : Engine) (response : value) (strict : bool)
    (names : list value) :
  forall errs warns result,
    checkRequired engine response strict names errs warns = Return result ->
    required_keys engine names = Return (map (js_toString engine) names).
Proof.
  induction names as [| n rest IH]; intros errs warns result H;
    cbn [checkRequired required_keys map] in *; [reflexivity |].
  unfold ToString in *.
  destruct (convertible n); cbn [bind] in *; [| discriminate H].
  apply bind_Return in H as (present & _ & H).
  assert (Hrest : required_keys engine rest = Return (map (js_toString engine) rest)).
  { destruct (negb present); [destruct strict |]; apply (IH _ _ _ H). }
  rewrite Hrest; reflexivity.
Qed.

(** A nested call, made with the default options, reports an absent
    required field as an error. *)
Lemma nested_required_error (engine : Engine) (spec : OpenAPISpec)
    (defs : list (string * value)) (target : string)
    (schema : list (string * value)) (names : list value) (nested : value)
    (f : string) (r : ValidationResult) :
  definitions spec = Some defs ->
  assoc target defs = Some (JObject schema) ->
  assoc "required" schema = Some (JArray names) ->
  In f (map (js_toString engine) names) ->
  js_in engine f nested = Return false ->
  validateResponseAgainstSchema engine spec nested target default_options
  = Return r ->
  In (required_message f) (errors r).
Proof.
  intros Hd Hs Hreq Hf Hin H.
  destruct (checker_result_shape _ _ _ _ _ _ _ _ Hd Hs H)
    as (reqErrs & reqWarns & fe & fw & Hr & _ & He & _).
  assert (Hkeys : required_keys engine names = Return (map (js_toString engine) names)).
  { unfold required_pass in Hr.
    rewrite (field_own engine schema "required" _ Hreq) in Hr.
    apply (checkRequired_keys _ _ _ _ _ _ _ Hr). }
  rewrite (required_pass_messages _ _ _ _ _ _ _ _ Hreq Hkeys Hin) in Hr.
  injection Hr as <- _; rewrite He; apply in_or_app; left.
  apply In_missing_required; [exact Hf |].
  rewrite (js_in_has_property _ _ _ _ Hin f) in Hin; injection Hin as Hin; exact Hin.
Qed.

(** C10. [validateFieldType] takes no options, and its nested calls are
    made with the default ones, under which the required-field pass is
    strict.  So whatever the options of the outer call, [strictRequired:
    false] included, a required field absent from an object reached
    through a field's [$ref] is reported in [errors], and one absent from
    an array element reached through [items.$ref] is reported in [errors]
    under the element's prefix; the outer result is not valid. *)
Theorem strictRequired_not_propagated (engine : Engine)
    (spec : OpenAPISpec) (defs : list (string * value)) (schemaName : string)
    (schema : list (string * value)) (properties : value) (fieldName : string)
    (fieldSchema : value) (target : string) (tschema : list (string * value))
    (names : list value) (f : string) (response : value) (options : Options)
    (r : ValidationResult) :
  definitions spec = Some defs ->
  assoc schemaName defs = Some (JObject schema) ->
  assoc "properties" schema = Some properties ->
  truthy properties = true ->
  In (fieldName, fieldSchema) (Object_entries engine properties) ->
  assoc target defs = Some (JObject tschema) ->
  assoc "required" tschema = Some (JArray names) ->
  In f (map (js_toString engine) names) ->
  js_in engine fieldName response = Return true ->
  validateResponseAgainstSchema engine spec response schemaName options
  = Return r ->
  strict_of default_options = true
  /\ (forall s nested,
        js_get engine fieldSchema "$ref" = Return (JString s) -> s <> EmptyString ->
        split_pop s = target ->
        js_get engine response fieldName = Return nested ->
        is_object nested = true ->
        js_in engine f nested = Return false ->
        validateFieldType engine spec fieldName nested fieldSchema
        = validateResponseAgainstSchema engine spec nested target
            default_options
        /\ In (required_message f) (errors r)
        /\ valid r = false)
  /\ (forall ref s elements i item,
        js_get engine fieldSchema "$ref" = Return ref -> truthy ref = false ->
        field engine fieldSchema "type" = JString "array" ->
        truthy (field engine fieldSchema "items") = true ->
        field engine (field engine fieldSchema "items") "$ref" = JString s ->
        s <> EmptyString ->
        split_pop s = target ->
        js_get engine response fieldName = Return (JArray elements) ->
        nth_error elements i = Some item ->
        js_in engine f item = Return false ->
        In (item_prefix fieldName i (required_message f)) (errors r)
        /\ valid r = false).
Proof.
  intros Hd Hs Hprops Htruthy Hentry Ht Hreq Hf Hpresent H.
  assert (Hvalid : forall err, In err (errors r) -> valid r = false).
  { intros err Herr.
    rewrite validateResponseAgainstSchema_eq in H.
    rewrite (validateResponseAgainstSchema_body_valid _ _ _ _ _ _ _ H).
    destruct (errors r); [contradiction | reflexivity]. }
  destruct (checker_result_shape _ _ _ _ _ _ _ _ Hd Hs H)
    as (reqErrs & reqWarns & fe & fw & _ & Hfields & He & _).
  unfold property_pass in Hfields.
  rewrite (field_own engine schema "properties" _ Hprops), Htruthy in Hfields.
  split; [reflexivity |]. split.
  - intros s nested Href Hne Htarget Hget Hobj Hin.
    destruct (checkProperties_In _ _ _ _ _ _ _ Hentry Hpresent Hget _ _ Hfields)
      as (r' & Hr' & Hincl).
    rewrite (validateFieldType_ref _ _ _ _ _ _ Href Hne Hobj), Htarget in Hr'.
    assert (Herr : In (required_message f) (errors r)).
    { rewrite He; apply in_or_app; right; apply Hincl.
      apply (nested_required_error _ _ _ _ _ _ _ _ _ Hd Ht Hreq Hf Hin Hr'). }
    split; [| split; [exact Herr | apply (Hvalid _ Herr)]].
    unfold validateFieldType.
    rewrite (validateFieldType_ref _ _ _ _ _ _ Href Hne Hobj), Htarget; reflexivity.
  - intros ref s elements i item Href Hno Htype Hitems Hs' Hne Htarget Hget Hnth Hin.
    destruct (checkProperties_In _ _ _ _ _ _ _ Hentry Hpresent Hget _ _ Hfields)
      as (r' & Hr' & Hincl).
    rewrite (validateFieldType_array _ _ _ _ _ _ Href Hno Htype Hitems) in Hr'.
    apply bind_Return in Hr' as (enumErrs & _ & Hr').
    apply bind_Return in Hr' as (es & Hes & Hres); injection Hres as <-.
    destruct (forEach_refs _ _ _ _ _ _ Hitems Hs' Hne _ _ Hes) as (results & Hall & ->).
    destruct (Forall2_nth_error _ _ _ Hall _ _ Hnth) as (ri & Hri & Hcall).
    rewrite Htarget in Hcall.
    assert (Herr : In (item_prefix fieldName i (required_message f)) (errors r)).
    { rewrite He; apply in_or_app; right; apply Hincl.
      cbn [errors field_result]; apply in_or_app; right.
      apply (item_ref_errors_In fieldName results 0 i ri _ Hri).
      apply (nested_required_error _ _ _ _ _ _ _ _ _ Hd Ht Hreq Hf Hin Hcall). }
    split; [exact Herr | apply (Hvalid _ Herr)].
Qed.

Lemma strictRequired_not_propagated_witness :
  validateResponseAgainstSchema an_engine petstore nameless_tag_response "Pet"
    {| strictRequired := Some false |}
  = Return nameless_tag_result
  /\ In (item_prefix "tags" 0 (required_message "name")) (errors nameless_tag_result)
  /\ valid nameless_tag_result = false.
Proof.
  split; [reflexivity |].
  apply (proj2 (proj2
           (strictRequired_not_propagated an_engine petstore petstore_definitions
              "Pet" Pet_members (JObject Pet_properties) "tags" tags_schema
              "Tag" Tag_members [JString "name"] "name" nameless_tag_response
              {| strictRequired := Some false |} nameless_tag_result
              eq_refl eq_refl eq_refl eq_refl
              (or_intror (or_intror (or_intror (or_intror (or_introl eq_refl)))))
              eq_refl eq_refl (or_introl eq_refl) eq_refl eq_refl))
         JUndefined "#/definitions/Tag" [JObject [("id", int 1)]] 0%nat
         (JObject [("id", int 1)])).
  - reflexivity.
  - reflexivity.
  - reflexivity.
  - reflexivity.
  - reflexivity.
  - discriminate.
  - reflexivity.
  - reflexivity.
  - reflexivity.
  - reflexivity.
Defined.

(* ================================================================== *)
(** ** The embedding on the documents of the tests and of the guide *)

Example guide_error_output :
  validateResponseAgainstSchema an_engine petstore invalidResponse "Pet" default_options
  = Return invalidResponse_result.
Proof. reflexivity. Qed.

Example valid_pet :
  validateResponseAgainstSchema an_engine petstore
    (JObject [("id", int 12345);
              ("category", JObject [("id", int 1); ("name", JString "Dogs")]);
              ("name", JString "Fluffy");
              ("photoUrls", JArray [JString "https://example.com/photo1.jpg"]);
              ("tags", JArray [JObject [("id", int 1); ("name", JString "friendly")]]);
              ("status", JString "pending")])
    "Pet" default_options
  = Return {| valid := true; errors := []; warnings := [] |}.
Proof. reflexivity. Qed.

Example required_endpoints :
  validateEndpointExists an_engine petstore "/pet" (Some "post")
  = Return {| valid := true; errors := []; warnings := [] |}
  /\ validateEndpointExists an_engine petstore "/pet/findByStatus" None
     = Return {| valid := true; errors := []; warnings := [] |}
  /\ validateEndpointExists an_engine petstore "/pet" (Some "patch")
     = Return {| valid := false;
                 errors := ["Method 'PATCH' not found for endpoint '/pet'"];
                 warnings := [] |}.
Proof. repeat split; reflexivity. Qed.

Example required_schemas :
  validateSchemaExists an_engine petstore "Pet"
  = Return {| valid := true; errors := []; warnings := [] |}
  /\ validateSchemaExists an_engine (petstore_with None) "Pet"
     = Return {| valid := false;
                 errors := ["Schema 'Pet' not found in OpenAPI spec definitions"];
                 warnings := [] |}
  /\ getSchemaNames petstore = ["Category"; "Tag"; "Pet"]
  /\ getEndpointPaths petstore = ["/pet"; "/pet/{petId}"; "/pet/findByStatus"].
Proof. repeat split; reflexivity. Qed.

Example primitive_element_throws :
  validateResponseAgainstSchema an_engine petstore
    (JObject [("tags", JArray [int 1])]) "Pet" default_options
  = Throw TypeError.
Proof. reflexivity. Qed.

(** Members that every object inherits are found by the lookups of the
    validator: the name of one passes for a schema, for a method and for
    a required field. *)
Example inherited_members :
  validateSchemaExists an_engine petstore "constructor"
  = Return {| valid := true; errors := []; warnings := [] |}
  /\ validateResponseAgainstSchema an_engine petstore (JObject []) "constructor"
       default_options
     = Return {| valid := true; errors := []; warnings := [] |}
  /\ validateEndpointExists an_engine petstore "constructor" None
     = Return {| valid := false;
                 errors := ["Method 'GET' not found for endpoint 'constructor'"];
                 warnings := [] |}
  /\ js_in an_engine "toString" (JObject []) = Return true
  /\ getSchemaNames petstore = ["Category"; "Tag"; "Pet"].
Proof. repeat split; reflexivity. Qed.

(** The text of a value: an object with a property [toString] of its own
    has none, and a number outside the safe integers has the text the
    engine gives it. *)
Example texts (engine : Engine) :
  ToString engine (JObject [("toString", int 1)]) = Throw TypeError
  /\ ToString engine (JObject [("id", int 1)]) = Return "[object Object]"
  /\ ToString engine (JArray [int 1; JNull; JString "a"]) = Return "1,,a"
  /\ Number_toString engine (inject_Z (2 ^ 64)) = float_toString engine (inject_Z (2 ^ 64))
  /\ Number_toString engine (inject_Z (2 ^ 53 - 1)) = "9007199254740991".
Proof. repeat split; reflexivity. Qed.

(* ================================================================== *)
(** * Further properties of the contract validator *)

(** ** Warnings *)

Section Warnings.

Variable engine : Engine.
Variable self : value -> string -> Options -> outcome ValidationResult.

(** The nested calls, made with the default options, return no warning. *)
Hypothesis self_quiet :
  forall v schemaName r, self v schemaName default_options = Return r -> warnings r = [].

Lemma validateFieldType_body_warnings (fieldName : string) (v fieldSchema : value)
    (r : ValidationResult) :
  validateFieldType_body engine self fieldName v fieldSchema = Return r ->
  warnings r = [].
Proof.
  unfold validateFieldType_body; intros H.
  apply bind_Return in H as (ref & _ & H).
  apply bind_Return in H as (early & Hearly & H).
  destruct early as [rv |].
  - injection H as <-.
    destruct (truthy ref); [| discriminate].
    apply bind_Return in Hearly as (nm & _ & Hearly).
    destruct (is_object v); [| discriminate].
    apply bind_Return in Hearly as (rv' & Hself & Hearly).
    injection Hearly as <-; apply (self_quiet _ _ _ Hself).
  - apply bind_Return in H as (type & _ & H).
    apply bind_Return in H as (errs & _ & H).
    injection H as <-; reflexivity.
Qed.

Lemma checkProperties_warnings (response : value) (entries : list (string * value)) :
  forall errs warns errs' warns',
    checkProperties engine self response entries errs warns
    = Return (errs', warns') ->
    warns' = warns.
Proof.
  induction entries as [| [fieldName fieldSchema] rest IH];
    intros errs warns errs' warns' H; cbn [checkProperties] in H.
  - injection H as _ <-; reflexivity.
  - apply bind_Return in H as (present & _ & H).
    destruct present; [| apply (IH _ _ _ _ H)].
    apply bind_Return in H as (fv & _ & H).
    apply bind_Return in H as (vt & Hvt & H).
    rewrite (validateFieldType_body_warnings _ _ _ _ Hvt) in H.
    unfold push_all in H; rewrite app_nil_r in H; apply (IH _ _ _ _ H).
Qed.

Lemma checkRequired_strict_warnings (response : value) (required : list value) :
  forall errs warns errs' warns',
    checkRequired engine response true required errs warns
    = Return (errs', warns') ->
    warns' = warns.
Proof.
  induction required as [| f rest IH]; intros errs warns errs' warns' H;
    cbn [checkRequired] in H.
  - injection H as _ <-; reflexivity.
  - apply bind_Return in H as (key & _ & H).
    apply bind_Return in H as (present & _ & H).
    destruct (negb present); apply (IH _ _ _ _ H).
Qed.

Lemma validateResponseAgainstSchema_body_strict_warnings (spec : OpenAPISpec)
    (response : value) (schemaName : string) (options : Options)
    (r : ValidationResult) :
  strict_of options = true ->
  validateResponseAgainstSchema_body engine self spec response schemaName options
  = Return r ->
  warnings r = [].
Proof.
  intros Hstrict H; unfold validateResponseAgainstSchema_body in H.
  rewrite Hstrict in H.
  apply bind_Return in H as (schema & _ & H).
  destruct (negb (truthy schema)); [injection H as <-; reflexivity |].
  apply bind_Return in H as (required & _ & H).
  apply bind_Return in H as ([errs warns] & Hreq & H).
  apply bind_Return in H as (properties & _ & H).
  apply bind_Return in H as ([errs' warns'] & Hprops & H).
  injection H as <-; cbn [warnings].
  assert (Hwarns : warns = []).
  { destruct (Array_isArray required); [| injection Hreq as _ <-; reflexivity].
    apply (checkRequired_strict_warnings _ _ _ _ _ _ Hreq). }
  subst warns.
  destruct (truthy properties); [| injection Hprops as _ <-; reflexivity].
  apply (checkProperties_warnings _ _ _ _ _ _ Hprops).
Qed.

End Warnings.

Lemma strict_default : strict_of default_options = true.
Proof. reflexivity. Qed.

Lemma strict_of_true (options : Options) :
  strictRequired options <> Some false -> strict_of options = true.
Proof.
  unfold strict_of; destruct (strictRequired options) as [[|] |]; intros H;
    try reflexivity; contradiction H; reflexivity.
Qed.

Lemma validateResponseAgainstSchema_fuel_strict_warnings
    (engine : Engine) (spec : OpenAPISpec) (fuel : nat) :
  forall response schemaName options r,
    strict_of options = true ->
    validateResponseAgainstSchema_fuel engine fuel spec response schemaName
      options = Return r ->
    warnings r = [].
Proof.
  induction fuel as [| fuel IH]; intros response schemaName options r Hstrict H;
    [discriminate |].
  cbn [validateResponseAgainstSchema_fuel] in H.
  apply (validateResponseAgainstSchema_body_strict_warnings engine
           (validateResponseAgainstSchema_fuel engine fuel spec)
           (fun v n r' => IH v n default_options r' strict_default)
           _ _ _ _ _ Hstrict H).
Qed.

(** X1. A call whose [strictRequired] is not [false] returns no warning,
    whatever the response and the definitions: every finding of a strict
    call is in [errors]. *)
Theorem strict_call_has_no_warnings (engine : Engine)
    (spec : OpenAPISpec) (response : value) (schemaName : string)
    (options : Options) (r : ValidationResult) :
  strictRequired options <> Some false ->
  validateResponseAgainstSchema engine spec response schemaName options
  = Return r ->
  warnings r = [].
Proof.
  intros Hopt H.
  apply (validateResponseAgainstSchema_fuel_strict_warnings engine spec
           _ _ _ _ _ (strict_of_true _ Hopt) H).
Qed.

Lemma strict_call_has_no_warnings_witness :
  strictRequired default_options <> Some false
  /\ validateResponseAgainstSchema an_engine petstore nameless_tag_response "Pet"
       default_options
     = Return (strict_view nameless_tag_result)
  /\ warnings (strict_view nameless_tag_result) = [].
Proof.
  assert (Hopt : strictRequired default_options <> Some false) by discriminate.
  assert (Hcall : validateResponseAgainstSchema an_engine petstore nameless_tag_response
                    "Pet" default_options
                  = Return (strict_view nameless_tag_result)) by reflexivity.
  split; [exact Hopt |]. split; [exact Hcall |].
  apply (strict_call_has_no_warnings an_engine petstore nameless_tag_response "Pet"
           default_options _ Hopt Hcall).
Defined.

Lemma validateResponseAgainstSchema_default_quiet (engine : Engine)
    (spec : OpenAPISpec) (v : value) (schemaName : string) (r : ValidationResult) :
  validateResponseAgainstSchema engine spec v schemaName default_options
  = Return r ->
  warnings r = [].
Proof.
  apply (validateResponseAgainstSchema_fuel_strict_warnings engine spec
           _ _ _ _ _ strict_default).
Qed.

Lemma checkRequired_general (engine : Engine) (response : value)
    (strict : bool) (required : list value) :
  forall errs warns,
    checkRequired engine response strict required errs warns
    = msgs <- required_messages engine response required ;;
      Return (if strict then ((errs ++ msgs)%list, warns)
              else (errs, (warns ++ msgs)%list)).
Proof.
  induction required as [| f rest IH]; intros errs warns;
    cbn [checkRequired required_messages].
  - cbn [bind]; destruct strict; rewrite app_nil_r; reflexivity.
  - destruct (ToString engine f) as [key | e |]; cbn [bind]; try reflexivity.
    destruct (js_in engine key response) as [present | e |];
      cbn [bind]; try reflexivity.
    destruct present; cbn [negb].
    + rewrite IH.
      destruct (required_messages engine response rest); reflexivity.
    + destruct strict; rewrite IH;
        destruct (required_messages engine response rest) as [msgs | e |];
        cbn [bind]; try reflexivity;
        unfold push, required_message; rewrite <- app_assoc; reflexivity.
Qed.

(** X2. Turning [strictRequired] off changes one thing: the messages of
    the required-field pass of the outer schema move from the head of
    [errors] to [warnings].  The strict call returns the result of the
    lenient one with its warnings put before its errors, and throws what
    it throws. *)
Theorem strictness_moves_required_messages (engine : Engine)
    (spec : OpenAPISpec) (response : value) (schemaName : string)
    (strict lenient : Options) :
  strictRequired strict <> Some false ->
  strictRequired lenient = Some false ->
  validateResponseAgainstSchema engine spec response schemaName strict
  = r <- validateResponseAgainstSchema engine spec response schemaName lenient ;;
    Return (strict_view r).
Proof.
  intros Hstrict Hlenient.
  rewrite !validateResponseAgainstSchema_eq.
  unfold validateResponseAgainstSchema_body.
  rewrite (strict_of_true _ Hstrict).
  replace (strict_of lenient) with false by (unfold strict_of; rewrite Hlenient; reflexivity).
  destruct (getSchema engine spec schemaName) as [schema | e |]; cbn [bind]; try reflexivity.
  destruct (negb (truthy schema)); [reflexivity |].
  destruct (js_get engine schema "required") as [required | e |]; cbn [bind]; try reflexivity.
  assert (Hreq :
            exists msgs : outcome (list string),
              (if Array_isArray required
               then checkRequired engine response true (elements_of required) [] []
               else Return ([], [])) = (m <- msgs ;; Return (m, []))
              /\ (if Array_isArray required
                  then checkRequired engine response false (elements_of required) [] []
                  else Return ([], [])) = (m <- msgs ;; Return ([], m))).
  { destruct (Array_isArray required);
      [| exists (Return []); split; reflexivity].
    exists (required_messages engine response (elements_of required)).
    rewrite !checkRequired_general; split; reflexivity. }
  destruct Hreq as (msgs & -> & ->).
  destruct msgs as [m | e |]; cbn [bind]; try reflexivity.
  destruct (js_get engine schema "properties") as [properties | e |]; cbn [bind];
    try reflexivity.
  destruct (truthy properties).
  - rewrite (checkProperties_appends _ _ _ _ m []),
      (checkProperties_appends _ _ _ _ [] m).
    destruct (checkProperties engine
                (validateResponseAgainstSchema engine spec) response
                (Object_entries engine properties) [] []) as [[fe fw] | e |] eqn:Hfields;
      cbn [bind]; try reflexivity.
    rewrite (checkProperties_warnings engine _
               (validateResponseAgainstSchema_default_quiet engine spec)
               _ _ _ _ _ _ Hfields).
    unfold strict_view; cbn [errors warnings app]; rewrite app_nil_r; reflexivity.
  - cbn [bind]; unfold strict_view; cbn [errors warnings app].
    rewrite app_nil_r; reflexivity.
Qed.

Lemma strictness_moves_required_messages_witness :
  validateResponseAgainstSchema an_engine petstore nameless_tag_response "Pet"
    {| strictRequired := Some false |}
  = Return nameless_tag_result
  /\ validateResponseAgainstSchema an_engine petstore nameless_tag_response "Pet"
       {| strictRequired := Some true |}
     = Return {| valid := false;
                 errors := ["Required field 'name' is missing from response";
                            "Required field 'photoUrls' is missing from response";
                            "tags[0]: Required field 'name' is missing from response"];
                 warnings := [] |}.
Proof.
  split; [reflexivity |].
  rewrite (strictness_moves_required_messages an_engine petstore nameless_tag_response
             "Pet" {| strictRequired := Some true |} {| strictRequired := Some false |});
    [reflexivity | discriminate | reflexivity].
Defined.

Lemma ToString_Return (engine : Engine) (v : value) (s : string) :
  ToString engine v = Return s -> s = js_toString engine v.
Proof.
  unfold ToString; destruct (convertible v); intros H; [| discriminate].
  injection H as <-; reflexivity.
Qed.

Lemma required_messages_In (engine : Engine) (response : value)
    (required : list value) :
  forall msgs,
    required_messages engine response required = Return msgs ->
    forall w,
      In w msgs <->
      exists n, In n required
                /\ w = required_message (js_toString engine n)
                /\ js_in engine (js_toString engine n) response = Return false.
Proof.
  induction required as [| f rest IH]; intros msgs H w; cbn [required_messages] in H.
  - injection H as <-; split; [contradiction | intros (n & [] & _)].
  - apply bind_Return in H as (key & Hkey & H).
    apply ToString_Return in Hkey; subst key.
    apply bind_Return in H as (present & Hp & H).
    apply bind_Return in H as (ms & Hms & H); injection H as <-.
    specialize (IH ms Hms w).
    destruct present.
    + rewrite IH; split; intros (n & Hn & Hw & Hin).
      * exists n; split; [right; exact Hn | auto].
      * destruct Hn as [<- | Hn]; [congruence | exists n; auto].
    + split.
      * intros [<- | Hw]; [exists f; split; [left; reflexivity | auto] |].
        apply IH in Hw as (n & Hn & Hw & Hin); exists n; split; [right; exact Hn | auto].
      * intros (n & [<- | Hn] & Hw & Hin); [left; symmetry; exact Hw |].
        right; apply IH; exists n; auto.
Qed.

Lemma lenient_warnings_are_required_messages (engine : Engine)
    (spec : OpenAPISpec) (response schema : value) (schemaName : string)
    (options : Options) (r : ValidationResult) :
  getSchema engine spec schemaName = Return schema ->
  truthy schema = true ->
  strictRequired options = Some false ->
  validateResponseAgainstSchema engine spec response schemaName options
  = Return r ->
  required_messages engine response (required_names engine schema)
  = Return (warnings r).
Proof.
  intros Hschema Htruthy Hlenient H.
  rewrite validateResponseAgainstSchema_eq in H.
  unfold validateResponseAgainstSchema_body in H.
  rewrite Hschema in H; cbn [bind] in H; rewrite Htruthy in H; cbn [negb] in H.
  rewrite (truthy_js_get engine schema "required" Htruthy eq_refl) in H; cbn [bind] in H.
  replace (strict_of options) with false in H
    by (unfold strict_of; rewrite Hlenient; reflexivity).
  apply bind_Return in H as ([errs warns] & Hreq & H).
  apply bind_Return in H as (properties & _ & H).
  apply bind_Return in H as ([errs' warns'] & Hprops & H).
  injection H as <-; cbn [warnings].
  assert (Hwarns : warns' = warns).
  { destruct (truthy properties); [| injection Hprops as _ <-; reflexivity].
    apply (checkProperties_warnings engine _
             (validateResponseAgainstSchema_default_quiet engine spec)
             _ _ _ _ _ _ Hprops). }
  subst warns'; unfold required_names.
  destruct (Array_isArray (field engine schema "required"));
    [| injection Hreq as _ <-; reflexivity].
  rewrite checkRequired_general in Hreq.
  apply bind_Return in Hreq as (msgs & Hmsgs & Hreq); injection Hreq as _ <-.
  exact Hmsgs.
Qed.

(** X3. The warnings of a call with [strictRequired: false] are the
    required-field messages of the outer schema and nothing else: a
    warning names an entry of its [required] that the response lacks, and
    every such entry is warned about.  What the nested validations find
    is never a warning. *)
Theorem lenient_warnings (engine : Engine) (spec : OpenAPISpec)
    (response schema : value) (schemaName : string) (options : Options)
    (r : ValidationResult) :
  getSchema engine spec schemaName = Return schema ->
  truthy schema = true ->
  strictRequired options = Some false ->
  validateResponseAgainstSchema engine spec response schemaName options
  = Return r ->
  forall w,
    In w (warnings r) <->
    exists n, In n (required_names engine schema)
              /\ w = required_message (js_toString engine n)
              /\ js_in engine (js_toString engine n) response = Return false.
Proof.
  intros Hschema Htruthy Hlenient H.
  apply (required_messages_In engine response (required_names engine schema)).
  apply (lenient_warnings_are_required_messages _ _ _ _ _ _ _
           Hschema Htruthy Hlenient H).
Qed.

Lemma lenient_warnings_witness :
  getSchema an_engine petstore "Pet" = Return Pet_schema
  /\ (In "Required field 'photoUrls' is missing from response"
         (warnings nameless_tag_result) <->
      exists n, In n (required_names an_engine Pet_schema)
                /\ "Required field 'photoUrls' is missing from response"
                   = required_message (js_toString an_engine n)
                /\ js_in an_engine (js_toString an_engine n) nameless_tag_response
                   = Return false).
Proof.
  split; [reflexivity |].
  apply (lenient_warnings an_engine petstore nameless_tag_response Pet_schema "Pet"
           {| strictRequired := Some false |} nameless_tag_result);
    reflexivity.
Defined.

(* ================================================================== *)
(** ** What the checker reads of the response *)

Lemma required_messages_ext (engine : Engine) (r1 r2 : value)
    (required : list value) :
  (forall n, In n required ->
             js_in engine (js_toString engine n) r1
             = js_in engine (js_toString engine n) r2) ->
  required_messages engine r1 required
  = required_messages engine r2 required.
Proof.
  induction required as [| f rest IH]; intros H; cbn [required_messages];
    [reflexivity |].
  destruct (ToString engine f) as [key | e |] eqn:Hkey; cbn [bind]; try reflexivity.
  apply ToString_Return in Hkey; subst key.
  rewrite (H f (or_introl eq_refl)), IH; [reflexivity |].
  intros n Hn; apply H; right; exact Hn.
Qed.

Lemma checkProperties_ext (engine : Engine)
    (self : value -> string -> Options -> outcome ValidationResult)
    (r1 r2 : value) (entries : list (string * value)) :
  (forall k, In k (map fst entries) ->
             js_in engine k r1 = js_in engine k r2
             /\ js_get engine r1 k = js_get engine r2 k) ->
  forall errs warns,
    checkProperties engine self r1 entries errs warns
    = checkProperties engine self r2 entries errs warns.
Proof.
  induction entries as [| [fieldName fieldSchema] rest IH]; intros H errs warns;
    cbn [checkProperties]; [reflexivity |].
  destruct (H fieldName (or_introl eq_refl)) as [-> ->].
  assert (Hrest : forall e w,
             checkProperties engine self r1 rest e w
             = checkProperties engine self r2 rest e w).
  { apply IH; intros k Hk; apply H; right; exact Hk. }
  destruct (js_in engine fieldName r2) as [[|] | e |]; cbn [bind]; try reflexivity;
    [| apply Hrest].
  destruct (js_get engine r2 fieldName) as [fv | e |]; cbn [bind]; try reflexivity.
  destruct (validateFieldType_body engine self fieldName fv fieldSchema);
    cbn [bind]; try reflexivity.
  apply Hrest.
Qed.

(** Two responses that agree at the keys the outer schema mentions get
    the same outcome. *)
Lemma checker_reads_mentioned_keys (engine : Engine)
    (spec : OpenAPISpec) (defs : list (string * value)) (schemaName : string)
    (options : Options) (r1 r2 : value) :
  definitions spec = Some defs ->
  (forall k, In k (mentioned_keys engine (definition_of engine defs schemaName)) ->
             js_in engine k r1 = js_in engine k r2
             /\ js_get engine r1 k = js_get engine r2 k) ->
  validateResponseAgainstSchema engine spec r1 schemaName options
  = validateResponseAgainstSchema engine spec r2 schemaName options.
Proof.
  intros Hd H.
  rewrite !validateResponseAgainstSchema_eq.
  unfold validateResponseAgainstSchema_body, getSchema; rewrite Hd; cbn [bind].
  set (schema := definition_of engine defs schemaName) in *.
  destruct (truthy schema) eqn:Htruthy; cbn [negb]; [| reflexivity].
  rewrite !(fun k Hk => truthy_js_get engine schema k Htruthy Hk) by reflexivity;
    cbn [bind].
  unfold mentioned_keys, required_names, property_entries in H.
  assert (Hreq :
            (if Array_isArray (field engine schema "required")
             then checkRequired engine r1 (strict_of options)
                    (elements_of (field engine schema "required")) [] []
             else Return ([], []))
            = (if Array_isArray (field engine schema "required")
               then checkRequired engine r2 (strict_of options)
                      (elements_of (field engine schema "required")) [] []
               else Return ([], []))).
  { destruct (Array_isArray (field engine schema "required")); [| reflexivity].
    rewrite !checkRequired_general.
    rewrite (required_messages_ext engine r1 r2); [reflexivity |].
    intros n Hn; apply H, in_or_app; left; apply in_map, Hn. }
  rewrite Hreq.
  destruct (if Array_isArray (field engine schema "required")
            then checkRequired engine r2 (strict_of options)
                   (elements_of (field engine schema "required")) [] []
            else Return ([], [])) as [[errs warns] | e |]; cbn [bind]; try reflexivity.
  destruct (truthy (field engine schema "properties")); [| reflexivity].
  rewrite (checkProperties_ext engine _ r1 r2); [reflexivity |].
  intros k Hk; apply H, in_or_app; right; exact Hk.
Qed.

Lemma assoc_insert_other {A : Type} (k key : string) (a : A)
    (before after : list (string * A)) :
  key <> k ->
  assoc key (before ++ (k, a) :: after) = assoc key (before ++ after).
Proof.
  intros Hne; induction before as [| [k' a'] rest IH]; cbn [app assoc].
  - destruct (String.eqb_spec key k); [contradiction | reflexivity].
  - rewrite IH; reflexivity.
Qed.

(** X4. Properties the schema does not mention are ignored: putting into
    an object response, at any place, a property whose key is neither a
    property name of the outer schema nor an entry of its [required]
    changes nothing in the outcome, whatever its value. *)
Theorem additional_property_ignored (engine : Engine)
    (spec : OpenAPISpec) (defs : list (string * value)) (schemaName : string)
    (options : Options) (before after : list (string * value)) (k : string)
    (v : value) :
  definitions spec = Some defs ->
  ~ In k (mentioned_keys engine (definition_of engine defs schemaName)) ->
  validateResponseAgainstSchema engine spec
    (JObject (before ++ (k, v) :: after)) schemaName options
  = validateResponseAgainstSchema engine spec
      (JObject (before ++ after)) schemaName options.
Proof.
  intros Hd Hk.
  apply (checker_reads_mentioned_keys engine spec defs schemaName options
           _ _ Hd).
  intros key Hkey.
  assert (Hne : key <> k) by (intros ->; contradiction).
  unfold js_in, js_get, has_property, field, member; cbn [own_property inherited].
  rewrite (assoc_insert_other k key v before after Hne); split; reflexivity.
Qed.

Lemma additional_property_ignored_witness :
  ~ In "owner" (mentioned_keys an_engine (definition_of an_engine petstore_definitions "Pet"))
  /\ validateResponseAgainstSchema an_engine petstore
       (JObject [("name", JString "Rex"); ("owner", JNull); ("photoUrls", JArray [])])
       "Pet" default_options
     = validateResponseAgainstSchema an_engine petstore
         (JObject [("name", JString "Rex"); ("photoUrls", JArray [])])
         "Pet" default_options.
Proof.
  assert (Hk : ~ In "owner"
                 (mentioned_keys an_engine
                    (definition_of an_engine petstore_definitions "Pet"))).
  { vm_compute; intros H.
    repeat (destruct H as [H | H]; [discriminate H |]). exact H. }
  split; [exact Hk |].
  apply (additional_property_ignored an_engine petstore petstore_definitions "Pet"
           default_options [("name", JString "Rex")] [("photoUrls", JArray [])]
           "owner" JNull eq_refl Hk).
Defined.

(* ================================================================== *)
(** ** References *)

(** X5. A dangling [$ref] on a field is reported, not raised: when
    [definitions] yields nothing truthy for the name it resolves to (a
    name that is neither defined nor inherited), an object or array value
    of the field gets the single error [Schema '<name>' not found], and a
    checker that returns for a response holding such a field returns it
    among its errors. *)
Theorem dangling_field_ref (engine : Engine) (spec : OpenAPISpec)
    (defs : list (string * value)) (fieldName : string) (fieldSchema v : value)
    (s : string) :
  definitions spec = Some defs ->
  truthy (definition_of engine defs (split_pop s)) = false ->
  js_get engine fieldSchema "$ref" = Return (JString s) -> s <> EmptyString ->
  is_object v = true ->
  validateFieldType engine spec fieldName v fieldSchema
  = Return (schema_not_found (split_pop s))
  /\ forall schemaName schema properties response options r,
       assoc schemaName defs = Some (JObject schema) ->
       assoc "properties" schema = Some properties -> truthy properties = true ->
       In (fieldName, fieldSchema) (Object_entries engine properties) ->
       js_in engine fieldName response = Return true ->
       js_get engine response fieldName = Return v ->
       validateResponseAgainstSchema engine spec response schemaName options
       = Return r ->
       In ("Schema '" ++ split_pop s ++ "' not found") (errors r) /\ valid r = false.
Proof.
  intros Hd Hmissing Href Hne Hobj.
  assert (Hfield : validateFieldType engine spec fieldName v fieldSchema
                   = Return (schema_not_found (split_pop s))).
  { unfold validateFieldType.
    rewrite (validateFieldType_ref _ _ _ _ _ _ Href Hne Hobj).
    apply (checker_unknown_schema _ _ defs _ _ _ Hd Hmissing). }
  split; [exact Hfield |].
  intros schemaName schema properties response options r Hs Hprops Htruthy Hentry
    Hpresent Hget H.
  destruct (checker_result_shape _ _ _ _ _ _ _ _ Hd Hs H)
    as (reqErrs & reqWarns & fe & fw & _ & Hfields & He & _).
  unfold property_pass in Hfields.
  rewrite (field_own engine schema "properties" _ Hprops), Htruthy in Hfields.
  destruct (checkProperties_In _ _ _ _ _ _ _ Hentry Hpresent Hget _ _ Hfields)
    as (r' & Hr' & Hincl).
  fold (validateFieldType engine spec fieldName v fieldSchema) in Hr'.
  rewrite Hfield in Hr'; injection Hr' as <-.
  assert (Herr : In ("Schema '" ++ split_pop s ++ "' not found") (errors r)).
  { rewrite He; apply in_or_app; right; apply Hincl; left; reflexivity. }
  split; [exact Herr |].
  rewrite validateResponseAgainstSchema_eq in H.
  rewrite (validateResponseAgainstSchema_body_valid _ _ _ _ _ _ _ H).
  destruct (errors r); [contradiction | reflexivity].
Qed.

Lemma dangling_field_ref_witness :
  truthy (definition_of an_engine petstore_definitions
            (split_pop "#/definitions/Owner")) = false
  /\ validateFieldType an_engine petstore "owner" (JObject [("id", int 7)])
       (schema_ref "Owner")
     = Return (schema_not_found "Owner").
Proof.
  split; [reflexivity |].
  apply (dangling_field_ref an_engine petstore petstore_definitions "owner"
           (schema_ref "Owner") (JObject [("id", int 7)]) "#/definitions/Owner");
    first [reflexivity | discriminate].
Defined.

Lemma forEach_dangling (engine : Engine) (spec : OpenAPISpec)
    (defs : list (string * value)) (fieldName : string) (items : value) (s : string)
    (l : list value) :
  definitions spec = Some defs ->
  truthy (definition_of engine defs (split_pop s)) = false ->
  truthy items = true ->
  field engine items "$ref" = JString s -> s <> EmptyString ->
  forall index,
    forEach engine (validateResponseAgainstSchema engine spec)
      fieldName items l index []
    = Return (map (fun i => item_prefix fieldName i
                              ("Schema '" ++ split_pop s ++ "' not found"))
                  (seq index (length l))).
Proof.
  intros Hd Hmissing Hitems Href Hne.
  induction l as [| item rest IH]; intros index; cbn [forEach length seq map];
    [reflexivity |].
  unfold validateItem.
  rewrite (truthy_js_get engine items "$ref" Hitems eq_refl), Href; cbn [bind].
  rewrite (truthy_JString s Hne); cbn [ref_name bind].
  rewrite (checker_unknown_schema _ _ defs _ _ _ Hd Hmissing).
  cbn [bind]; rewrite forEach_appends, IH; reflexivity.
Qed.

(** X6. A dangling [items.$ref]: each element of the array, object or
    not, gets the error [<name>[<index>]: Schema '<ref>' not found], in
    order after what the enum check emits; nothing is raised for the
    elements, even for those that are not objects. *)
Theorem dangling_items_ref (engine : Engine) (spec : OpenAPISpec)
    (defs : list (string * value)) (fieldName : string) (fieldSchema ref : value)
    (s : string) (elements : list value) :
  definitions spec = Some defs ->
  truthy (definition_of engine defs (split_pop s)) = false ->
  js_get engine fieldSchema "$ref" = Return ref -> truthy ref = false ->
  field engine fieldSchema "type" = JString "array" ->
  truthy (field engine fieldSchema "items") = true ->
  field engine (field engine fieldSchema "items") "$ref" = JString s ->
  s <> EmptyString ->
  validateFieldType engine spec fieldName (JArray elements) fieldSchema
  = (enumErrs <- enum_errors engine fieldName (JArray elements)
                   (field engine fieldSchema "enum") ;;
     Return (field_result
               (enumErrs
                ++ map (fun i => item_prefix fieldName i
                                   ("Schema '" ++ split_pop s ++ "' not found"))
                       (seq 0 (length elements)))%list)).
Proof.
  intros Hd Hmissing Href Hno Htype Hitems Hs Hne.
  unfold validateFieldType.
  rewrite (validateFieldType_array _ _ _ _ _ _ Href Hno Htype Hitems).
  rewrite (forEach_dangling _ _ defs _ _ s _ Hd Hmissing Hitems Hs Hne).
  reflexivity.
Qed.

Lemma dangling_items_ref_witness :
  truthy (definition_of an_engine petstore_definitions
            (split_pop "#/definitions/Owner")) = false
  /\ validateFieldType an_engine petstore "owners" (JArray [int 1; JNull])
       (JObject [("type", JString "array"); ("items", schema_ref "Owner")])
     = Return (field_result ["owners[0]: Schema 'Owner' not found";
                             "owners[1]: Schema 'Owner' not found"]).
Proof.
  split; [reflexivity |].
  rewrite (dangling_items_ref an_engine petstore petstore_definitions "owners"
             (JObject [("type", JString "array"); ("items", schema_ref "Owner")])
             JUndefined "#/definitions/Owner" [int 1; JNull]);
    first [reflexivity | discriminate].
Defined.



(* ================================================================== *)
(** ** Endpoints and definitions *)

Lemma lower_upper_char (c : ascii) : lower_char (upper_char c) = lower_char c.
Proof. destruct c as [[] [] [] [] [] [] [] []]; reflexivity. Qed.

Lemma upper_upper_char (c : ascii) : upper_char (upper_char c) = upper_char c.
Proof. destruct c as [[] [] [] [] [] [] [] []]; reflexivity. Qed.

Lemma lower_lower_char (c : ascii) : lower_char (lower_char c) = lower_char c.
Proof. destruct c as [[] [] [] [] [] [] [] []]; reflexivity. Qed.

Lemma upper_lower_char (c : ascii) : upper_char (lower_char c) = upper_char c.
Proof. destruct c as [[] [] [] [] [] [] [] []]; reflexivity. Qed.

Lemma map_string_compose (f g h : ascii -> ascii) (s : string) :
  (forall c, f (g c) = h c) -> map_string f (map_string g s) = map_string h s.
Proof.
  intros H; induction s as [| c s IH]; cbn [map_string]; [reflexivity |].
  rewrite H, IH; reflexivity.
Qed.

Lemma ascii_upper_char (c : ascii) :
  (nat_of_ascii c <? 128)%nat = true -> (nat_of_ascii (upper_char c) <? 128)%nat = true.
Proof. destruct c as [[] [] [] [] [] [] [] []]; intros H; try discriminate H; reflexivity. Qed.

Lemma ascii_lower_char (c : ascii) :
  (nat_of_ascii c <? 128)%nat = true -> (nat_of_ascii (lower_char c) <? 128)%nat = true.
Proof. destruct c as [[] [] [] [] [] [] [] []]; intros H; try discriminate H; reflexivity. Qed.

Lemma is_ascii_map (f : ascii -> ascii) (s : string) :
  (forall c, (nat_of_ascii c <? 128)%nat = true -> (nat_of_ascii (f c) <? 128)%nat = true) ->
  is_ascii s = true -> is_ascii (map_string f s) = true.
Proof.
  intros Hf; induction s as [| c s IH]; cbn [is_ascii map_string]; [reflexivity |].
  intros H; apply andb_prop in H as [Hc Hs].
  rewrite (Hf c Hc), (IH Hs); reflexivity.
Qed.

(** X8. The method is matched without regard to the case of its ASCII
    letters: [validateEndpointExists] gives the same result, error message
    included, for a method name, for its upper-case form and for its
    lower-case form. *)
Theorem method_case_is_irrelevant (engine : Engine) (spec : OpenAPISpec)
    (path method : string) :
  is_ascii method = true ->
  validateEndpointExists engine spec path (Some (toUpperCase engine method))
  = validateEndpointExists engine spec path (Some method)
  /\ validateEndpointExists engine spec path (Some (toLowerCase engine method))
     = validateEndpointExists engine spec path (Some method).
Proof.
  intros Hascii; unfold validateEndpointExists, toLowerCase, toUpperCase.
  rewrite Hascii.
  rewrite (is_ascii_map upper_char method ascii_upper_char Hascii).
  rewrite (is_ascii_map lower_char method ascii_lower_char Hascii).
  rewrite (map_string_compose lower_char upper_char lower_char method lower_upper_char).
  rewrite (map_string_compose upper_char upper_char upper_char method upper_upper_char).
  rewrite (map_string_compose lower_char lower_char lower_char method lower_lower_char).
  rewrite (map_string_compose upper_char lower_char upper_char method upper_lower_char).
  split; reflexivity.
Qed.

Lemma method_case_is_irrelevant_witness :
  is_ascii "Post" = true
  /\ validateEndpointExists an_engine petstore "/pet" (Some "POST")
     = validateEndpointExists an_engine petstore "/pet" (Some "Post")
  /\ validateEndpointExists an_engine petstore "/pet" (Some "post")
     = validateEndpointExists an_engine petstore "/pet" (Some "Post").
Proof.
  split; [reflexivity |].
  apply (method_case_is_irrelevant an_engine petstore "/pet" "Post"); reflexivity.
Defined.

Lemma assoc_None_iff {A : Type} (k : string) (l : list (string * A)) :
  assoc k l = None <-> ~ In k (map fst l).
Proof.
  induction l as [| [k' a] rest IH]; cbn [assoc map fst In].
  - split; [intros _ [] | reflexivity].
  - destruct (String.eqb_spec k k') as [-> | Hne].
    + split; [discriminate | intros H; contradiction H; left; reflexivity].
    + rewrite IH; split.
      * intros H [Heq | Hin]; [apply Hne; symmetry; exact Heq | apply H, Hin].
      * intros H Hin; apply H; right; exact Hin.
Qed.

(** X9. [validateEndpointExists] and [getEndpointPaths]: a path that
    [getEndpointPaths] lists never gets [Endpoint '<path>' not found in
    OpenAPI spec]; a path that it does not list gets it, whatever the
    method, unless it is the name of a member that objects inherit, which
    the lookup finds. *)
Theorem endpoint_not_found_iff_unlisted (engine : Engine) (spec : OpenAPISpec)
    (path : string) (method : option string) :
  validateEndpointExists engine spec path method
  = Return {| valid := false;
              errors := ["Endpoint '" ++ path ++ "' not found in OpenAPI spec"];
              warnings := [] |}
  <-> ~ In path (getEndpointPaths spec) /\ inherited_name path = false.
Proof.
  unfold getEndpointPaths; rewrite <- assoc_None_iff.
  unfold validateEndpointExists.
  destruct (assoc path (paths spec)) as [entry |] eqn:Hentry.
  - rewrite (entry_of_own_path engine spec path entry Hentry); cbn [bind].
    replace (truthy (entry_object entry)) with true by reflexivity; cbn [negb].
    rewrite (proj1 (operation_of_entry engine entry _)); cbn [bind].
    split; [| intros [H _]; discriminate H].
    destruct (negb _); intros H; discriminate H.
  - destruct (entry_of_absent_path engine spec path Hentry) as (entry & -> & Htruthy).
    cbn [bind]; rewrite Htruthy.
    destruct (inherited_name path); cbn [negb].
    + split; [| intros [_ H]; discriminate H].
      intros H; exfalso.
      apply bind_Return in H as (op & _ & H).
      destruct (negb (truthy op)); discriminate H.
    + split; [intros _; split; reflexivity | reflexivity].
Qed.

(** X10. [validateSchemaExists] is the guard of [getSchema]: its result
    is valid exactly when [getSchema] returns, without throwing, a schema
    that is truthy; a name it accepts is one [getSchemaNames] lists or
    the name of a member that objects inherit. *)
Theorem schema_exists_iff_getSchema (engine : Engine) (spec : OpenAPISpec)
    (schemaName : string) :
  exists r,
    validateSchemaExists engine spec schemaName = Return r
    /\ (valid r = true <->
        exists schema, getSchema engine spec schemaName = Return schema
                       /\ truthy schema = true)
    /\ (valid r = true ->
        In schemaName (getSchemaNames spec) \/ inherited_name schemaName = true).
Proof.
  unfold validateSchemaExists, getSchema, getSchemaNames.
  destruct (definitions spec) as [defs |].
  - destruct (truthy (definition_of engine defs schemaName)) eqn:Ht; cbn [negb];
      eexists; (split; [reflexivity |]); cbn [valid]; split.
    + split; [intros _; eexists; split; [reflexivity | exact Ht] | reflexivity].
    + intros _.
      destruct (assoc schemaName defs) as [schema |] eqn:Hs.
      * left. destruct (in_dec string_dec schemaName (map fst defs)) as [H | H];
          [exact H |].
        apply assoc_None_iff in H; congruence.
      * right. unfold definition_of in Ht.
        rewrite (proj1 (proj2 (field_object engine defs schemaName) Hs)) in Ht.
        exact Ht.
    + split; [discriminate |].
      intros (s & H & Hs'); injection H as <-; congruence.
    + discriminate.
  - eexists; (split; [reflexivity |]); cbn [valid]; split.
    + split; [discriminate | intros (s & H & _); discriminate H].
    + discriminate.
Qed.

(** X11. When [validateSchemaExists] rejects a name, the checker does not
    look at the response: on a specification without definitions it
    throws [No definitions found in OpenAPI spec], and otherwise it
    returns the single error [Schema '<name>' not found]. *)
Theorem rejected_schema_name (engine : Engine) (spec : OpenAPISpec)
    (schemaName : string) (r : ValidationResult) :
  validateSchemaExists engine spec schemaName = Return r ->
  valid r = false ->
  forall response options,
    (definitions spec = None
     /\ validateResponseAgainstSchema engine spec response schemaName options
        = Throw (Error "No definitions found in OpenAPI spec"))
    \/ (definitions spec <> None
        /\ validateResponseAgainstSchema engine spec response schemaName options
           = Return (schema_not_found schemaName)).
Proof.
  unfold validateSchemaExists; intros H Hv response options.
  destruct (definitions spec) as [defs |] eqn:Hd.
  - right; split; [discriminate |].
    apply (checker_unknown_schema _ _ defs _ _ _ Hd).
    destruct (truthy (definition_of engine defs schemaName)); [| reflexivity].
    injection H as <-; discriminate Hv.
  - left; split; [reflexivity |].
    rewrite validateResponseAgainstSchema_eq.
    unfold validateResponseAgainstSchema_body, getSchema; rewrite Hd; reflexivity.
Qed.

Lemma rejected_schema_name_witness :
  validateSchemaExists an_engine petstore "Owner"
  = Return {| valid := false;
              errors := ["Schema 'Owner' not found in OpenAPI spec definitions"];
              warnings := [] |}
  /\ validateResponseAgainstSchema an_engine petstore JNull "Owner" default_options
     = Return (schema_not_found "Owner").
Proof.
  split; [reflexivity |].
  destruct (rejected_schema_name an_engine petstore "Owner" _ eq_refl eq_refl
              JNull default_options) as [[H _] | [_ H]];
    [discriminate H | exact H].
Defined.

(* ================================================================== *)
(** ** What the checker throws *)

Lemma only_TypeError_Return {A : Type} (a : A) : only_TypeError (Return a).
Proof. intros msg; discriminate. Qed.

Lemma only_TypeError_bind {A B : Type} (m : outcome A) (k : A -> outcome B) :
  only_TypeError m -> (forall a, only_TypeError (k a)) -> only_TypeError (bind m k).
Proof.
  intros Hm Hk msg; destruct m as [a | e |]; cbn [bind].
  - apply Hk.
  - intros H; injection H as ->; apply (Hm msg); reflexivity.
  - discriminate.
Qed.

Lemma only_TypeError_js_get (engine : Engine) (v : value) (k : string) :
  only_TypeError (js_get engine v k).
Proof.
  intros msg; unfold js_get; destruct v; try discriminate;
    destruct (member engine _ k); discriminate.
Qed.

Lemma only_TypeError_js_in (engine : Engine) (k : string) (v : value) :
  only_TypeError (js_in engine k v).
Proof. intros msg; destruct v; discriminate. Qed.

Lemma only_TypeError_ref_name (r : value) : only_TypeError (ref_name r).
Proof. intros msg; destruct r; discriminate. Qed.

Lemma only_TypeError_ToString (engine : Engine) (v : value) :
  only_TypeError (ToString engine v).
Proof. intros msg; unfold ToString; destruct (convertible v); discriminate. Qed.

Lemma only_TypeError_Array_join (engine : Engine) (l : list value) (sep : string) :
  only_TypeError (Array_join engine l sep).
Proof. intros msg; unfold Array_join; destruct (forallb convertible l); discriminate. Qed.

Section Thrown.

Variable engine : Engine.
Variable self : value -> string -> Options -> outcome ValidationResult.
Hypothesis self_only : forall v n o, only_TypeError (self v n o).

Lemma only_TypeError_forEach (fieldName : string) (items : value) (l : list value) :
  forall index errs,
    only_TypeError (forEach engine self fieldName items l index errs).
Proof.
  induction l as [| item rest IH]; intros index errs; cbn [forEach].
  - apply only_TypeError_Return.
  - apply only_TypeError_bind; [| intros errs'; apply IH].
    unfold validateItem.
    apply only_TypeError_bind; [apply only_TypeError_js_get | intros r].
    destruct (truthy r).
    + apply only_TypeError_bind; [apply only_TypeError_ref_name | intros nm].
      apply only_TypeError_bind; [apply self_only | intros iv].
      apply only_TypeError_Return.
    + apply only_TypeError_bind; [apply only_TypeError_js_get | intros t].
      destruct (truthy t); [destruct (negb _) |]; try apply only_TypeError_Return.
      apply only_TypeError_bind; [apply only_TypeError_ToString | intros e].
      apply only_TypeError_Return.
Qed.

Lemma only_TypeError_validateFieldType (fieldName : string) (v fieldSchema : value) :
  only_TypeError (validateFieldType_body engine self fieldName v fieldSchema).
Proof.
  unfold validateFieldType_body.
  apply only_TypeError_bind; [apply only_TypeError_js_get | intros r].
  apply only_TypeError_bind.
  { destruct (truthy r); [| apply only_TypeError_Return].
    apply only_TypeError_bind; [apply only_TypeError_ref_name | intros nm].
    destruct (is_object v); [| apply only_TypeError_Return].
    apply only_TypeError_bind; [apply self_only | intros rv].
    apply only_TypeError_Return. }
  intros [rv |]; [apply only_TypeError_Return |].
  apply only_TypeError_bind; [apply only_TypeError_js_get | intros t].
  apply only_TypeError_bind; [| intros errs; apply only_TypeError_Return].
  destruct (truthy t); [| apply only_TypeError_Return].
  apply only_TypeError_bind.
  { destruct (negb _); [| apply only_TypeError_Return].
    apply only_TypeError_bind; [apply only_TypeError_ToString | intros e].
    apply only_TypeError_Return. }
  intros errs.
  apply only_TypeError_bind; [apply only_TypeError_js_get | intros en].
  apply only_TypeError_bind.
  { destruct (Array_isArray en); [| apply only_TypeError_Return].
    destruct (negb _); [| apply only_TypeError_Return].
    apply only_TypeError_bind; [apply only_TypeError_ToString | intros shown].
    apply only_TypeError_bind; [apply only_TypeError_Array_join | intros listed].
    apply only_TypeError_Return. }
  intros errs'.
  apply only_TypeError_bind; [apply only_TypeError_js_get | intros it].
  destruct (_ && _); [apply only_TypeError_forEach | apply only_TypeError_Return].
Qed.

Lemma only_TypeError_checkRequired (response : value) (strict : bool)
    (required : list value) :
  forall errs warns,
    only_TypeError (checkRequired engine response strict required errs warns).
Proof.
  induction required as [| f rest IH]; intros errs warns; cbn [checkRequired].
  - apply only_TypeError_Return.
  - apply only_TypeError_bind; [apply only_TypeError_ToString | intros key].
    apply only_TypeError_bind; [apply only_TypeError_js_in | intros present].
    destruct (negb present); [destruct strict |]; apply IH.
Qed.

Lemma only_TypeError_checkProperties (response : value)
    (entries : list (string * value)) :
  forall errs warns,
    only_TypeError (checkProperties engine self response entries errs warns).
Proof.
  induction entries as [| [k s] rest IH]; intros errs warns; cbn [checkProperties].
  - apply only_TypeError_Return.
  - apply only_TypeError_bind; [apply only_TypeError_js_in | intros present].
    destruct present; [| apply IH].
    apply only_TypeError_bind; [apply only_TypeError_js_get | intros fv].
    apply only_TypeError_bind; [apply only_TypeError_validateFieldType | intros vt].
    apply IH.
Qed.

Lemma only_TypeError_body (spec : OpenAPISpec) (defs : list (string * value))
    (response : value) (schemaName : string) (options : Options) :
  definitions spec = Some defs ->
  only_TypeError (validateResponseAgainstSchema_body engine self spec
                    response schemaName options).
Proof.
  intros Hd; unfold validateResponseAgainstSchema_body, getSchema; rewrite Hd.
  cbn [bind].
  destruct (negb _); [apply only_TypeError_Return |].
  apply only_TypeError_bind; [apply only_TypeError_js_get | intros required].
  apply only_TypeError_bind.
  { destruct (Array_isArray required); [| apply only_TypeError_Return].
    apply only_TypeError_checkRequired. }
  intros [errs warns].
  apply only_TypeError_bind; [apply only_TypeError_js_get | intros properties].
  apply only_TypeError_bind; [| intros [errs' warns']; apply only_TypeError_Return].
  destruct (truthy properties); [| apply only_TypeError_Return].
  apply only_TypeError_checkProperties.
Qed.

End Thrown.

(** X12. On a specification that has a definitions section the checker
    throws nothing of its own: every call returns a result or fails with
    a [TypeError] of the engine (a response or an element that is not an
    object where a member is looked up, a schema member that is [null], a
    [$ref] that is not a string, a value that has no text). *)
Theorem checker_throws_only_TypeError (engine : Engine)
    (spec : OpenAPISpec) (defs : list (string * value)) (response : value)
    (schemaName : string) (options : Options) :
  definitions spec = Some defs ->
  (exists r,
     validateResponseAgainstSchema engine spec response schemaName options
     = Return r)
  \/ validateResponseAgainstSchema engine spec response schemaName options
     = Throw TypeError.
Proof.
  intros Hd.
  assert (Honly : forall fuel v n o,
             only_TypeError (validateResponseAgainstSchema_fuel engine fuel
                               spec v n o)).
  { induction fuel as [| fuel IH]; intros v n o.
    - intros msg; discriminate.
    - cbn [validateResponseAgainstSchema_fuel].
      apply (only_TypeError_body engine _ IH spec defs _ _ _ Hd). }
  pose proof (validateResponseAgainstSchema_total engine spec response
                schemaName options) as Htotal.
  specialize (Honly (S (depth response)) response schemaName options).
  fold (validateResponseAgainstSchema engine spec response schemaName options)
    in Honly.
  destruct (validateResponseAgainstSchema engine spec response schemaName
              options) as [r | [msg |] |].
  - left; exists r; reflexivity.
  - contradiction (Honly msg); reflexivity.
  - right; reflexivity.
  - contradiction Htotal; reflexivity.
Qed.

Lemma checker_throws_only_TypeError_witness :
  definitions petstore = Some petstore_definitions
  /\ ((exists r,
         validateResponseAgainstSchema an_engine petstore
           (JObject [("tags", JArray [int 1])]) "Pet" default_options = Return r)
      \/ validateResponseAgainstSchema an_engine petstore
           (JObject [("tags", JArray [int 1])]) "Pet" default_options
         = Throw TypeError).
Proof.
  split; [reflexivity |].
  apply (checker_throws_only_TypeError an_engine petstore petstore_definitions
           (JObject [("tags", JArray [int 1])]) "Pet" default_options eq_refl).
Defined.

(* ================================================================== *)
(** ** Formatting a result *)

Lemma concat_empty (sep x : string) (l : list string) :
  String.concat sep (x :: l) = EmptyString -> x = EmptyString.
Proof.
  destruct l as [| y l]; cbn [String.concat]; [auto |].
  destruct x; [reflexivity | discriminate].
Qed.

Lemma format_lines_nil_iff (r : ValidationResult) :
  formatValidationErrors_lines r = [] <-> errors r = [] /\ warnings r = [].
Proof.
  unfold formatValidationErrors_lines, push, push_all.
  destruct (errors r) as [| e es]; destruct (warnings r) as [| w ws];
    cbn [is_empty negb app]; split; intros H;
    try (split; reflexivity); try reflexivity; try discriminate H;
    destruct H as [He Hw]; discriminate.
Qed.

Lemma format_lines_head (r : ValidationResult) (x : string) (l : list string) :
  formatValidationErrors_lines r = x :: l -> x <> EmptyString.
Proof.
  unfold formatValidationErrors_lines, push, push_all.
  destruct (errors r) as [| e es]; destruct (warnings r) as [| w ws];
    cbn [is_empty negb app]; intros H; try discriminate H;
    injection H as <- _; discriminate.
Qed.

Lemma format_empty_iff_lines (r : ValidationResult) :
  formatValidationErrors r = EmptyString <-> formatValidationErrors_lines r = [].
Proof.
  unfold formatValidationErrors; split; [| intros ->; reflexivity].
  destruct (formatValidationErrors_lines r) as [| x l] eqn:Hlines; [reflexivity |].
  intros H; apply concat_empty in H.
  contradiction (format_lines_head r x l Hlines).
Qed.

(** X13. [formatValidationErrors] yields the empty string exactly for a
    result with no error and no warning. *)
Theorem format_empty_iff (r : ValidationResult) :
  formatValidationErrors r = EmptyString <-> errors r = [] /\ warnings r = [].
Proof.
  rewrite format_empty_iff_lines; apply format_lines_nil_iff.
Qed.

Lemma existence_checks_have_no_warnings (engine : Engine) (spec : OpenAPISpec)
    (r : ValidationResult) :
  (exists path method, validateEndpointExists engine spec path method = Return r)
  \/ (exists schemaName, validateSchemaExists engine spec schemaName = Return r) ->
  warnings r = [].
Proof.
  intros [(path & method & H) | (schemaName & H)].
  - apply (validateEndpointExists_valid _ _ _ _ _ H).
  - apply (validateSchemaExists_valid _ _ _ _ H).
Qed.

(** X14. For what [validateEndpointExists], [validateSchemaExists] or a
    strict [validateResponseAgainstSchema] returns, the formatted text is
    empty exactly when the result is valid: the tests' guard
    [if (!result.valid)] prints all there is to print. *)
Theorem format_empty_iff_valid (engine : Engine) (spec : OpenAPISpec)
    (r : ValidationResult) :
  (exists path method, validateEndpointExists engine spec path method = Return r)
  \/ (exists schemaName, validateSchemaExists engine spec schemaName = Return r)
  \/ (exists response schemaName options,
        strictRequired options <> Some false
        /\ validateResponseAgainstSchema engine spec response schemaName options
           = Return r) ->
  (formatValidationErrors r = EmptyString <-> valid r = true).
Proof.
  intros H.
  assert (Hw : warnings r = []).
  { destruct H as [H | [H | (response & schemaName & options & Hopt & H)]].
    - apply (existence_checks_have_no_warnings engine spec); left; exact H.
    - apply (existence_checks_have_no_warnings engine spec); right; exact H.
    - apply (validateResponseAgainstSchema_fuel_strict_warnings engine spec
               _ _ _ _ _ (strict_of_true _ Hopt) H). }
  assert (Hv : valid r = is_empty (errors r)).
  { destruct H as [(path & method & H) | [(schemaName & H) |
                   (response & schemaName & options & _ & H)]].
    - apply (validateEndpointExists_valid _ _ _ _ _ H).
    - apply (validateSchemaExists_valid _ _ _ _ H).
    - rewrite validateResponseAgainstSchema_eq in H.
      apply (validateResponseAgainstSchema_body_valid _ _ _ _ _ _ _ H). }
  rewrite format_empty_iff_lines, format_lines_nil_iff, Hw, Hv, is_empty_iff.
  split; [intros [He _]; exact He | intros He; split; [exact He | reflexivity]].
Qed.

Lemma format_empty_iff_valid_witness :
  (exists path method, validateEndpointExists an_engine petstore path method
                       = Return {| valid := true; errors := []; warnings := [] |})
  /\ (formatValidationErrors {| valid := true; errors := []; warnings := [] |}
      = EmptyString
      <-> valid {| valid := true; errors := []; warnings := [] |} = true).
Proof.
  assert (H : exists path method,
             validateEndpointExists an_engine petstore path method
             = Return {| valid := true; errors := []; warnings := [] |})
    by (exists "/pet", (Some "post"); reflexivity).
  split; [exact H |].
  apply (format_empty_iff_valid an_engine petstore _ (or_introl H)).
Defined.

(* ================================================================== *)
(** ** What a valid result guarantees *)

Lemma required_messages_nil (engine : Engine) (response : value)
    (required : list value) :
  required_messages engine response required = Return [] ->
  forall n, In n required ->
            js_in engine (js_toString engine n) response = Return true.
Proof.
  induction required as [| f rest IH]; intros H n Hn; [contradiction |].
  cbn [required_messages] in H.
  apply bind_Return in H as (key & Hkey & H).
  apply ToString_Return in Hkey; subst key.
  apply bind_Return in H as (present & Hp & H).
  apply bind_Return in H as (msgs & Hmsgs & H).
  destruct present; [| discriminate H].
  injection H as ->.
  destruct Hn as [<- | Hn]; [exact Hp | apply (IH Hmsgs n Hn)].
Qed.

(** X15. A strict call that returns a valid result has found every entry
    of the outer schema's [required] in the response, as a property of
    its own or as a member it inherits. *)
Theorem valid_has_required (engine : Engine) (spec : OpenAPISpec)
    (response schema : value) (schemaName : string) (options : Options)
    (r : ValidationResult) :
  getSchema engine spec schemaName = Return schema ->
  truthy schema = true ->
  strictRequired options <> Some false ->
  validateResponseAgainstSchema engine spec response schemaName options
  = Return r ->
  valid r = true ->
  forall n, In n (required_names engine schema) ->
            js_in engine (js_toString engine n) response = Return true.
Proof.
  intros Hschema Htruthy Hstrict H Hvalid.
  rewrite validateResponseAgainstSchema_eq in H.
  pose proof (validateResponseAgainstSchema_body_valid _ _ _ _ _ _ _ H) as Hv.
  rewrite Hvalid in Hv; symmetry in Hv; apply is_empty_iff in Hv.
  unfold validateResponseAgainstSchema_body in H.
  rewrite Hschema in H; cbn [bind] in H; rewrite Htruthy in H; cbn [negb] in H.
  rewrite (truthy_js_get engine schema "required" Htruthy eq_refl) in H;
    cbn [bind] in H.
  rewrite (strict_of_true _ Hstrict) in H.
  apply bind_Return in H as ([errs warns] & Hreq & H).
  apply bind_Return in H as (properties & _ & H).
  apply bind_Return in H as ([errs' warns'] & Hprops & H).
  injection H as <-; cbn [errors] in Hv; subst errs'.
  assert (Herrs : errs = []).
  { destruct (truthy properties); [| injection Hprops as -> _; reflexivity].
    rewrite checkProperties_appends in Hprops.
    apply bind_Return in Hprops as ([fe fw] & _ & Hprops).
    injection Hprops as Hnil _.
    apply app_eq_nil in Hnil as [-> _]; reflexivity. }
  subst errs; unfold required_names.
  destruct (Array_isArray (field engine schema "required")); [| intros n []].
  rewrite checkRequired_general in Hreq.
  apply bind_Return in Hreq as (msgs & Hmsgs & Hreq).
  injection Hreq as Hnil _; cbn [app] in Hnil; subst msgs.
  apply (required_messages_nil _ _ _ Hmsgs).
Qed.

Lemma valid_has_required_witness :
  validateResponseAgainstSchema an_engine petstore
    (JObject [("name", JString "Rex"); ("photoUrls", JArray [])]) "Pet" default_options
  = Return {| valid := true; errors := []; warnings := [] |}
  /\ js_in an_engine (js_toString an_engine (JString "photoUrls"))
       (JObject [("name", JString "Rex"); ("photoUrls", JArray [])])
     = Return true.
Proof.
  split; [reflexivity |].
  apply (valid_has_required an_engine petstore
           (JObject [("name", JString "Rex"); ("photoUrls", JArray [])])
           Pet_schema "Pet" default_options
           {| valid := true; errors := []; warnings := [] |});
    first [reflexivity | discriminate | right; left; reflexivity].
Defined.

Lemma item_type_pass_nil (engine : Engine) (fieldName : string)
    (type : value) (l : list value) (start : nat) :
  item_type_pass engine fieldName type l start = Return [] ->
  forall item, In item l -> strict_eq_string type (getJsonType item) = true.
Proof.
  unfold item_type_pass.
  destruct (forallb (fun item => strict_eq_string type (getJsonType item)) l) eqn:Hall.
  - intros _ item Hin.
    apply (proj1 (forallb_forall _ l) Hall item Hin).
  - intros H; apply bind_Return in H as (expected & _ & H).
    injection H as H; exfalso.
    revert start H; induction l as [| x rest IH]; intros start H;
      cbn [forallb] in Hall; [discriminate Hall |].
    cbn [item_type_errors] in H; apply app_eq_nil in H as [Hx Hrest].
    destruct (strict_eq_string type (getJsonType x)); [| discriminate Hx].
    apply (IH Hall _ Hrest).
Qed.

(** X16. A valid result, strict or not, means that every property of the
    outer schema that the response has and whose schema declares a type
    (its [$ref] branch not returning) holds a value of that type, inside
    the declared enum if there is one, and, for an array with [items] of a
    declared type and no [$ref], elements of the type of [items]. *)
Theorem valid_has_declared_types (engine : Engine) (spec : OpenAPISpec)
    (defs : list (string * value)) (schemaName : string)
    (schema : list (string * value)) (properties : value) (fieldName : string)
    (fieldSchema ref v : value) (response : value) (options : Options)
    (r : ValidationResult) :
  definitions spec = Some defs ->
  assoc schemaName defs = Some (JObject schema) ->
  assoc "properties" schema = Some properties ->
  truthy properties = true ->
  In (fieldName, fieldSchema) (Object_entries engine properties) ->
  js_in engine fieldName response = Return true ->
  js_get engine response fieldName = Return v ->
  js_get engine fieldSchema "$ref" = Return ref ->
  truthy ref = false \/ (exists s, ref = JString s /\ is_object v = false) ->
  truthy (field engine fieldSchema "type") = true ->
  validateResponseAgainstSchema engine spec response schemaName options
  = Return r ->
  valid r = true ->
  strict_eq_string (field engine fieldSchema "type") (getJsonType v) = true
  /\ (forall allowed,
        field engine fieldSchema "enum" = JArray allowed -> includes allowed v = true)
  /\ (forall elements item,
        v = JArray elements ->
        truthy (field engine fieldSchema "items") = true ->
        truthy (field engine (field engine fieldSchema "items") "$ref") = false ->
        truthy (field engine (field engine fieldSchema "items") "type") = true ->
        In item elements ->
        strict_eq_string (field engine (field engine fieldSchema "items") "type")
          (getJsonType item)
        = true).
Proof.
  intros Hd Hs Hprops Htruthy Hentry Hpresent Hget Href Hno Htype H Hvalid.
  assert (Herrors : errors r = []).
  { rewrite validateResponseAgainstSchema_eq in H.
    pose proof (validateResponseAgainstSchema_body_valid _ _ _ _ _ _ _ H) as Hv.
    rewrite Hvalid in Hv; symmetry in Hv; apply is_empty_iff, Hv. }
  destruct (checker_result_shape _ _ _ _ _ _ _ _ Hd Hs H)
    as (reqErrs & reqWarns & fe & fw & _ & Hfields & He & _).
  rewrite Herrors in He; symmetry in He; apply app_eq_nil in He as [_ ->].
  unfold property_pass in Hfields.
  rewrite (field_own engine schema "properties" _ Hprops), Htruthy in Hfields.
  destruct (checkProperties_In _ _ _ _ _ _ _ Hentry Hpresent Hget _ _ Hfields)
    as (r' & Hr' & Hincl).
  assert (Hnone : errors r' = []).
  { destruct (errors r') as [| e es]; [reflexivity |].
    contradiction (Hincl e (or_introl eq_refl)). }
  rewrite (validateFieldType_typed _ _ _ _ _ _ Href Hno Htype) in Hr'.
  apply bind_Return in Hr' as (typeErrs & Htypes & Hr').
  apply bind_Return in Hr' as (enumErrs & Henum & Hr').
  apply bind_Return in Hr' as (errs & Herrs & Hres).
  injection Hres as <-; cbn [errors field_result] in Hnone; subst errs.
  assert (Hemitted :
            (typeErrs ++ enumErrs)%list = []
            /\ forall elements,
                 v = JArray elements ->
                 strict_eq_string (field engine fieldSchema "type") "array"
                 && truthy (field engine fieldSchema "items") = true ->
                 forEach engine (validateResponseAgainstSchema engine spec) fieldName
                   (field engine fieldSchema "items") elements 0 [] = Return []).
  { destruct (strict_eq_string (field engine fieldSchema "type") "array"
              && truthy (field engine fieldSchema "items") && Array_isArray v)
      eqn:Hcond.
    - rewrite forEach_appends in Herrs.
      apply bind_Return in Herrs as (es & Hes & Herrs).
      injection Herrs as Herrs; apply app_eq_nil in Herrs as [Hem ->].
      split; [exact Hem |].
      intros l -> _; exact Hes.
    - injection Herrs as Herrs; split; [exact Herrs |].
      intros l -> Hc; rewrite Hc in Hcond; discriminate Hcond. }
  destruct Hemitted as [Hem Hitems].
  apply app_eq_nil in Hem as [-> ->].
  assert (Hmatch : strict_eq_string (field engine fieldSchema "type") (getJsonType v)
                   = true).
  { unfold type_errors in Htypes.
    destruct (strict_eq_string (field engine fieldSchema "type") (getJsonType v));
      [reflexivity |].
    apply bind_Return in Htypes as (text & _ & Htypes); discriminate Htypes. }
  split; [exact Hmatch |]. split.
  - intros allowed Hallowed; unfold enum_errors in Henum; rewrite Hallowed in Henum.
    cbn [Array_isArray elements_of] in Henum.
    destruct (includes allowed v); [reflexivity |].
    apply bind_Return in Henum as (shown & _ & Henum).
    apply bind_Return in Henum as (listed & _ & Henum); discriminate Henum.
  - intros elements item -> Hit Hr Ht Hin.
    replace (getJsonType (JArray elements)) with "array" in Hmatch by reflexivity.
    specialize (Hitems elements eq_refl).
    rewrite Hmatch, Hit in Hitems; specialize (Hitems eq_refl).
    rewrite (forEach_types _ _ _ _ _ Hit Hr Ht) in Hitems.
    apply (item_type_pass_nil _ _ _ _ _ Hitems item Hin).
Qed.

Lemma valid_has_declared_types_witness :
  validateResponseAgainstSchema an_engine petstore sold_pet "Pet" default_options
  = Return {| valid := true; errors := []; warnings := [] |}
  /\ strict_eq_string (field an_engine status_schema "type") (getJsonType (JString "sold"))
     = true
  /\ includes [JString "available"; JString "pending"; JString "sold"] (JString "sold")
     = true.
Proof.
  split; [reflexivity |].
  destruct (valid_has_declared_types an_engine petstore petstore_definitions "Pet"
              Pet_members (JObject Pet_properties) "status" status_schema JUndefined
              (JString "sold") sold_pet default_options
              {| valid := true; errors := []; warnings := [] |}
              eq_refl eq_refl eq_refl eq_refl
              (or_intror (or_intror (or_intror (or_intror (or_intror
                 (or_introl eq_refl))))))
              eq_refl eq_refl eq_refl (or_introl eq_refl) eq_refl eq_refl eq_refl)
    as (Htype & Henum & _).
  split; [exact Htype | apply Henum; reflexivity].
Defined.

(* ================================================================== *)
(** ** Responses that are not objects *)

(** X17. A response that is not an object, an array or a function
    ([null], a string, a number, a boolean) makes the checker fail with a
    [TypeError] as soon as the schema found has an entry in [required] or
    a property; against a schema with neither it is valid. *)
Theorem primitive_response (engine : Engine) (spec : OpenAPISpec)
    (defs : list (string * value)) (response : value) (schemaName : string)
    (options : Options) :
  definitions spec = Some defs ->
  truthy (definition_of engine defs schemaName) = true ->
  is_object response = false ->
  typeof response <> "function" ->
  validateResponseAgainstSchema engine spec response schemaName options
  = match mentioned_keys engine (definition_of engine defs schemaName) with
    | [] => Return {| valid := true; errors := []; warnings := [] |}
    | _ :: _ => Throw TypeError
    end.
Proof.
  intros Hd Htruthy Hobj Hfun.
  assert (Hin : forall k, js_in engine k response = Throw TypeError).
  { intros k; destruct response as [ | | b | n | s | l | o | b]; try reflexivity;
      try discriminate Hobj.
    destruct b; try discriminate Hobj; contradiction Hfun; reflexivity. }
  rewrite validateResponseAgainstSchema_eq.
  unfold validateResponseAgainstSchema_body, getSchema; rewrite Hd; cbn [bind].
  rewrite Htruthy; cbn [negb].
  rewrite (truthy_js_get engine _ "required" Htruthy eq_refl),
    (truthy_js_get engine _ "properties" Htruthy eq_refl); cbn [bind].
  unfold mentioned_keys, required_names, property_entries.
  set (schema := definition_of engine defs schemaName).
  assert (Hreq :
            (if Array_isArray (field engine schema "required")
             then checkRequired engine response (strict_of options)
                    (elements_of (field engine schema "required")) [] []
             else Return ([], []))
            = match (if Array_isArray (field engine schema "required")
                     then elements_of (field engine schema "required")
                     else []) with
              | [] => Return ([], [])
              | _ :: _ => Throw TypeError
              end).
  { destruct (Array_isArray (field engine schema "required")); [| reflexivity].
    destruct (elements_of (field engine schema "required")) as [| f rest];
      [reflexivity |].
    cbn [checkRequired]; unfold ToString; destruct (convertible f); cbn [bind];
      [rewrite Hin |]; reflexivity. }
  rewrite Hreq.
  destruct (if Array_isArray (field engine schema "required")
            then elements_of (field engine schema "required")
            else []) as [| f rest]; cbn [map app bind]; [| reflexivity].
  destruct (truthy (field engine schema "properties")); [| reflexivity].
  destruct (Object_entries engine (field engine schema "properties")) as [| [k s] rest];
    [reflexivity |].
  cbn [checkProperties map]; rewrite Hin; reflexivity.
Qed.

Lemma primitive_response_witness :
  is_object JNull = false
  /\ typeof JNull <> "function"
  /\ validateResponseAgainstSchema an_engine petstore JNull "Pet" default_options
     = Throw TypeError.
Proof.
  split; [reflexivity |]. split; [discriminate |].
  rewrite (primitive_response an_engine petstore petstore_definitions JNull "Pet"
             default_options eq_refl eq_refl eq_refl ltac:(discriminate)).
  reflexivity.
Defined.

(* ================================================================== *)
(** ** Resolving a reference *)

Lemma split_nonempty (sep : ascii) (s : string) : split sep s <> [].
Proof.
  destruct s as [| c s]; cbn [split]; [discriminate |].
  destruct (Ascii.eqb c sep); [discriminate |].
  destruct (split sep s); discriminate.
Qed.

Lemma last_cons {A : Type} (x d : A) (l : list A) : l <> [] -> last (x :: l) d = last l d.
Proof. destruct l; [contradiction | reflexivity]. Qed.

Lemma split_no_slash (s : string) : has_slash s = false -> split "/" s = [s].
Proof.
  induction s as [| c s IH]; cbn [has_slash split]; [reflexivity |].
  intros H; apply orb_false_iff in H as [Hc Hs].
  rewrite Hc, (IH Hs); reflexivity.
Qed.

Lemma split_pop_after_slash (prefix rest : string) :
  split_pop (prefix ++ String "/" rest) = split_pop rest.
Proof.
  unfold split_pop.
  induction prefix as [| c prefix IH]; cbn [append split].
  - cbn [Ascii.eqb Bool.eqb]; apply last_cons, split_nonempty.
  - destruct (Ascii.eqb c "/").
    + rewrite last_cons by apply split_nonempty; exact IH.
    + destruct (split "/" (prefix ++ String "/" rest)) as [| seg segs] eqn:Hsplit.
      * contradiction (split_nonempty "/" _ Hsplit).
      * destruct segs as [| seg' segs]; [| exact IH].
        exfalso; clear IH.
        assert (Hlen : forall p, (2 <= length (split "/" (p ++ String "/" rest)))%nat).
        { clear; induction p as [| a p IHp]; cbn [append split].
          - cbn [Ascii.eqb Bool.eqb length].
            pose proof (split_nonempty "/" rest).
            destruct (split "/" rest); [contradiction | simpl; lia].
          - destruct (Ascii.eqb a "/"); [simpl; lia |].
            destruct (split "/" (p ++ String "/" rest)) as [| x xs];
              [simpl in IHp; lia | exact IHp]. }
        specialize (Hlen prefix); rewrite Hsplit in Hlen; simpl in Hlen; lia.
Qed.

(** X18. A [$ref] resolves to what follows its last slash, whatever
    precedes: [#/definitions/Pet], [#/components/schemas/Pet] and [Pet]
    all name the definition [Pet]. *)
Theorem ref_resolves_to_last_segment (prefix name : string) :
  has_slash name = false ->
  ref_name (JString (prefix ++ String "/" name)) = Return name
  /\ ref_name (JString name) = Return name.
Proof.
  intros H; cbn [ref_name]; rewrite split_pop_after_slash.
  unfold split_pop; rewrite (split_no_slash _ H); split; reflexivity.
Qed.

Lemma ref_resolves_to_last_segment_witness :
  has_slash "Pet" = false
  /\ ref_name (JString "#/components/schemas/Pet") = Return "Pet".
Proof.
  split; [reflexivity |].
  apply (proj1 (ref_resolves_to_last_segment "#/components/schemas" "Pet" eq_refl)).
Defined.

(* ================================================================== *)
(** ** Recursive definitions *)

(** X19. The checker terminates on every response, whatever the
    definitions, those that refer to themselves included: a recursion
    budget above the nesting depth of the response is never used up, and
    a larger one changes nothing. *)
Theorem budget_above_depth_suffices (engine : Engine)
    (spec : OpenAPISpec) (response : value) (schemaName : string)
    (options : Options) (fuel : nat) :
  (depth response < fuel)%nat ->
  validateResponseAgainstSchema_fuel engine fuel spec response schemaName
    options
  = validateResponseAgainstSchema engine spec response schemaName options
  /\ validateResponseAgainstSchema_fuel engine fuel spec response schemaName
       options <> OutOfFuel.
Proof.
  intros Hfuel.
  destruct (validateResponseAgainstSchema_fuel_agree engine spec fuel
              (S (depth response)) response schemaName options Hfuel
              (Nat.lt_succ_diag_r _)) as [Heq Hne].
  split; [exact Heq | exact Hne].
Qed.

Lemma budget_above_depth_suffices_witness :
  (depth two_nodes < 3)%nat
  /\ validateResponseAgainstSchema_fuel an_engine 3 linked two_nodes "Node"
       default_options
     = Return {| valid := false;
                 errors := ["Field 'id' has type 'string' but schema expects 'integer' (value: "
                              ++ quote_json "two" ++ ")"];
                 warnings := [] |}.
Proof.
  split; [vm_compute; lia |].
  rewrite (proj1 (budget_above_depth_suffices an_engine linked two_nodes "Node"
                    default_options 3 ltac:(vm_compute; lia))).
  reflexivity.
Defined.

(* ================================================================== *)
(** * Further properties of the schema validators *)

(** X20. What [SchemaValidator.validate] of [schemaValidator.ts] returns
    is coherent: a valid result has no error and carries the data it was
    given; one that is not valid carries no data and one error string for
    each failure of the [SchemaValidationError] that [validateSchema]
    throws for the same arguments. *)
Theorem validate_result_coherent (compile : Ajv.Compile) (schema data : value)
    (r : SchemaValidator.Result) :
  SchemaValidator.validate compile schema data = Normal r ->
  (SchemaValidator.valid r = true ->
   SchemaValidator.errors r = []
   /\ SchemaValidator.data r = Some data
   /\ SchemaValidator.validateSchema compile schema data = Normal data)
  /\ (SchemaValidator.valid r = false ->
      SchemaValidator.data r = None
      /\ exists errs,
           SchemaValidator.validateSchema compile schema data
           = Abrupt (SchemaValidator.SchemaValidationError errs data)
           /\ length (SchemaValidator.errors r) = length errs).
Proof.
  unfold SchemaValidator.validate, SchemaValidator.validateSchema.
  destruct (compile schema) as [f | e]; [| discriminate].
  destruct (f data) as [[|] [errs |]]; intros H; injection H as <-;
    cbn [SchemaValidator.valid SchemaValidator.errors SchemaValidator.data];
    split; intros Hv; try discriminate Hv; try (repeat split; reflexivity).
  split; [reflexivity |]. exists errs; split; [reflexivity |].
  rewrite length_map; reflexivity.
Qed.

Lemma validate_result_coherent_witness :
  SchemaValidator.validate rejecting id_schema (JObject [("id", JString "not-a-number")])
  = Normal {| SchemaValidator.valid := false;
              SchemaValidator.errors := ["/id: must be integer"];
              SchemaValidator.data := None |}
  /\ exists errs,
       SchemaValidator.validateSchema rejecting id_schema
         (JObject [("id", JString "not-a-number")])
       = Abrupt (SchemaValidator.SchemaValidationError errs
                   (JObject [("id", JString "not-a-number")]))
       /\ length ["/id: must be integer"] = length errs.
Proof.
  split; [reflexivity |].
  apply (proj2 (validate_result_coherent rejecting id_schema
                  (JObject [("id", JString "not-a-number")])
                  {| SchemaValidator.valid := false;
                     SchemaValidator.errors := ["/id: must be integer"];
                     SchemaValidator.data := None |} eq_refl) eq_refl).
Defined.

(** X21. [assertValid] follows [validate]: it returns the data it was
    given exactly when [validate] reports a valid result; when [validate]
    reports failures it throws a plain [Error], never the
    [SchemaValidationError] itself, whose message is [Schema validation
    failed], the context label, a colon and the message of the
    [SchemaValidationError], which begins with [Schema validation
    failed:]; and what [validate] throws, it throws. *)
Theorem assertValid_follows_validate (engine : Engine)
    (compile : Ajv.Compile) (schema data : value) (context : option string) :
  match SchemaValidator.validate compile schema data with
  | Normal r =>
      if SchemaValidator.valid r
      then assertValid engine compile schema data context = Normal data
      else exists errs rest,
             SchemaValidator.validateSchema compile schema data
             = Abrupt (SchemaValidator.SchemaValidationError errs data)
             /\ SchemaValidationError_message engine errs data
                = "Schema validation failed:" ++ newline ++ rest
             /\ assertValid engine compile schema data context
                = Abrupt (SchemaValidator.Other
                            (Error ("Schema validation failed" ++ context_label context
                                      ++ ": "
                                      ++ SchemaValidationError_message engine
                                           errs data)))
  | Abrupt t => assertValid engine compile schema data context = Abrupt t
  end.
Proof.
  unfold SchemaValidator.validate, assertValid, SchemaValidator.validateSchema.
  destruct (compile schema) as [f | e]; [| reflexivity].
  destruct (f data) as [[|] [errs |]];
    cbn [SchemaValidator.valid]; try reflexivity.
  exists errs; eexists; split; [reflexivity |]; split; reflexivity.
Qed.

(** X22. [assertType] compares with [typeof], so the type names of the
    contract validator that [typeof] never yields are never accepted: no
    value passes for [array], [null] or [integer], while an array and
    [null] pass for [object] and every number passes for [number]. *)
Theorem assertType_uses_typeof (v : value) :
  ResponseValidator.assertType v "array" <> Normal tt
  /\ ResponseValidator.assertType v "null" <> Normal tt
  /\ ResponseValidator.assertType v "integer" <> Normal tt
  /\ (forall l, ResponseValidator.assertType (JArray l) "object" = Normal tt)
  /\ ResponseValidator.assertType JNull "object" = Normal tt
  /\ (forall n, ResponseValidator.assertType (JNumber n) "number" = Normal tt)
  /\ (forall expectedType,
        ResponseValidator.assertType v expectedType = Normal tt
        <-> expectedType = typeof v).
Proof.
  repeat split; try (destruct v as [ | | | | | | | []]; discriminate).
  - unfold ResponseValidator.assertType.
    destruct (String.eqb_spec (typeof v) expectedType) as [Heq | Hne];
      [intros _; symmetry; exact Heq | discriminate].
  - intros ->; unfold ResponseValidator.assertType.
    rewrite String.eqb_refl; reflexivity.
Qed.

Lemma required_messages_all_present (engine : Engine) (response : value)
    (required : list value) :
  forall msgs,
    required_messages engine response required = Return msgs ->
    (forall n, In n required ->
               own_property engine response (js_toString engine n) <> None) ->
    msgs = [].
Proof.
  induction required as [| f rest IH]; intros msgs H Hown; cbn [required_messages] in H.
  - injection H as <-; reflexivity.
  - apply bind_Return in H as (key & Hkey & H).
    apply ToString_Return in Hkey; subst key.
    apply bind_Return in H as (present & Hp & H).
    apply bind_Return in H as (ms & Hms & H); injection H as <-.
    rewrite (IH ms Hms) by (intros n Hn; apply Hown; right; exact Hn).
    destruct present; [reflexivity |].
    exfalso.
    rewrite (js_in_has_property _ _ _ _ Hp (js_toString engine f)) in Hp.
    rewrite (own_has_property _ _ _ (Hown f (or_introl eq_refl))) in Hp.
    discriminate Hp.
Qed.

(** X23. The two ways the tests check required fields agree: when
    [assertHasProperty] accepts the response for every entry of the outer
    schema's [required], a call with [strictRequired: false] returns no
    warning. *)
Theorem asserted_properties_are_not_warned (engine : Engine)
    (spec : OpenAPISpec) (response schema : value) (schemaName : string)
    (options : Options) (r : ValidationResult) :
  getSchema engine spec schemaName = Return schema ->
  truthy schema = true ->
  strictRequired options = Some false ->
  validateResponseAgainstSchema engine spec response schemaName options
  = Return r ->
  (forall n, In n (required_names engine schema) ->
             ResponseValidator.assertHasProperty engine response
               (js_toString engine n)
             = Normal tt) ->
  warnings r = [].
Proof.
  intros Hschema Htruthy Hlenient H Hassert.
  apply (required_messages_all_present engine response (required_names engine schema)).
  - apply (lenient_warnings_are_required_messages _ _ _ _ _ _ _
             Hschema Htruthy Hlenient H).
  - intros n Hn Hnone; specialize (Hassert n Hn).
    unfold ResponseValidator.assertHasProperty in Hassert; rewrite Hnone in Hassert.
    destruct response; discriminate Hassert.
Qed.

Lemma asserted_properties_are_not_warned_witness :
  validateResponseAgainstSchema an_engine petstore sold_pet "Pet"
    {| strictRequired := Some false |}
  = Return {| valid := true; errors := []; warnings := [] |}
  /\ warnings {| valid := true; errors := []; warnings := [] |} = [].
Proof.
  split; [reflexivity |].
  apply (asserted_properties_are_not_warned an_engine petstore sold_pet Pet_schema "Pet"
           {| strictRequired := Some false |}
           {| valid := true; errors := []; warnings := [] |}
           eq_refl eq_refl eq_refl eq_refl).
  intros n [<- | [<- | []]]; reflexivity.
Defined.

(* ================================================================== *)
(** ** Numbers *)

(** X24. The type names are compared for equality, so an integer does not
    satisfy a declared [number]: a field declared [number] (and without a
    [$ref]) whose value is a number without fractional part gets the
    mismatch error naming [integer], and a number with a fractional part
    gets it under a declared [integer]; the value is shown as the engine
    renders the number, and the enum check, when it does not raise, adds
    its error after it. *)
Theorem integer_is_not_number (engine : Engine) (spec : OpenAPISpec)
    (fieldName : string) (fieldSchema ref : value) (n : Q) :
  js_get engine fieldSchema "$ref" = Return ref ->
  truthy ref = false ->
  (field engine fieldSchema "type" = JString "number" ->
   (exists z, n == inject_Z z) ->
   validateFieldType engine spec fieldName (JNumber n) fieldSchema
   = (enumErrs <- enum_errors engine fieldName (JNumber n)
                    (field engine fieldSchema "enum") ;;
      Return {| valid := false;
                errors :=
                  ("Field '" ++ fieldName
                     ++ "' has type 'integer' but schema expects 'number' (value: "
                     ++ Number_toString engine n ++ ")")
                  :: enumErrs;
                warnings := [] |}))
  /\ (field engine fieldSchema "type" = JString "integer" ->
      ~ (exists z, n == inject_Z z) ->
      validateFieldType engine spec fieldName (JNumber n) fieldSchema
      = (enumErrs <- enum_errors engine fieldName (JNumber n)
                       (field engine fieldSchema "enum") ;;
         Return {| valid := false;
                   errors :=
                     ("Field '" ++ fieldName
                        ++ "' has type 'number' but schema expects 'integer' (value: "
                        ++ Number_toString engine n ++ ")")
                     :: enumErrs;
                   warnings := [] |})).
Proof.
  intros Href Hno; split; intros Htype Hn; unfold validateFieldType;
    (rewrite (validateFieldType_typed _ _ _ _ _ _ Href (or_introl Hno));
     [| rewrite Htype; reflexivity]);
    unfold type_errors, type_message, stringified;
    rewrite Htype; cbn [getJsonType Array_isArray JSON_stringify andb].
  - apply Number_isInteger_spec in Hn; rewrite Hn; cbn.
    destruct (enum_errors engine fieldName (JNumber n) (field engine fieldSchema "enum"));
      reflexivity.
  - destruct (Number_isInteger n) eqn:E;
      [contradiction Hn; apply Number_isInteger_spec, E |].
    cbn.
    destruct (enum_errors engine fieldName (JNumber n) (field engine fieldSchema "enum"));
      reflexivity.
Qed.

Lemma integer_is_not_number_witness :
  js_get an_engine (JObject [("type", JString "number")]) "$ref" = Return JUndefined
  /\ validateFieldType an_engine petstore "price" (int 5)
       (JObject [("type", JString "number")])
     = Return {| valid := false;
                 errors := ["Field 'price' has type 'integer' but schema expects 'number' (value: 5)"];
                 warnings := [] |}.
Proof.
  split; [reflexivity |]. unfold int.
  rewrite (proj1 (integer_is_not_number an_engine petstore "price"
                    (JObject [("type", JString "number")]) JUndefined (inject_Z 5)
                    eq_refl eq_refl) eq_refl (ex_intro _ 5%Z (Qeq_refl _))).
  reflexivity.
Defined.
